(** * KazTron: supervisor loop with back-off, the project wizard manager
      and the badge manager

    A shallow embedding of [kaztron/runner.py] ([Backoff], [run],
    [run_reboot_loop], [get_daemon_context]), of
    [kaztron/cog/projects/wizard.py] ([WizardManager]) and of
    [kaztron/cog/blots/badges.py] ([BadgeManager]), with the properties the
    specification states about them and further properties of the code.

    Conventions of the embedding.
    - Python [int] is [Z]; Python [float] is the binary64 format of
      IEEE 754, with the rounding of its sum, product and quotient. The
      power of a float is computed by the C library and is an input of the
      model (class [FloatPow]).
    - A Python dict used as a map is a [gmap]; the two-entry dict
      [self.wizards] is a record with the fields [new] and [edit], iterated
      in insertion order.
    - Code that raises is embedded in a state-and-exception monad whose
      outcomes are [Normal], [Raised] and, for the endless supervisor loop
      only, [Running].
    - Calls to collaborators (chat client, event loop, logger, state store,
      random generator) are recorded as events; what a collaborator answers
      is an explicit input of the model. *)

From Stdlib Require Import ZArith Lia.
From Stdlib Require Uint63.
From Stdlib Require Import PrimFloat.
From stdpp Require Import gmap strings list fin_maps.

Local Open Scope Z_scope.
Set Warnings "-inexact-float".

(** ** Python exceptions *)

(** The exception classes the two modules raise, catch or let through.
    [OtherException] stands for any further subclass of [Exception] a
    collaborator may raise ([discord.Forbidden], [CancelledError],
    [OSError], ...). *)
Inductive exn : Type :=
| StopIteration (msg : string)
| KeyError (msg : string)
| ValueError (msg : string)
| CommandError (msg : string)
| OtherException (cls : string)
| KeyboardInterrupt
| SystemExit (code : Z).

(** [isinstance(e, Exception)]: [KeyboardInterrupt] and [SystemExit] derive
    from [BaseException] only. *)
Definition is_Exception (e : exn) : bool :=
  match e with
  | KeyboardInterrupt | SystemExit _ => false
  | _ => true
  end.

(** ** Outcomes and the state-and-exception monad *)

Inductive outcome (A : Type) : Type :=
| Normal (a : A)
| Raised (e : exn)
| Running.
Arguments Normal {A} a.
Arguments Raised {A} e.
Arguments Running {A}.

Definition M (W A : Type) : Type := W -> outcome A * W.

Definition ret {W A} (a : A) : M W A := fun w => (Normal a, w).

Definition raise {W A} (e : exn) : M W A := fun w => (Raised e, w).

Definition bind {W A B} (c : M W A) (k : A -> M W B) : M W B :=
  fun w =>
    match c w with
    | (Normal a, w') => k a w'
    | (Raised e, w') => (Raised e, w')
    | (Running, w') => (Running, w')
    end.

Declare Scope py_scope.
Delimit Scope py_scope with py.
Notation "x <- c ;; k" := (bind c (fun x => k))
  (at level 100, c at next level, right associativity) : py_scope.
Notation "c ;;; k" := (bind c (fun _ => k))
  (at level 100, right associativity) : py_scope.

(** [try: body except <classes>: handler]. [handler e] is [None] when no
    [except] clause matches [e]. *)
Definition try_except {W A} (body : M W A) (handler : exn -> option (M W A))
  : M W A :=
  fun w =>
    match body w with
    | (Raised e, w') =>
        match handler e with
        | Some h => h w'
        | None => (Raised e, w')
        end
    | r => r
    end.

(** [try: body finally: fin]. The [finally] block runs when the body is left
    by falling off its end, by [return] or by an exception; an exception of
    the [finally] block replaces the pending one. *)
Definition try_finally {W A} (body : M W A) (fin : M W unit) : M W A :=
  fun w =>
    match body w with
    | (Running, w') => (Running, w')
    | (r, w') =>
        match fin w' with
        | (Normal _, w'') => (r, w'')
        | (Raised e, w'') => (Raised e, w'')
        | (Running, w'') => (Running, w'')
        end
    end.

(** What a collaborator call does, given its answer: return or raise. *)
Definition answer_of {W} (r : option exn) : M W unit :=
  match r with
  | None => ret tt
  | Some e => raise e
  end.

(** ** Python floats *)

(** [float(k)] for an int [k] of less than 63 bits. *)
Definition float_of_int (k : Z) : float :=
  if k <? 0 then (- of_uint63 (Uint63.of_Z (- k)))%float
  else of_uint63 (Uint63.of_Z k).

(** What [x ** n] evaluates to, for a float [x] and an int [n]: a float,
    or an exception of the class [cls] ([OverflowError] when the result is
    out of the range of the floats, [ZeroDivisionError] for [0.0] and a
    negative [n]). *)
Inductive power : Type :=
| Pow (p : float)
| PowError (cls : string).

(** The power of a float. Apart from its special cases the interpreter
    leaves it to the [pow] of the C library, whose rounding the language
    does not fix: the function is a parameter of the model. One special
    case is used: [x ** 0] is [1.0] for every [x]. *)
Class FloatPow : Type := mkFloatPow {
  float_pow : float -> Z -> power;
  float_pow_0 : forall x : float, float_pow x 0 = Pow 1%float
}.

(** A stand-in for the library in sample runs: the power as a repeated
    product, out of range when the product is infinite. *)
Fixpoint repeated_product (x : float) (k : nat) : float :=
  match k with
  | O => 1%float
  | S k' => (x * repeated_product x k')%float
  end.

Definition product_pow_of (x : float) (n : Z) : power :=
  let p := if n <? 0 then (1 / repeated_product x (Z.to_nat (- n)))%float
           else repeated_product x (Z.to_nat n) in
  if is_infinity p then PowError "OverflowError" else Pow p.

Definition product_pow : FloatPow :=
  {| float_pow := product_pow_of; float_pow_0 := fun x => eq_refl |}.

(** ** runner.py *)

Module Runner.

(** [class ErrorCodes]. *)
Module ErrorCodes.
Definition OK : Z := 0.
Definition ERROR : Z := 1.
Definition DAEMON_RUNNING : Z := 4.
Definition DAEMON_NOT_RUNNING : Z := 5.
Definition EXTENSION_LOAD : Z := 7.
Definition RETRY_MAX_ATTEMPTS : Z := 8.
Definition CFG_FILE : Z := 17.
End ErrorCodes.

(** *** class Backoff *)

(** [initial_time] and [base] are floats, as the defaults of [__init__]
    and the arguments of [run_reboot_loop] are. *)
Record Backoff : Type := mkBackoff {
  t0 : float;  (* initial_time *)
  max : Z;     (* max_attempts *)
  base : float;
  n : Z        (* number of attempts so far *)
}.

(** [Backoff.reset]. *)
Definition reset (b : Backoff) : Backoff :=
  {| t0 := t0 b; max := max b; base := base b; n := 0 |}.

(** [Backoff.__init__]. *)
Definition init (initial_time base : float) (max_attempts : Z) : Backoff :=
  reset {| t0 := initial_time; max := max_attempts; base := base; n := 0 |}.

(** [random.randint(0, 1000) / 1000] for the draw [r] of [randint]: the
    quotient of two ints is the float nearest to it, which for ints as
    small as these is the quotient of the two floats. *)
Definition jitter (r : Z) : float := (float_of_int r / float_of_int 1000)%float.

(** [random.randint(a, b)] returns an integer [r] with [a <= r <= b]. *)
Definition randint_range (a b r : Z) : Prop := a <= r <= b.

Section WithFloatPow.
Context `{FloatPow}.

(** [Backoff.next], with [r] the integer [random.randint(0, 1000)] returns
    when it is called. The state of the monad is the object itself. The
    power is evaluated first: when it raises, nothing is drawn and [n]
    stays as it is. *)
Definition next (r : Z) : M Backoff float :=
  fun b =>
    if n b <? max b then
      match float_pow (base b) (n b) with
      | Pow p =>
          let tn := (t0 b * p + jitter r)%float in
          (Normal tn, {| t0 := t0 b; max := max b; base := base b; n := n b + 1 |})
      | PowError cls => (Raised (OtherException cls), b)
      end
    else
      (Raised (StopIteration "Maximum attempts exceeded"), b).

(** [next] called once per draw of [rs], until one call raises: the delays
    returned, the exception if a call raised, and the final state. *)
Fixpoint next_calls (rs : list Z) (b : Backoff) : list float * option exn * Backoff :=
  match rs with
  | [] => ([], None, b)
  | r :: rs' =>
      match next r b with
      | (Normal tn, b') =>
          let '(ds, e, b'') := next_calls rs' b' in (tn :: ds, e, b'')
      | (Raised e, b') => ([], Some e, b')
      | (Running, b') => ([], None, b')
      end
  end.

(** The delays [t0 * base ** i + jitter], for the attempts [i], [i+1], ...
    and the draws [rs]; [None] when one of the powers raises. *)
Fixpoint delays_from (b : Backoff) (i : Z) (rs : list Z) : option (list float) :=
  match rs with
  | [] => Some []
  | r :: rs' =>
      match float_pow (base b) i with
      | Pow p =>
          match delays_from b (i + 1) rs' with
          | Some ds => Some ((t0 b * p + jitter r)%float :: ds)
          | None => None
          end
      | PowError _ => None
      end
  end.

End WithFloatPow.

(** [reset_backoff], the callback [run_reboot_loop] schedules. *)
Definition reset_backoff (backoff : Backoff) (sequence : Z) : Backoff :=
  if sequence =? n backoff then reset backoff else backoff.

(** *** Events and collaborator answers *)

Inductive level : Type := DEBUG | INFO | ERROR | EXCEPTION.

Definition task : Type := nat.

(** The calls [run] and [run_reboot_loop] make to their collaborators, in
    the order they are made. *)
Inductive event : Type :=
| Log (lvl : level) (msg : string)
| StaticInit                          (* lines 33-55 of run *)
| LoadExtension (name : string)       (* client.load_extension *)
| Login                               (* client.login *)
| Connect                             (* client.connect *)
| Close                               (* client.close *)
| AllTasks                            (* asyncio.Task.all_tasks *)
| Gather (ts : list task)             (* asyncio.gather *)
| Cancel (ts : list task)             (* gathered.cancel *)
| RunUntilComplete (ts : list task)   (* loop.run_until_complete(gathered) *)
| GatheredException (ts : list task)  (* gathered.exception *)
| StateWrite                          (* KazCog.state.write *)
| CallLater (delay : float) (sequence : Z)
| CancelTimer                         (* reset_task.cancel *)
| Sleep (seconds : float)             (* time.sleep *)
| LoopClose.                          (* loop.close *)

(** The state of the monad: the events so far, oldest first. *)
Definition world : Type := list event.

Definition emit (ev : event) : M world unit := fun w => (Normal tt, w ++ [ev]).

(** A collaborator call that may raise: the call is recorded, then it
    returns or raises as the collaborator answers. *)
Definition call (ev : event) (r : option exn) : M world unit :=
  (emit ev ;;; answer_of r)%py.

Definition sys_exit {A} (code : Z) : M world A := raise (SystemExit code).

(** What the collaborators answer during one call of [run]. [None] is a
    normal return, [Some e] raises [e]. *)
Record session : Type := mkSession {
  startup : option exn;                     (* lines 33-55 *)
  extensions : list (string * option exn);  (* core.extensions, with the answer of each load *)
  login : option exn;
  connect : option exn;                     (* None: the connection ended, connect returned *)
  close : option exn;
  pending : list task;                      (* what all_tasks returns at teardown *)
  cancelled_await : option exn;             (* run_until_complete(gathered) after the cancel *)
  gathered_exception : option exn;
  write : option exn
}.

(** *** run *)

(** The loop over [startup_extensions]. *)
Fixpoint load_extensions (exts : list (string * option exn)) : M world unit :=
  match exts with
  | [] => ret tt
  | (extension, r) :: rest =>
      (emit (Log DEBUG "Loading extension: {}") ;;;
       try_except
         (call (LoadExtension ("kaztron.cog." ++ extension)) r)
         (fun e =>
            if is_Exception e then
              Some (emit (Log EXCEPTION "Failed to load extension {}") ;;;
                    sys_exit ErrorCodes.EXTENSION_LOAD)
            else None) ;;;
       load_extensions rest)%py
  end.

(** The [finally] block of [run]. *)
Definition teardown (s : session) : M world unit :=
  (emit (Log DEBUG "Cancelling pending tasks...") ;;;
   emit AllTasks ;;;
   let pending := pending s in
   emit (Gather pending) ;;;
   try_except
     (emit (Cancel pending) ;;;
      call (RunUntilComplete pending) (cancelled_await s) ;;;
      call (GatheredException pending) (gathered_exception s))
     (fun e => if is_Exception e then Some (ret tt) else None) ;;;
   call StateWrite (write s))%py.

(** The [except] clauses of [run]. *)
Definition run_handler (s : session) (e : exn) : option (M world unit) :=
  match e with
  | KeyboardInterrupt =>
      Some (emit (Log INFO "Interrupted by user") ;;;
            emit (Log DEBUG "Waiting for client to close...") ;;;
            call Close (close s) ;;;
            emit (Log INFO "Client closed.") ;;;
            sys_exit ErrorCodes.OK)%py
  | _ =>
      if is_Exception e then
        Some (emit (Log EXCEPTION "Uncaught exception during bot execution") ;;;
              emit (Log DEBUG "Waiting for client to close...") ;;;
              call Close (close s) ;;;
              emit (Log INFO "Client closed.") ;;;
              ret tt)%py
      else None
  end.

Definition run (s : session) : M world unit :=
  (call StaticInit (startup s) ;;;
   load_extensions (extensions s) ;;;
   try_finally
     (try_except
        (call Login (login s) ;;; call Connect (connect s))
        (run_handler s))
     (teardown s))%py.

(** *** run_reboot_loop *)

(** What happens around one session of the loop. *)
Record iteration : Type := mkIteration {
  sess : session;
  timer_fires : bool;   (* the scheduled reset ran while the event loop of the session was running *)
  draw : Z;             (* what random.randint(0, 1000) returns in next *)
  sleep : option exn    (* time.sleep: None, or the exception that interrupts it *)
}.

(** A method call on an object held in a local variable: the object after
    the call is returned with the result. *)
Definition on_object {W S A} (c : M S A) (s : S) : M W (A * S) :=
  fun w =>
    match c s with
    | (Normal a, s') => (Normal (a, s'), w)
    | (Raised e, _) => (Raised e, w)
    | (Running, _) => (Running, w)
    end.

Section Loop.
Context `{FloatPow}.

(** The [while True] loop, run for as long as [its] says what the
    environment does; when [its] is used up the loop is still [Running].
    [wait_time] starts as the int 0, here the float of that value. *)
Fixpoint while_true (its : list iteration) (bo_timer : Backoff) (wait_time : float)
  : M world unit :=
  match its with
  | [] => fun w => (Running, w)
  | it :: rest =>
      let sequence := n bo_timer in
      (emit (CallLater wait_time sequence) ;;;
       run (sess it) ;;;
       let bo_timer :=
         if timer_fires it then reset_backoff bo_timer sequence else bo_timer in
       emit (Log ERROR "Bot halted unexpectedly.") ;;;
       emit CancelTimer ;;;
       r <- on_object (next (draw it)) bo_timer ;;
       let '(wait_time, bo_timer) := r in
       emit (Log INFO "Restarting bot in {:.1f} seconds...") ;;;
       call (Sleep wait_time) (sleep it) ;;;
       emit (Log INFO "Restarting bot...") ;;;
       while_true rest bo_timer wait_time)%py
  end.

(** The [except] clauses of [run_reboot_loop]. *)
Definition reboot_handler (e : exn) : option (M world unit) :=
  match e with
  | StopIteration _ =>
      Some (emit (Log ERROR "Too many failed attempts. Exiting.") ;;;
            sys_exit ErrorCodes.RETRY_MAX_ATTEMPTS)%py
  | KeyboardInterrupt =>
      Some (emit (Log INFO "Interrupted by user. Exiting."))
  | _ =>
      if is_Exception e then
        Some (emit (Log EXCEPTION "Exception in reboot loop.") ;;; raise e)%py
      else None
  end.

(** [run_reboot_loop] with the back-off object as a parameter. *)
Definition run_reboot_loop_with (bo_timer : Backoff) (its : list iteration)
  : M world unit :=
  (emit (Log INFO "Welcome to KazTron v{}, booting up...") ;;;
   try_finally
     (try_except (while_true its bo_timer 0%float) reboot_handler)
     (emit (Log INFO "Exiting.") ;;; emit LoopClose))%py.

(** [run_reboot_loop]: [Backoff(initial_time=3.0, base=1.58, max_attempts=12)]. *)
Definition run_reboot_loop (its : list iteration) : M world unit :=
  run_reboot_loop_with (init 3.0%float 1.58%float 12) its.

(** The backoff fails in a run of the loop: every session up to some
    iteration returns to the loop, every [next] before it succeeds and no
    sleep is interrupted, and at that iteration [next] raises. *)
Inductive backoff_fails : Backoff -> list iteration -> Prop :=
| fails_now bo it rest :
    (forall w, (run (sess it) w).1 = Normal tt) ->
    max (if timer_fires it then reset_backoff bo (n bo) else bo)
      <= n (if timer_fires it then reset_backoff bo (n bo) else bo) ->
    backoff_fails bo (it :: rest)
| fails_later bo it rest tn bo' :
    (forall w, (run (sess it) w).1 = Normal tt) ->
    next (draw it) (if timer_fires it then reset_backoff bo (n bo) else bo)
      = (Normal tn, bo') ->
    sleep it = None ->
    backoff_fails bo' rest ->
    backoff_fails bo (it :: rest).

End Loop.

(** The exception that leaves the [try] body of [run], if any. *)
Definition body_raises (s : session) : option exn :=
  match login s with
  | Some e => Some e
  | None => connect s
  end.

(** The session gets as far as the [try] statement of [run]. *)
Definition reaches_connect (s : session) : Prop :=
  startup s = None /\ Forall (fun x => x.2 = None) (extensions s).

(** Whatever awaiting the cancelled tasks raises is an [Exception]
    ([CancelledError] and the like). *)
Definition cancellation_errors (s : session) : Prop :=
  (forall e, cancelled_await s = Some e -> is_Exception e = true) /\
  (forall e, gathered_exception s = Some e -> is_Exception e = true).

(** The calls of the [finally] block up to the await of the cancelled
    tasks. *)
Definition teardown_calls (s : session) : list event :=
  [Log DEBUG "Cancelling pending tasks..."; AllTasks; Gather (pending s);
   Cancel (pending s); RunUntilComplete (pending s)].

(** The calls of [run] before its [try] statement, when every extension
    loads. *)
Definition startup_calls (s : session) : list event :=
  StaticInit ::
  flat_map (fun x => [Log DEBUG "Loading extension: {}";
                      LoadExtension ("kaztron.cog." ++ x.1)]) (extensions s).

(** The calls of the [try] body of [run]. *)
Definition connect_calls (s : session) : list event :=
  match login s with
  | Some _ => [Login]
  | None => [Login; Connect]
  end.

(** The [finally] block of [run] raises nothing. *)
Definition teardown_quiet (s : session) : Prop :=
  cancellation_errors s /\ write s = None.

(** The calls of the [except Exception] clause of [run], up to
    [client.close()]. *)
Definition fault_calls : list event :=
  [Log EXCEPTION "Uncaught exception during bot execution";
   Log DEBUG "Waiting for client to close..."; Close].

(** The calls of the [except KeyboardInterrupt] clause of [run], up to
    [client.close()]. *)
Definition interrupt_calls : list event :=
  [Log INFO "Interrupted by user";
   Log DEBUG "Waiting for client to close..."; Close].

(** The exception that leaves the [finally] block of [run], if any: what
    the await of the cancelled tasks or [gathered.exception()] raises when
    it is not an [Exception], and else what [state.write] raises. *)
Definition teardown_raises (s : session) : option exn :=
  match cancelled_await s with
  | Some e => if is_Exception e then write s else Some e
  | None =>
      match gathered_exception s with
      | Some e => if is_Exception e then write s else Some e
      | None => write s
      end
  end.

(** The calls of the [finally] block after the await of the cancelled
    tasks: [gathered.exception()] when the await returned, and
    [state.write()] unless something other than an [Exception] was
    raised. *)
Definition teardown_rest (s : session) : list event :=
  match cancelled_await s with
  | Some e => if is_Exception e then [StateWrite] else []
  | None =>
      GatheredException (pending s) ::
      match gathered_exception s with
      | Some e => if is_Exception e then [StateWrite] else []
      | None => [StateWrite]
      end
  end.

(** A call of the teardown: of the [finally] block of [run], its log
    message apart. *)
Definition teardown_event (ev : event) : Prop :=
  match ev with
  | AllTasks | Gather _ | Cancel _ | RunUntilComplete _ | GatheredException _
  | StateWrite => True
  | _ => False
  end.

(** The log message after [client.close()], which is reached when the
    call returns. *)
Definition closed_log (s : session) : list event :=
  match close s with
  | None => [Log INFO "Client closed."]
  | Some _ => []
  end.

(** How an [except] clause of [run] ends that would end as [o]: as
    [client.close()] raises, if it does. *)
Definition after_close (s : session) (o : outcome unit) : outcome unit :=
  match close s with
  | None => o
  | Some e => Raised e
  end.

(** How [run] ends when its [try] statement with the [except] clauses
    ends as [o]: as the [finally] block raises, if it does. *)
Definition after_teardown (s : session) (o : outcome unit) : outcome unit :=
  match teardown_raises s with
  | None => o
  | Some e => Raised e
  end.

(** *** Sample sessions *)

(** A session with two extensions and two outstanding tasks, in which
    [connect] answers [r]; awaiting the cancelled tasks raises
    [CancelledError]. *)
Definition session_with (r : option exn) : session :=
  {| startup := None;
     extensions := [("projects", None); ("badges", None)];
     login := None; connect := r; close := None;
     pending := [1%nat; 2%nat];
     cancelled_await := Some (OtherException "CancelledError");
     gathered_exception := None;
     write := None |}.

(** An iteration of the loop around [session_with r], with no reset fired,
    the draw 500 and an undisturbed sleep. *)
Definition iteration_with (r : option exn) : iteration :=
  {| sess := session_with r; timer_fires := false; draw := 500; sleep := None |}.

(** *** Further notions for the properties of the loop *)

(** The invariant of the back-off: the attempts made lie between 0 and
    the maximum. *)
Definition backoff_inv (b : Backoff) : Prop := 0 <= n b <= max b.

(** A method call on a back-off: [next], with the draw of its jitter, or
    [reset]. *)
Inductive backoff_call : Type :=
| CallNext (r : Z)
| CallReset.

Section Calls.
Context `{FloatPow}.

(** The object after a call; a [next] that raises leaves it as it is. *)
Definition do_call (c : backoff_call) (b : Backoff) : Backoff :=
  match c with
  | CallNext r => (next r b).2
  | CallReset => reset b
  end.

Definition do_calls (cs : list backoff_call) (b : Backoff) : Backoff :=
  fold_left (fun b c => do_call c b) cs b.

(** Every power the back-off can ask for is in the range of the floats. *)
Definition powers_in_range (b : Backoff) : Prop :=
  forall i : Z, 0 <= i < max b -> exists p : float, float_pow (base b) i = Pow p.

End Calls.

(** Every run of [c] only adds events to the log, all of them in [P]. *)
Definition emits {A} (P : event -> Prop) (c : M world A) : Prop :=
  forall w : world, exists evs : list event, (c w).2 = w ++ evs /\ Forall P evs.

(** The events of a session: all but those only the reboot loop makes. *)
Definition session_event (ev : event) : Prop :=
  match ev with
  | CallLater _ _ | CancelTimer | Sleep _ | LoopClose => False
  | _ => True
  end.

(** The durations of the sleeps in a log, oldest first. *)
Definition sleeps (w : world) : list float :=
  flat_map (fun ev => match ev with Sleep t => [t] | _ => [] end) w.

(** The number of calls of [client.close] in a log. *)
Definition closes (w : world) : nat :=
  length (List.filter (fun ev => match ev with Close => true | _ => false end) w).

(** The session of an iteration returns to the loop. *)
Definition returns (it : iteration) : Prop :=
  forall w : world, (run (sess it) w).1 = Normal tt.

(** A failed session after which the loop retries undisturbed: the
    session returns to the loop, before the scheduled reset fires, and
    the sleep is not interrupted. *)
Definition plain_failure (it : iteration) : Prop :=
  returns it /\ timer_fires it = false /\ sleep it = None.

(** The back-off object when [next] is called in an iteration: reset if
    the scheduled action fired during the session. *)
Definition after_session (it : iteration) (bo : Backoff) : Backoff :=
  if timer_fires it then reset_backoff bo (n bo) else bo.

(** The calls of the loop after a session that returned, up to the sleep
    of [tn] seconds. *)
Definition retry_calls (tn : float) : list event :=
  [Log ERROR "Bot halted unexpectedly."; CancelTimer;
   Log INFO "Restarting bot in {:.1f} seconds..."; Sleep tn].

(** An exception of the [try] body that one of the [except] clauses of
    [run] takes. *)
Definition caught_by_run (e : exn) : bool :=
  match e with
  | KeyboardInterrupt => true
  | _ => is_Exception e
  end.

(** How [run_reboot_loop] ends when [e] leaves its [while] loop. *)
Definition loop_exit (e : exn) : outcome unit :=
  match e with
  | StopIteration _ => Raised (SystemExit ErrorCodes.RETRY_MAX_ATTEMPTS)
  | KeyboardInterrupt => Normal tt
  | _ => Raised e
  end.

(** The calls of [run] for the extensions [exts], all of which load. *)
Definition extension_calls (exts : list (string * option exn)) : list event :=
  flat_map (fun x => [Log DEBUG "Loading extension: {}";
                      LoadExtension ("kaztron.cog." ++ x.1)]) exts.

End Runner.

(** ** cog/projects/wizard.py *)

Module Wizard.

Definition nl : string := String (Ascii.ascii_of_nat 10) EmptyString.

Definition keys : list string := ["title"; "genre"; "subgenre"; "type"; "pitch"].
Definition keys_optional : list string := ["subgenre"].

Definition start_msg : string :=
  "**New Project Wizard**" ++ nl ++ nl ++
  "Let the server know what projects you're working on! Other members on the " ++
  "server can look up any of your registered projects. To cancel this wizard, " ++
  "type `.project cancel`.".

(** [start_edit_msg_fmt.format(proj)], which reads [proj.title] only. *)
Definition start_edit_msg_fmt (proj_title : string) : string :=
  "**Edit Project Wizard**" ++ nl ++ nl ++
  "You are editing your current project, " ++ proj_title ++
  ". If you don't want to " ++
  "change a previous value, type `None` for that question. To cancel this " ++
  "wizard, type `.project cancel`.".

Definition end_msg : string :=
  "Your project is set up! Other members can now look it up and find out what" ++
  "you're up to!" ++ nl ++ nl ++
  "If you'd like to re-run this wizard to make changes to your " ++
  "project, use `.project wizard`. You can also edit fields or add additional " ++
  "info using the `.project set` series of commands. Do `.help projects set` " ++
  "for more information.".

(** The collaborators behind the questions and the validators: the
    database queries of [query.py] and the validators [len_validator],
    [q.get_genre], [q.get_project_type] and [pitch_validator], whose
    constants and helpers are outside these sources. [validators k raw] is
    the validated value, or the [ValueError] the validator raises. *)
Record backend : Type := mkBackend {
  query_genres : list string;          (* names of q.query_genres() *)
  query_project_types : list string;   (* names of q.query_project_types() *)
  validators : string -> string -> outcome string
}.

(** The dict [questions]; the two computed prompts are evaluated when the
    question is asked. *)
Definition questions (b : backend) (k : string) : option string :=
  if decide (k = "title") then Some "What is your project's title?"
  else if decide (k = "genre") then
    Some ("What genre is your project? Available genres: " ++
          String.concat ", " (query_genres b) ++
          ". (You can specify a more specific sub-genre later.)")%string
  else if decide (k = "subgenre") then
    Some ("What specific sub-genre is your project? Type `none` if you don't want to add " ++
          "a sub-genre.")%string
  else if decide (k = "type") then
    Some ("What kind of project? Available types: " ++
          String.concat ", " (query_project_types b) ++ ".")%string
  else if decide (k = "pitch") then
    Some "Give an elevator pitch (about 50 words) for your project!"
  else None.

(** *** The wizard class *)

(** Modelled from the spec: the class [make_wizard] returns
    ([kaztron/utils/wizard.py] is not among the sources). The record has the
    fields of section 3 of the specification; [opts] is the set of optional
    keys, which [create_edit_wizard] overwrites. *)
Record ProjectWizard : Type := mkWizard {
  owner_id : string;
  created_at : Z;
  opts : list string;
  current_index : nat;
  answers : gmap string string;
  raw_answers : gmap string string
}.

Definition question_keys : list string := keys.

(** Modelled from the spec: [ProjectWizard(member.id, timestamp)], a wizard
    at its first question with nothing answered. *)
Definition new_wizard (uid : string) (timestamp : Z) : ProjectWizard :=
  {| owner_id := uid; created_at := timestamp; opts := keys_optional;
     current_index := 0; answers := ∅; raw_answers := ∅ |}.

(** Modelled from the spec: [is_done], true when all keys are consumed. *)
Definition is_done (w : ProjectWizard) : bool :=
  bool_decide (current_index w = length question_keys).

(** Modelled from the spec: the [question] property, the prompt of the
    current key; it fails when [current_index] is out of range. *)
Definition question (b : backend) (w : ProjectWizard) : outcome string :=
  match question_keys !! current_index w with
  | Some k =>
      match questions b k with
      | Some q => Normal q
      | None => Raised (KeyError k)
      end
  | None => Raised (OtherException "WizardDone")
  end.

Definition lower_ascii (c : Ascii.ascii) : Ascii.ascii :=
  let k := Ascii.nat_of_ascii c in
  if (65 <=? k)%nat && (k <=? 90)%nat then Ascii.ascii_of_nat (k + 32) else c.

Fixpoint lower (s : string) : string :=
  match s with
  | EmptyString => EmptyString
  | String c s' => String (lower_ascii c) (lower s')
  end.

Definition skip_token : string := "none".

Definition advance (w : ProjectWizard) : ProjectWizard :=
  {| owner_id := owner_id w; created_at := created_at w; opts := opts w;
     current_index := S (current_index w);
     answers := answers w; raw_answers := raw_answers w |}.

Definition store (k raw v : string) (w : ProjectWizard) : ProjectWizard :=
  {| owner_id := owner_id w; created_at := created_at w; opts := opts w;
     current_index := current_index w;
     answers := <[k := v]> (answers w); raw_answers := <[k := raw]> (raw_answers w) |}.

(** Modelled from the spec: [answer(raw_text)]. An optional key answered
    with the skip token advances without storing; otherwise the validator
    runs, its failure leaves the wizard as it is, its success stores the raw
    and the validated value and advances. The result is the wizard object
    after the call. *)
Definition answer (b : backend) (raw : string) (w : ProjectWizard)
  : outcome ProjectWizard :=
  match question_keys !! current_index w with
  | None => Raised (OtherException "WizardDone")
  | Some k =>
      if bool_decide (k ∈ opts w) && bool_decide (lower raw = skip_token) then
        Normal (advance w)
      else
        match validators b k raw with
        | Normal v => Normal (advance (store k raw v w))
        | Raised e => Raised e
        | Running => Running
        end
  end.

(** *** class WizardManager *)

(** A value of a user-wizard map: a wizard object, or Python's [None]. *)
Inductive slot : Type :=
| PyNone
| Wiz (w : ProjectWizard).

(** [self.wizards]: the dict with the keys ['new'] and ['edit']. *)
Record WizardManager : Type := mkManager {
  new : gmap string slot;
  edit : gmap string slot
}.

(** [WizardManager.__init__]. *)
Definition init : WizardManager := {| new := ∅; edit := ∅ |}.

Definition wizards_keys : list string := ["new"; "edit"].

(** [self.wizards[name]]. *)
Definition wizards (self : WizardManager) (name : string) : gmap string slot :=
  if decide (name = "new") then new self
  else if decide (name = "edit") then edit self
  else ∅.

(** [self.wizards.values()] and [self.wizards.items()]. *)
Definition values (self : WizardManager) : list (gmap string slot) :=
  wizards self <$> wizards_keys.
Definition items (self : WizardManager) : list (string * gmap string slot) :=
  (fun name => (name, wizards self name)) <$> wizards_keys.

(** [self.wizards[name][uid] = v]. *)
Definition set_wizard (name uid : string) (v : slot) (self : WizardManager)
  : WizardManager :=
  if decide (name = "new") then {| new := <[uid := v]> (new self); edit := edit self |}
  else if decide (name = "edit") then {| new := new self; edit := <[uid := v]> (edit self) |}
  else self.

(** [del self.wizards[name][uid]], for a key that is present. *)
Definition del_wizard (name uid : string) (self : WizardManager) : WizardManager :=
  if decide (name = "new") then {| new := delete uid (new self); edit := edit self |}
  else if decide (name = "edit") then {| new := new self; edit := delete uid (edit self) |}
  else self.

(** The state of the monad: the manager object, the messages the bot has
    delivered (oldest first), the answers of the coming [send_message]
    calls ([None]: delivered; a used-up list: delivered), and the backend. *)
Record world : Type := mkWorld {
  self : WizardManager;
  sent : list (string * string);
  faults : list (option exn);
  env : backend
}.

Definition modify_self (f : WizardManager -> WizardManager) : M world unit :=
  fun w =>
    (Normal tt,
     {| self := f (self w); sent := sent w; faults := faults w; env := env w |}).

(** The value of an expression that may raise. *)
Definition eval {A} (f : world -> outcome A) : M world A := fun w => (f w, w).

(** An [async def] called: the coroutine object, whose body has not run. *)
Inductive coroutine (A : Type) : Type :=
| Coroutine (body : M world A).
Arguments Coroutine {A} body.

(** [await c] runs the body. *)
Definition await {A} (c : coroutine A) : M world A :=
  match c with Coroutine body => body end.

(** An expression statement, whose value is dropped. For a call of an
    [async def] the value is the coroutine object: its body does not run. *)
Definition expr_stmt {A} (c : coroutine A) : M world unit := ret tt.

(** [self.bot.send_message(target, content)]. *)
Definition send_message (target content : string) : coroutine unit :=
  Coroutine (fun w =>
    match faults w with
    | Some e :: fs =>
        (Raised e, {| self := self w; sent := sent w; faults := fs; env := env w |})
    | None :: fs =>
        (Normal tt, {| self := self w; sent := sent w ++ [(target, content)];
                       faults := fs; env := env w |})
    | [] =>
        (Normal tt, {| self := self w; sent := sent w ++ [(target, content)];
                       faults := []; env := env w |})
    end).

(** [has_open_wizard]. *)
Definition has_open_wizard (self : WizardManager) (member : string) : bool :=
  existsb (fun w => bool_decide (is_Some (w !! member))) (values self).

(** The [for] loop of [get_wizard_for], with its [else] clause. *)
Fixpoint get_wizard_for_loop (its : list (string * gmap string slot)) (member : string)
  : outcome (string * ProjectWizard) :=
  match its with
  | [] => Raised (KeyError "Member {} does not have an active wizard")
  | (name, uw_map) :: rest =>
      match uw_map !! member with
      | Some (Wiz w) => Normal (name, w)
      | Some PyNone => get_wizard_for_loop rest member   (* raise KeyError; continue *)
      | None => get_wizard_for_loop rest member          (* KeyError of the lookup; continue *)
      end
  end.

Definition get_wizard_for (self : WizardManager) (member : string)
  : outcome (string * ProjectWizard) :=
  get_wizard_for_loop (items self) member.

Definition send_question (member : string) : coroutine unit :=
  Coroutine
    (r <- eval (fun w => get_wizard_for (self w) member) ;;
     q <- eval (fun w => question (env w) r.2) ;;
     await (send_message member q))%py.

(** The message [cancel_wizards] sends for a wizard of kind [name]. *)
Definition cancel_msg (name : string) : string :=
  if decide (name = "new") then "New project has been cancelled."
  else if decide (name = "edit") then "Editing your project has been cancelled."
  else "Wizard has been cancelled (generic msg).".

(** The [for] loop of [cancel_wizards]. *)
Fixpoint cancel_wizards_loop (names : list string) (member : string) : M world unit :=
  match names with
  | [] => ret tt
  | name :: rest =>
      ((fun w =>
          match wizards (self w) name !! member with
          | None => ret tt w                       (* KeyError: pass *)
          | Some _ =>
              (modify_self (del_wizard name member) ;;;
               await (send_message member (cancel_msg name))) w
          end) ;;;
       cancel_wizards_loop rest member)%py
  end.

Definition cancel_wizards (member : string) : coroutine unit :=
  Coroutine (cancel_wizards_loop wizards_keys member).

Definition create_new_wizard (member : string) (timestamp : Z) : coroutine unit :=
  Coroutine (fun w =>
    if has_open_wizard (self w) member then
      raise (CommandError "You already have an ongoing wizard!") w
    else
      (modify_self (set_wizard "new" member (Wiz (new_wizard member timestamp))) ;;;
       try_except
         (await (send_message member start_msg) ;;;
          await (send_question member))
         (fun e =>
            if is_Exception e then
              Some (expr_stmt (cancel_wizards member) ;;; raise e)
            else None))%py w).

Definition create_edit_wizard (member : string) (timestamp : Z) (proj_title : string)
  : coroutine unit :=
  Coroutine (fun w =>
    if has_open_wizard (self w) member then
      raise (CommandError "You already have an ongoing wizard!") w
    else
      (let w0 := new_wizard member timestamp in
       let w0 := {| owner_id := owner_id w0; created_at := created_at w0;
                    opts := question_keys; current_index := current_index w0;
                    answers := answers w0; raw_answers := raw_answers w0 |} in
       modify_self (set_wizard "edit" member (Wiz w0)) ;;;
       try_except
         (await (send_message member (start_edit_msg_fmt proj_title)) ;;;
          await (send_question member))
         (fun e =>
            if is_Exception e then
              Some (expr_stmt (cancel_wizards member) ;;; raise e)
            else None))%py w).

(** [process_answer(message)], for [message.author.id] and
    [message.content]. [wizard.answer] changes the wizard object, which the
    map of its kind holds. *)
Definition process_answer (author content : string) : M world unit :=
  (r <- eval (fun w => get_wizard_for (self w) author) ;;
   let '(wiz_name, wizard) := r in
   wizard' <- eval (fun w => answer (env w) content wizard) ;;
   modify_self (set_wizard wiz_name author (Wiz wizard')))%py.

Definition close_wizard (member : string) : coroutine (string * ProjectWizard) :=
  Coroutine
    (r <- eval (fun w => get_wizard_for (self w) member) ;;
     let '(wiz_name, wizard) := r in
     if is_done wizard then
       (modify_self (del_wizard wiz_name member) ;;;
        await (send_message member end_msg) ;;;
        ret (wiz_name, wizard))
     else
       raise (KeyError "Wizard for user {} not completed yet"))%py.

(** *** The invariant of the data model *)

(** The user id [u] is a key of the user-wizard map of kind [name]. *)
Definition present (self : WizardManager) (name u : string) : Prop :=
  is_Some (wizards self name !! u).

(** A user id is a key of at most one of the two maps. *)
Definition at_most_one (self : WizardManager) : Prop :=
  forall u : string, ~ (present self "new" u /\ present self "edit" u).

(** The keys of [st'] are keys of [st], map by map. *)
Definition shrinks (st st' : WizardManager) : Prop :=
  forall name u : string, present st' name u -> present st name u.

(** Every run of [c] takes the manager object to one related by [R]. *)
Definition self_rel {A} (R : WizardManager -> WizardManager -> Prop) (c : M world A)
  : Prop :=
  forall w : world, R (self w) (self (c w).2).

(** The next [k] calls of [send_message] deliver their message. *)
Definition delivers (k : nat) (w : world) : Prop :=
  Forall (fun r : option exn => r = None) (take k (faults w)).

(** The notices [cancel_wizards] sends for a user, one per map that holds
    the user's id. *)
Definition cancel_notices (st : WizardManager) (member : string)
  : list (string * string) :=
  (match new st !! member with
   | Some _ => [(member, cancel_msg "new")]
   | None => []
   end) ++
  (match edit st !! member with
   | Some _ => [(member, cancel_msg "edit")]
   | None => []
   end).

(** *** Sample data *)

Definition sample_backend : backend :=
  {| query_genres := ["Fantasy"; "Sci-Fi"];
     query_project_types := ["Novel"];
     validators := fun k raw =>
       if bool_decide (raw = "") then Raised (ValueError "empty") else Normal raw |}.

(** A wizard that has consumed all its keys. *)
Definition done_wizard (uid : string) : ProjectWizard :=
  {| owner_id := uid; created_at := 0; opts := keys_optional;
     current_index := 5; answers := ∅; raw_answers := ∅ |}.

(** A world with the manager [st], nothing sent yet and the coming answers
    [fs] of [send_message]. *)
Definition world_of (st : WizardManager) (fs : list (option exn)) : world :=
  {| self := st; sent := []; faults := fs; env := sample_backend |}.

(** The wizard [create_edit_wizard] stores: a fresh wizard whose optional
    keys are all the keys. *)
Definition edit_wizard (uid : string) (timestamp : Z) : ProjectWizard :=
  {| owner_id := uid; created_at := timestamp; opts := question_keys;
     current_index := 0; answers := ∅; raw_answers := ∅ |}.

End Wizard.

(** ** cog/projects/wizard.py: saving and loading the manager *)

Module WizardStore.
Import Wizard.

Section Store.
(** The dict a wizard is saved as, with [wiz.to_dict()] and
    [ProjectWizard.from_dict(d)]: methods of the class [make_wizard]
    returns, outside these sources, taken as they come. [from_dict]
    returns the wizard or raises. *)
Context {D : Type}.
Variable wizard_to_dict : ProjectWizard -> D.
Variable wizard_from_dict : D -> outcome ProjectWizard.

(** The dict [from_dict] reads and [to_dict] builds: under each of the
    keys ['new'] and ['edit'], if present, the items of a dict from user
    id to saved wizard, in the order of iteration. *)
Record saved : Type := mkSaved {
  saved_new : option (list (string * D));
  saved_edit : option (list (string * D))
}.

(** [w.opts = ProjectWizard.question_keys]. *)
Definition set_opts (wz : ProjectWizard) : ProjectWizard :=
  {| owner_id := owner_id wz; created_at := created_at wz; opts := question_keys;
     current_index := current_index wz; answers := answers wz;
     raw_answers := raw_answers wz |}.

(** One of the two loops of [from_dict], filling the map [m]; [post] is
    what is done to a wizard after it is stored. *)
Fixpoint load_items (post : ProjectWizard -> ProjectWizard)
    (its : list (string * D)) (m : gmap string slot) : outcome (gmap string slot) :=
  match its with
  | [] => Normal m
  | (uid, d) :: rest =>
      match wizard_from_dict d with
      | Normal wz => load_items post rest (<[uid := Wiz (post wz)]> m)
      | Raised (ValueError _) => load_items post rest m    (* except ValueError: pass *)
      | Raised e => Raised e
      | Running => Running
      end
  end.

(** [WizardManager.from_dict]. The attribute [edit_wizards] it also sets
    is read nowhere. *)
Definition from_dict (data : saved) : outcome WizardManager :=
  match load_items (fun wz => wz) (default [] (saved_new data)) ∅ with
  | Normal nw =>
      match load_items set_opts (default [] (saved_edit data)) ∅ with
      | Normal ed => Normal {| new := nw; edit := ed |}
      | Raised e => Raised e
      | Running => Running
      end
  | Raised e => Raised e
  | Running => Running
  end.

(** The dict comprehension of [to_dict] over the items of one map;
    [None.to_dict()] raises [AttributeError]. *)
Fixpoint dump_items (its : list (string * slot)) : outcome (list (string * D)) :=
  match its with
  | [] => Normal []
  | (uid, Wiz wz) :: rest =>
      match dump_items rest with
      | Normal l => Normal ((uid, wizard_to_dict wz) :: l)
      | r => r
      end
  | (uid, PyNone) :: _ => Raised (OtherException "AttributeError")
  end.

(** [WizardManager.to_dict]. The maps of the model keep no order of
    insertion: the items come in the order of the model's maps. *)
Definition to_dict (self : WizardManager) : outcome saved :=
  match dump_items (map_to_list (new self)) with
  | Normal dn =>
      match dump_items (map_to_list (edit self)) with
      | Normal de => Normal {| saved_new := Some dn; saved_edit := Some de |}
      | Raised e => Raised e
      | Running => Running
      end
  | Raised e => Raised e
  | Running => Running
  end.

(** Every saved wizard of [its] restores, or is refused with a
    [ValueError]. *)
Definition restorable (its : list (string * D)) : Prop :=
  Forall (fun x => match wizard_from_dict x.2 with
                   | Normal _ | Raised (ValueError _) => True
                   | _ => False
                   end) its.

(** What loading [its] makes of the user id [uid]: the restored wizard,
    if [its] has an item for [uid] that restores. *)
Definition restore (post : ProjectWizard -> ProjectWizard)
    (its : list (string * D)) (uid : string) : option slot :=
  match (list_to_map its : gmap string D) !! uid with
  | Some d =>
      match wizard_from_dict d with
      | Normal wz => Some (Wiz (post wz))
      | _ => None
      end
  | None => None
  end.

(** The items [dump_items] builds when no entry is [None]. *)
Definition dumped_of (its : list (string * slot)) : list (string * D) :=
  omap (fun x => match x.2 with
                 | Wiz wz => Some (x.1, wizard_to_dict wz)
                 | PyNone => None
                 end) its.
End Store.

(** *** Sample data *)

(** A wizard saved as itself; a saved wizard whose index is beyond the
    keys is refused. *)
Definition sample_from_dict (d : ProjectWizard) : outcome ProjectWizard :=
  if bool_decide (current_index d <= length question_keys)%nat then Normal d
  else Raised (ValueError "stale").

End WizardStore.

(** ** runner.py: get_daemon_context *)

Module Daemon.





(** The state: [os.environ['HOME']], and the files opened with the mode
    ['w+'], which creates them or empties them. *)
Record os_state : Type := mkOs {
  home : option string;
  emptied : list string
}.


(** The answer of a collaborator that returns a value or raises. *)
Definition answer {A} (r : outcome A) : M os_state A := fun st => (r, st).






End Daemon.

(** ** cog/blots/badges.py *)

(** The message handlers of [BadgeManager], [add_badge], the command
    [load] and [_parse_badge_reason]. A Python [str] is the list of its
    code points. The calls to the controller and to the bot are recorded
    as events, and each of them returns or raises as the state of the
    model says; calls to the logger are left out. What is read from a
    message or from the cog (the command prefix, the patterns of the badge
    types, the moderator check) is a value. *)
Module Badges.

Local Open Scope N_scope.

Definition pystr : Type := list N.

(** A literal, given by its characters. *)
Definition py (s : string) : pystr :=
  (fun a => Ascii.N_of_ascii a) <$> String.list_ascii_of_string s.

(** The code points [c] for which [chr(c).isspace()] holds. *)
Definition whitespace : list N :=
  [9; 10; 11; 12; 13; 28; 29; 30; 31; 32; 133; 160; 5760;
   8192; 8193; 8194; 8195; 8196; 8197; 8198; 8199; 8200; 8201; 8202;
   8232; 8233; 8239; 8287; 12288].

Definition isspace (c : N) : bool := bool_decide (c ∈ whitespace).

(** Membership in the argument of [strip(chars)]. *)
Definition in_chars (chars : pystr) (c : N) : bool := bool_decide (c ∈ chars).

(** [str.lstrip], [str.rstrip] and [str.strip], for the characters [p]
    holds of. *)
Fixpoint lstrip (p : N -> bool) (s : pystr) : pystr :=
  match s with
  | c :: s' => if p c then lstrip p s' else s
  | [] => []
  end.
Definition rstrip (p : N -> bool) (s : pystr) : pystr :=
  reverse (lstrip p (reverse s)).
Definition strip (p : N -> bool) (s : pystr) : pystr := rstrip p (lstrip p s).

(** [s.startswith(prefix)]. *)
Definition startswith (s prefix : pystr) : bool :=
  bool_decide (take (length prefix) s = prefix).

(** [s.split(sep)] for a separator of one character. *)
Fixpoint split_on (sep : N) (s : pystr) : list pystr :=
  match s with
  | [] => [[]]
  | c :: s' =>
      if c =? sep then [] :: split_on sep s'
      else match split_on sep s' with
           | l :: ls => (c :: l) :: ls
           | [] => [[c]]
           end
  end.

(** [sep.join(lines)]. *)
Fixpoint join (sep : N) (lines : list pystr) : pystr :=
  match lines with
  | [] => []
  | [l] => l
  | l :: ls => l ++ sep :: join sep ls
  end.

(** [field, value = s.split(sep, maxsplit=1)]: [None] when [s] has no
    [sep], and the unpacking raises [ValueError]. *)
Fixpoint split_once (sep : N) (s : pystr) : option (pystr * pystr) :=
  match s with
  | [] => None
  | c :: s' =>
      if c =? sep then Some ([], s')
      else match split_once sep s' with
           | Some (field, value) => Some (c :: field, value)
           | None => None
           end
  end.

(** [str.lower] on the code points whose lower case is an ASCII letter:
    the letters A to Z and the Kelvin sign. The lower case of every other
    code point is not ASCII, and the model leaves those code points as
    they are; whether the result equals an ASCII string is the same. *)
Definition lower_cp (c : N) : N :=
  if (65 <=? c) && (c <=? 90) then c + 32
  else if c =? 8490 then 107
  else c.
Definition lower (s : pystr) : pystr := lower_cp <$> s.

(** A member, as far as it is read: its id and its mention. *)
Record member : Type := mkMember {
  mid : string;
  mention : string
}.

Record message : Type := mkMessage {
  msg_id : string;
  content : pystr;
  mentions : list member;
  author : member;
  channel : string;
  timestamp : Z
}.

(** The arguments of [save_badge]; a row of the table of badges is given
    by the same data. *)
Record badge_args : Type := mkBadge {
  message_id : string;
  to_member : string;       (* member.id *)
  from_member : string;
  badge : string;           (* the name of the member of BadgeType *)
  reason : pystr;
  badge_timestamp : Z
}.

(** The cog and its collaborators: whether the cog is ready, and what a
    handler called before that does (the decorator [ready_only] of
    kaztron/kazcog.py is not among the sources: it returns or raises); the
    badge channel, the bot user, the command prefix, the members of
    [model.BadgeType] in their order with the [search] and [sub] of their
    patterns, the moderator check, the controller, which answers with a
    row or with [None] when it does not raise, the members of the server
    and the emoji shown for a badge. *)
Record cog : Type := mkCog {
  is_ready : bool;
  when_not_ready : option exn;
  self_channel : string;
  bot_user_id : string;
  get_command_prefix : message -> pystr;
  badge_types : list string;
  pattern_search : string -> pystr -> bool;
  pattern_sub : string -> pystr -> pystr;      (* pattern.sub('', text) *)
  check_mod : message -> bool;
  save_badge : badge_args -> option badge_args;
  delete_badge : string -> option badge_args;
  get_member : string -> option member;        (* self.server.get_member *)
  get_badge : string -> string                 (* self._get_badge *)
}.

(** An argument of [str.format]; the text is not put together. *)
Inductive arg : Type :=
| AStr (s : string)
| AInt (k : Z).

Inductive bevent : Type :=
| SendMessage (dest : string) (fmt : string) (args : list arg)  (* bot.send_message *)
| Say (fmt : string) (args : list arg)                          (* bot.say *)
| SaveBadge (a : badge_args)                                    (* self.c.save_badge *)
| DeleteBadge (mid : string).                                   (* self.c.delete_badge *)

(** The state of the monad: the calls made so far, oldest first, and
    what the coming calls do ([None]: the call returns, [Some e]: it
    raises [e]; a used-up list: it returns). *)
Record world : Type := mkWorld {
  log : list bevent;
  answers : list (option exn)
}.

(** What the next call does. *)
Definition next_answer (w : world) : option exn :=
  match answers w with
  | r :: _ => r
  | [] => None
  end.

(** The state after the call [ev]. *)
Definition called (ev : bevent) (w : world) : world :=
  {| log := log w ++ [ev]; answers := tail (answers w) |}.

(** How a call ends that returns [a] unless it raises. *)
Definition after_call {A} (w : world) (a : A) : outcome A :=
  match next_answer w with
  | Some e => Raised e
  | None => Normal a
  end.

(** A call to the bot or to the controller: it is recorded, and returns
    or raises. *)
Definition call (ev : bevent) : M world unit :=
  fun w => (after_call w tt, called ev w).

(** [model.BadgeType.Guild]. *)
Definition Guild : string := "Guild".

(** The test at the start of [add_badge]: the message looks like a
    command. When the stripped message starts with the prefix and is
    longer, the character after the prefix exists. *)
Definition looks_like_command (prefix text : pystr) : bool :=
  let msg_init := strip isspace text in
  startswith msg_init prefix &&
  (bool_decide (length msg_init = length prefix) ||
   negb (match msg_init !! length prefix with
         | Some c => isspace c
         | None => false
         end)).

(** [field.strip(' \n\r\t*_').lower() == 'for']. *)
Definition for_field (field : pystr) : bool :=
  bool_decide (lower (strip (in_chars [32; 10; 13; 9; 42; 95]) field) = py "for").

(** The reason taken from the value of a [For:] line:
    [value.lstrip('*_').strip()], from which the pattern of every badge
    type is removed in turn. *)
Definition clean_reason (c : cog) (value : pystr) : pystr :=
  foldl (fun reason b => pattern_sub c b reason)
        (strip isspace (lstrip (in_chars [42; 95]) value))
        (badge_types c).

(** The [for] loop of [_parse_badge_reason]. *)
Fixpoint parse_lines (c : cog) (lines : list pystr) : option pystr :=
  match lines with
  | [] => None
  | line :: rest =>
      match split_once 58 line with
      | Some (field, value) =>
          if for_field field then Some (clean_reason c value)
          else parse_lines c rest
      | None => parse_lines c rest          (* ValueError: continue *)
      end
  end.

Definition _parse_badge_reason (c : cog) (text : pystr) : option pystr :=
  parse_lines c (split_on 10 text).

(** The error reply of [add_badge], unless errors are suppressed. *)
Definition reply_error (c : cog) (suppress_errors : bool) (fmt : string)
    (args : list arg) : M world (option badge_args) :=
  ((if suppress_errors then ret tt else call (SendMessage (self_channel c) fmt args)) ;;;
   ret None)%py.

(** [m == message.author] for a member [m]: members are equal when their
    ids are. *)
Definition same_member (m1 m2 : member) : bool := bool_decide (mid m1 = mid m2).

Definition add_badge (c : cog) (message : message) (suppress_errors : bool)
  : M world (option badge_args) :=
  if looks_like_command (get_command_prefix c message) (content message) then ret None
  else
    let badges := List.filter (fun b => pattern_search c b (content message))
                              (badge_types c) in
    let reason := _parse_badge_reason c (content message) in
    match mentions message with
    | [to] =>
        if same_member to (author message) then
          reply_error c suppress_errors "**Error**: You can't give yourself a badge!" []
        else
          match badges with
          | [b] =>
              if bool_decide (Guild ∈ badges) && negb (check_mod c message) then
                reply_error c suppress_errors
                  "{} **Error**: Only Overseers can give the Guild badge."
                  [AStr (mention (author message))]
              else
                match reason with
                | None =>
                    reply_error c suppress_errors
                      ("{} **Error**: Can't find the badge reason. Make sure the badge reason " ++
                       "has the text `**For:**` at the beginning of the line.")
                      [AStr (mention (author message))]
                | Some r =>
                    let a := {| message_id := msg_id message; to_member := mid to;
                                from_member := mid (author message); badge := b;
                                reason := r;
                                badge_timestamp := timestamp message |} in
                    (call (SaveBadge a) ;;; ret (save_badge c a))%py
                end
          | _ =>
              reply_error c suppress_errors
                "{} **Error**: You can only give 1 badge at a time (found {:d})."
                [AStr (mention (author message)); AInt (Z.of_nat (length badges))]
          end
    | _ =>
        reply_error c suppress_errors "**Error**: Badges must mention exactly 1 user." []
    end.

(** The decorator [ready_only]: the handler runs when the cog is ready. *)
Definition ready_only (c : cog) (handler : M world unit) : M world unit :=
  if is_ready c then handler else answer_of (when_not_ready c).

(** The test at the start of the three handlers. *)
Definition ignored (c : cog) (message : message) : bool :=
  bool_decide (channel message <> self_channel c)
  || bool_decide (mid (author message) = bot_user_id c).

(** The arguments of a notice: the mentions of the author and of the
    member [m], and the emoji of the badge of the row. *)
Definition notice_args (c : cog) (message : message) (m : member) (row : badge_args)
  : list arg :=
  [AStr (mention (author message)); AStr (mention m); AStr (get_badge c (badge row))].

(** The notice the handlers send for a row: the text is formatted first,
    and [{1.mention}] raises [AttributeError] when the server has no
    member for the id of the row, for [get_member] is [None] then. *)
Definition notify (c : cog) (fmt : string) (message : message) (row : badge_args)
  : M world unit :=
  match get_member c (to_member row) with
  | Some m => call (SendMessage (self_channel c) fmt (notice_args c message m row))
  | None => raise (OtherException "AttributeError")
  end.

Definition on_message (c : cog) (message : message) : M world unit :=
  ready_only c
    (if ignored c message then ret tt
     else
       (badge_row <- add_badge c message false ;;
        match badge_row with
        | Some row =>
            notify c "Congratulations, {1.mention}! {0.mention} just gave you the {2} badge!"
              message row
        | None => ret tt
        end)%py).

Definition on_message_edit (c : cog) (before after : message) : M world unit :=
  ready_only c
    (if ignored c before then ret tt
     else
       (badge_row <- add_badge c after false ;;
        match badge_row with
        | Some row =>
            notify c "{0.mention} Your {2} badge to {1.mention} has been updated."
              after row
        | None => ret tt
        end)%py).

Definition on_message_delete (c : cog) (message : message) : M world unit :=
  ready_only c
    (if ignored c message then ret tt
     else
       (call (DeleteBadge (msg_id message)) ;;;
        match delete_badge c (msg_id message) with
        | Some row =>
            notify c "{0.mention} Your {2} badge to {1.mention} has been deleted."
              message row
        | None => ret tt
        end)%py).



(** *** Notions for the properties *)

(** The event is a call of the controller to save a badge. *)
Definition is_save (ev : bevent) : Prop :=
  match ev with SaveBadge _ => True | _ => False end.



(** The message is a well-formed badge: not a command, one member
    mentioned who is not the author, one badge type found, which is not
    [Guild] unless the author is a moderator, and a reason, which makes
    the arguments [a] of the save. *)
Definition well_formed (c : cog) (m : message) (a : badge_args) : Prop :=
  looks_like_command (get_command_prefix c m) (content m) = false /\
  exists (to : member) (b : string) (r : pystr),
    mentions m = [to] /\
    mid to <> mid (author m) /\
    List.filter (fun b => pattern_search c b (content m)) (badge_types c) = [b] /\
    (b = Guild -> check_mod c m = true) /\
    _parse_badge_reason c (content m) = Some r /\
    a = {| message_id := msg_id m; to_member := mid to;
           from_member := mid (author m); badge := b; reason := r;
           badge_timestamp := timestamp m |}.

(** The line is a [For:] line: it has a colon, and what is before the
    first colon, stripped of blanks and emphasis marks, reads "for" in
    any case of letters. *)
Definition for_line (line : pystr) : bool :=
  match split_once 58 line with
  | Some (field, _) => for_field field
  | None => false
  end.

(** *** Sample data *)

Definition alice : member := {| mid := "1"; mention := "<@1>" |}.
Definition bob : member := {| mid := "2"; mention := "<@2>" |}.

(** A cog that is ready, with the prefix ".", two badge types found by
    the presence of the character "G" or "W", no moderators, a controller
    that answers with the row saved, and a server that has [bob]. *)
Definition sample_cog : cog :=
  {| is_ready := true; when_not_ready := Some (OtherException "BotNotReady");
     self_channel := "badges"; bot_user_id := "0";
     get_command_prefix := fun _ => py ".";
     badge_types := ["Guild"; "Writing"];
     pattern_search := fun b text =>
       if decide (b = "Guild") then bool_decide (71 ∈ text)
       else bool_decide (87 ∈ text);
     pattern_sub := fun b text => text;
     check_mod := fun _ => false;
     save_badge := fun a => Some a;
     delete_badge := fun _ => None;
     get_member := fun uid => if decide (uid = "2") then Some bob else None;
     get_badge := fun b => (":" ++ b ++ ":")%string |}.

Definition sample_message : message :=
  {| msg_id := "100"; content := py "To: @bob" ++ [10] ++ py "**For:** W helping out";
     mentions := [bob]; author := alice; channel := "badges"; timestamp := 5 |}.

(** A state with nothing called yet and the coming answers [rs]. *)
Definition world_of (rs : list (option exn)) : world := {| log := []; answers := rs |}.

End Badges.

(** * Properties of runner.py *)

Module RunnerFacts.
Import Runner.

(** ** Backoff *)

(** The jitter of each of the 1001 draws, computed. *)
Lemma jitter_table :
  forallb (fun k : nat =>
             (0 <=? jitter (Z.of_nat k))%float
             && (jitter (Z.of_nat k) <=? 1)%float
             && Bool.eqb (jitter (Z.of_nat k) <? 1)%float (Z.of_nat k <? 1000))
          (seq 0 1001) = true.
Proof. vm_compute. reflexivity. Qed.

Lemma jitter_draw (r : Z) :
  randint_range 0 1000 r ->
  (0 <=? jitter r)%float = true
  /\ (jitter r <=? 1)%float = true
  /\ (jitter r <? 1)%float = (r <? 1000).
Proof.
  intros [H0 H1]. pose proof jitter_table as Ht.
  rewrite forallb_forall in Ht. specialize (Ht (Z.to_nat r)).
  rewrite Z2Nat.id in Ht by exact H0.
  assert (Hin : In (Z.to_nat r) (seq 0 1001)) by (apply in_seq; lia).
  apply Ht in Hin.
  apply andb_prop in Hin as [Hin H3]. apply andb_prop in Hin as [Ha Hb].
  apply Bool.eqb_prop in H3. auto.
Qed.

Section BackoffFacts.
Context `{FloatPow}.

Lemma next_ok (r : Z) (b : Backoff) (p : float) :
  n b < max b ->
  float_pow (base b) (n b) = Pow p ->
  next r b =
    (Normal (t0 b * p + jitter r)%float,
     {| t0 := t0 b; max := max b; base := base b; n := n b + 1 |}).
Proof.
  intros Hlt Hp. unfold next. apply Z.ltb_lt in Hlt. rewrite Hlt, Hp. reflexivity.
Qed.

Lemma next_power_raises (r : Z) (b : Backoff) (cls : string) :
  n b < max b ->
  float_pow (base b) (n b) = PowError cls ->
  next r b = (Raised (OtherException cls), b).
Proof.
  intros Hlt Hp. unfold next. apply Z.ltb_lt in Hlt. rewrite Hlt, Hp. reflexivity.
Qed.

Lemma next_limit (r : Z) (b : Backoff) :
  max b <= n b ->
  next r b = (Raised (StopIteration "Maximum attempts exceeded"), b).
Proof.
  intros Hge. unfold next. apply Z.ltb_ge in Hge. rewrite Hge. reflexivity.
Qed.

Lemma delays_from_ext (b b' : Backoff) (rs : list Z) :
  t0 b' = t0 b -> base b' = base b ->
  forall i : Z, delays_from b' i rs = delays_from b i rs.
Proof.
  intros Ht Hb. induction rs as [|r rs IH]; intros i; cbn [delays_from].
  - reflexivity.
  - rewrite Ht, Hb, IH. reflexivity.
Qed.

(** As long as attempts are left and the powers are in range, every call
    of a run of [next] succeeds. *)
Lemma next_calls_ok (rs : list Z) :
  forall (b : Backoff) (ds : list float),
    n b + Z.of_nat (length rs) <= max b ->
    delays_from b (n b) rs = Some ds ->
    next_calls rs b =
      (ds, None,
       {| t0 := t0 b; max := max b; base := base b;
          n := n b + Z.of_nat (length rs) |}).
Proof.
  induction rs as [|r rs IH]; intros b ds Hlen Hds.
  - injection Hds as <-. simpl. rewrite Z.add_0_r. destruct b; reflexivity.
  - cbn [delays_from] in Hds.
    destruct (float_pow (base b) (n b)) as [p|cls] eqn:Hp; [|discriminate].
    destruct (delays_from b (n b + 1) rs) as [ds'|] eqn:Hds'; [|discriminate].
    injection Hds as <-.
    cbn [length] in Hlen. rewrite Nat2Z.inj_succ in Hlen.
    cbn [next_calls]. rewrite (next_ok r b p) by (lia || exact Hp).
    rewrite (IH _ ds');
      [| cbn [n max]; lia
       | cbn [n]; rewrite (delays_from_ext b) by reflexivity; exact Hds'].
    cbn [t0 max base n length]. rewrite Nat2Z.inj_succ.
    replace (n b + 1 + Z.of_nat (length rs)) with (n b + Z.succ (Z.of_nat (length rs)))
      by lia.
    reflexivity.
Qed.

(** C1, as the code has it: with attempts left, [next] evaluates the power
    [base ** n]; when the power is in the range of the floats, [next]
    returns [t0 * base ** n + jitter] and adds one to [n], where the jitter
    is [r / 1000] for the integer [r] that [random.randint(0, 1000)] draws,
    so it lies in the closed interval from 0 to 1; when the power raises
    ([OverflowError]), so does [next], and the object stays as it is. With
    [n] at (or beyond) [max], [next] raises [StopIteration] and leaves the
    object as it is. Hence, for a non-negative [max] and powers in range,
    after a [reset] exactly [max] calls in a row succeed, with the delays
    [t0 * base ** i + jitter_i], and the call after them raises. *)
Theorem next_spec (b : Backoff) (r : Z) :
  randint_range 0 1000 r ->
  (n b < max b ->
     (forall p : float,
        float_pow (base b) (n b) = Pow p ->
        next r b =
          (Normal (t0 b * p + jitter r)%float,
           {| t0 := t0 b; max := max b; base := base b; n := n b + 1 |}))
     /\ (forall cls : string,
           float_pow (base b) (n b) = PowError cls ->
           next r b = (Raised (OtherException cls), b))
     /\ (0 <=? jitter r)%float = true /\ (jitter r <=? 1)%float = true)
  /\ (max b <= n b ->
        next r b = (Raised (StopIteration "Maximum attempts exceeded"), b))
  /\ (0 <= max b ->
      forall (rs : list Z) (ds : list float),
        Z.of_nat (length rs) = max b ->
        delays_from b 0 rs = Some ds ->
        exists b' : Backoff,
          next_calls rs (reset b) = (ds, None, b')
          /\ n b' = max b
          /\ next r b' = (Raised (StopIteration "Maximum attempts exceeded"), b')).
Proof.
  intros Hr. split; [|split].
  - intros Hlt. split; [|split].
    + intros p Hp. by apply next_ok.
    + intros cls Hp. by apply next_power_raises.
    + destruct (jitter_draw r Hr) as (H0 & H1 & _). by split.
  - intros Hge. by apply next_limit.
  - intros Hmax rs ds Hlen Hds.
    eexists. split; [|split].
    + apply (next_calls_ok rs (reset b) ds); [simpl; lia|].
      cbn [reset n]. rewrite (delays_from_ext b) by reflexivity. exact Hds.
    + simpl. lia.
    + apply next_limit. simpl. lia.
Qed.

End BackoffFacts.

Section BackoffSamples.
#[local] Existing Instance product_pow.

Lemma next_spec_witness :
  randint_range 0 1000 250 /\
  next 250 (init 3 1.58 2) =
    (Normal (3 * 1 + jitter 250)%float,
     {| t0 := 3; max := 2; base := 1.58; n := 0 + 1 |}) /\
  next 250 {| t0 := 3; max := 2; base := 1.58; n := 2 |} =
    (Raised (StopIteration "Maximum attempts exceeded"),
     {| t0 := 3; max := 2; base := 1.58; n := 2 |}) /\
  exists b' : Backoff,
    next_calls [0; 1000] (reset (init 3 1.58 2)) =
      ([(3 * 1 + jitter 0)%float; (3 * (1.58 * 1) + jitter 1000)%float], None, b')
    /\ n b' = 2
    /\ next 250 b' = (Raised (StopIteration "Maximum attempts exceeded"), b').
Proof.
  assert (Hr : randint_range 0 1000 250) by (unfold randint_range; lia).
  split; [exact Hr|]. split; [|split].
  - apply (proj1 (next_spec (init 3 1.58 2) 250 Hr)); [simpl; lia | reflexivity].
  - apply (proj1 (proj2
      (next_spec {| t0 := 3; max := 2; base := 1.58; n := 2 |} 250 Hr))).
    simpl. lia.
  - apply (proj2 (proj2 (next_spec (init 3 1.58 2) 250 Hr))).
    + simpl. lia.
    + reflexivity.
    + reflexivity.
Defined.

(** C1, as the spec states it, fails: [randint(0, 1000)] can return 1000,
    and then the jitter that [next] adds is exactly one second, which is
    not below one second. *)
Lemma next_jitter_not_below_one :
  randint_range 0 1000 1000 /\
  next 1000 (init 3 1.58 12) =
    (Normal (3 * 1 + jitter 1000)%float,
     {| t0 := 3; max := 12; base := 1.58; n := 1 |}) /\
  jitter 1000 = 1%float /\
  (jitter 1000 <? 1)%float = false.
Proof.
  split; [unfold randint_range; lia|]. repeat split; reflexivity.
Qed.

End BackoffSamples.

(** C5: the scheduled action [reset_backoff], tagged with [sequence], resets
    the back-off (so that [n] is 0) when the tag equals [n] at the time it
    fires, and leaves the object as it is when the tag differs. *)
Theorem reset_backoff_spec (backoff : Backoff) (sequence : Z) :
  (sequence = n backoff ->
     reset_backoff backoff sequence = reset backoff
     /\ n (reset_backoff backoff sequence) = 0)
  /\ (sequence <> n backoff -> reset_backoff backoff sequence = backoff).
Proof.
  unfold reset_backoff. split.
  - intros ->. rewrite Z.eqb_refl. split; reflexivity.
  - intros Hne. apply Z.eqb_neq in Hne. rewrite Hne. reflexivity.
Qed.

Lemma reset_backoff_spec_witness :
  reset_backoff {| t0 := 3; max := 12; base := 1.58; n := 4 |} 4
    = reset {| t0 := 3; max := 12; base := 1.58; n := 4 |}
  /\ reset_backoff {| t0 := 3; max := 12; base := 1.58; n := 4 |} 2
    = {| t0 := 3; max := 12; base := 1.58; n := 4 |}.
Proof.
  split.
  - apply (proj1 (reset_backoff_spec
                    {| t0 := 3; max := 12; base := 1.58; n := 4 |} 4)).
    reflexivity.
  - apply (proj2 (reset_backoff_spec
                    {| t0 := 3; max := 12; base := 1.58; n := 4 |} 2)).
    simpl. lia.
Defined.

(** ** What a computation adds to the log *)

Section Emits.
Variable P : event -> Prop.

Lemma emits_ret {A} (a : A) : emits P (ret a).
Proof. intros w. exists []. by rewrite app_nil_r. Qed.

Lemma emits_raise {A} (e : exn) : emits P (@raise world A e).
Proof. intros w. exists []. by rewrite app_nil_r. Qed.

Lemma emits_running {A} : emits P (fun w : world => (@Running A, w)).
Proof. intros w. exists []. by rewrite app_nil_r. Qed.

Lemma emits_answer_of (r : option exn) : emits P (answer_of r).
Proof. destruct r; [apply emits_raise | apply emits_ret]. Qed.

Lemma emits_emit (ev : event) : P ev -> emits P (emit ev).
Proof. intros Hev w. exists [ev]. split; [reflexivity | by constructor]. Qed.

Lemma emits_on_object {S A} (c : M S A) (s : S) : emits P (on_object c s).
Proof.
  intros w. exists []. rewrite app_nil_r. unfold on_object.
  destruct (c s) as [[a|e|] s']; split; auto.
Qed.

Lemma emits_bind {A B} (c : M world A) (k : A -> M world B) :
  emits P c -> (forall a, emits P (k a)) -> emits P (bind c k).
Proof.
  intros Hc Hk w. unfold bind. destruct (Hc w) as (evs & Hw & Hevs).
  destruct (c w) as [[a|e|] w1]; simpl in Hw; subst w1; eauto.
  destruct (Hk a (w ++ evs)) as (evs' & Hw' & Hevs').
  exists (evs ++ evs'). rewrite Hw', app_assoc. split; [reflexivity|].
  by apply Forall_app.
Qed.

Lemma emits_call (ev : event) (r : option exn) : P ev -> emits P (call ev r).
Proof.
  intros Hev. apply emits_bind; [by apply emits_emit|].
  intros _. apply emits_answer_of.
Qed.

Lemma emits_try_except {A} (body : M world A) (handler : exn -> option (M world A)) :
  emits P body ->
  (forall e h, handler e = Some h -> emits P h) ->
  emits P (try_except body handler).
Proof.
  intros Hb Hh w. unfold try_except. destruct (Hb w) as (evs & Hw & Hevs).
  destruct (body w) as [[a|e|] w1]; simpl in Hw; subst w1; eauto.
  destruct (handler e) as [h|] eqn:He; eauto.
  destruct (Hh e h He (w ++ evs)) as (evs' & Hw' & Hevs').
  exists (evs ++ evs'). rewrite Hw', app_assoc. split; [reflexivity|].
  by apply Forall_app.
Qed.

Lemma emits_try_finally {A} (body : M world A) (fin : M world unit) :
  emits P body -> emits P fin -> emits P (try_finally body fin).
Proof.
  intros Hb Hf w. unfold try_finally. destruct (Hb w) as (evs & Hw & Hevs).
  destruct (body w) as [[a|e|] w1]; simpl in Hw; subst w1; eauto;
    destruct (Hf (w ++ evs)) as (evs' & Hw' & Hevs');
    destruct (fin (w ++ evs)) as [[[]|e'|] w2]; simpl in Hw'; subst w2;
    exists (evs ++ evs'); rewrite app_assoc; (split; [reflexivity|]);
    by apply Forall_app.
Qed.
End Emits.

Lemma emits_weaken {A} (P Q : event -> Prop) (c : M world A) :
  (forall ev, P ev -> Q ev) -> emits P c -> emits Q c.
Proof.
  intros HPQ Hc w. destruct (Hc w) as (evs & Hw & Hevs).
  exists evs. split; [exact Hw|]. eapply Forall_impl; eauto.
Qed.

Lemma load_extensions_emits (exts : list (string * option exn)) :
  emits session_event (load_extensions exts).
Proof.
  induction exts as [|[name r] exts IH]; cbn [load_extensions].
  - apply emits_ret.
  - apply emits_bind; [by apply emits_emit|]. intros _.
    apply emits_bind; [|intros _; exact IH].
    apply emits_try_except; [by apply emits_call|].
    intros e h. destruct (is_Exception e); intros [= <-].
    apply emits_bind; [by apply emits_emit|]. intros _. apply emits_raise.
Qed.

Lemma teardown_emits (s : session) : emits session_event (teardown s).
Proof.
  unfold teardown.
  repeat (apply emits_bind; [by apply emits_emit|]; intros _).
  apply emits_bind; [|intros _; by apply emits_call].
  apply emits_try_except.
  - apply emits_bind; [by apply emits_emit|]. intros _.
    apply emits_bind; [by apply emits_call|]. intros _. by apply emits_call.
  - intros e h. destruct (is_Exception e); intros [= <-]. apply emits_ret.
Qed.

Lemma run_handler_emits (s : session) (e : exn) (h : M world unit) :
  run_handler s e = Some h -> emits session_event h.
Proof.
  unfold run_handler.
  destruct e; cbn [is_Exception]; intros [= <-];
    (apply emits_bind; [by apply emits_emit|]; intros _);
    (apply emits_bind; [by apply emits_emit|]; intros _);
    (apply emits_bind; [by apply emits_call|]; intros _);
    (apply emits_bind; [by apply emits_emit|]; intros _);
    first [apply emits_ret | apply emits_raise].
Qed.

(** A session only adds to the log, and nothing that is the loop's to do:
    it never sleeps, schedules or cancels the reset, or closes the event
    loop. *)
Lemma run_emits (s : session) : emits session_event (run s).
Proof.
  unfold run.
  apply emits_bind; [by apply emits_call|]. intros _.
  apply emits_bind; [apply load_extensions_emits|]. intros _.
  apply emits_try_finally; [|apply teardown_emits].
  apply emits_try_except; [|apply run_handler_emits].
  apply emits_bind; [by apply emits_call|]. intros _. by apply emits_call.
Qed.

(** ** run *)

Lemma load_extensions_ok (exts : list (string * option exn)) :
  Forall (fun x => x.2 = None) exts ->
  forall w : world,
    load_extensions exts w = (Normal tt, w ++ extension_calls exts).
Proof.
  induction 1 as [|[name r] exts Hr _ IH]; intros w.
  - simpl. rewrite app_nil_r. reflexivity.
  - simpl in Hr. subst r. cbn [load_extensions].
    unfold bind at 1. cbn [emit].
    unfold bind at 1. unfold try_except, call, bind at 1, emit, answer_of, ret.
    rewrite IH. unfold extension_calls. cbn [flat_map fst].
    rewrite <- !app_assoc. reflexivity.
Qed.

Lemma load_extensions_fails (pre post : list (string * option exn)) (name : string)
    (e : exn) (w : world) :
  Forall (fun x => x.2 = None) pre ->
  load_extensions (pre ++ (name, Some e) :: post) w =
    if is_Exception e then
      (Raised (SystemExit ErrorCodes.EXTENSION_LOAD),
       w ++ extension_calls pre ++
         [Log DEBUG "Loading extension: {}"; LoadExtension ("kaztron.cog." ++ name);
          Log EXCEPTION "Failed to load extension {}"])
    else
      (Raised e,
       w ++ extension_calls pre ++
         [Log DEBUG "Loading extension: {}"; LoadExtension ("kaztron.cog." ++ name)]).
Proof.
  intros Hpre. revert w.
  induction Hpre as [|[name' r] pre Hr _ IH]; intros w.
  - cbn [app load_extensions extension_calls flat_map].
    unfold bind at 1. cbn [emit].
    unfold bind at 1, try_except, call, bind at 1, emit, answer_of, raise.
    destruct (is_Exception e); unfold bind, sys_exit, raise;
      rewrite <- ?app_assoc; reflexivity.
  - simpl in Hr. subst r. cbn [app load_extensions].
    unfold bind at 1. cbn [emit].
    unfold bind at 1, try_except, call, bind at 1, emit, answer_of, ret.
    rewrite IH. unfold extension_calls. cbn [flat_map fst].
    destruct (is_Exception e); rewrite <- !app_assoc; reflexivity.
Qed.

(** The first extension that fails to load. *)
Lemma first_failure (exts : list (string * option exn)) :
  ~ Forall (fun x => x.2 = None) exts ->
  exists (pre post : list (string * option exn)) (name : string) (e : exn),
    exts = pre ++ (name, Some e) :: post /\ Forall (fun x => x.2 = None) pre.
Proof.
  induction exts as [|[name r] exts IH]; intros Hnot.
  - destruct Hnot. constructor.
  - destruct r as [e|].
    + exists [], exts, name, e. split; [reflexivity | constructor].
    + destruct IH as (pre & post & name' & e & -> & Hpre).
      { intros Hall. apply Hnot. by constructor. }
      exists ((name, None) :: pre), post, name', e.
      split; [reflexivity | by constructor].
Qed.

Lemma extension_calls_no_teardown (exts : list (string * option exn)) :
  Forall (fun ev => ~ teardown_event ev) (extension_calls exts).
Proof.
  induction exts as [|x exts IH]; [constructor|].
  unfold extension_calls in *. cbn [flat_map app].
  repeat (constructor; [simpl; tauto|]). exact IH.
Qed.

Lemma startup_calls_no_teardown (s : session) :
  Forall (fun ev => ~ teardown_event ev) (startup_calls s).
Proof.
  unfold startup_calls. constructor; [simpl; tauto|].
  apply extension_calls_no_teardown.
Qed.

(** The start of [run], up to its [try] statement. *)
Lemma run_startup (s : session) (w : world) :
  reaches_connect s ->
  run s w =
    try_finally
      (try_except
         (call Login (login s) ;;; call Connect (connect s))%py
         (run_handler s))
      (teardown s) (w ++ startup_calls s).
Proof.
  intros [Hs He]. unfold run, startup_calls.
  unfold bind at 1, call at 1, bind at 1, emit at 1. rewrite Hs. cbn [answer_of ret].
  unfold bind at 1. rewrite load_extensions_ok by exact He.
  rewrite <- app_assoc. reflexivity.
Qed.

(** A session that does not get as far as the [try] statement raises,
    having made no call of the teardown. *)
Lemma run_not_connected (s : session) (w : world) :
  ~ reaches_connect s ->
  exists (e : exn) (evs : list event),
    run s w = (Raised e, w ++ evs) /\ Forall (fun ev => ~ teardown_event ev) evs.
Proof.
  intros Hnot. unfold run.
  unfold bind at 1, call at 1, bind at 1, emit at 1.
  destruct (startup s) as [e|] eqn:Hs; cbn [answer_of ret raise].
  - exists e, [StaticInit]. split; [reflexivity|]. repeat constructor. simpl. tauto.
  - destruct (first_failure (extensions s)) as (pre & post & name & e & Hext & Hpre).
    { intros Hall. apply Hnot. by split. }
    unfold bind at 1. rewrite Hext, load_extensions_fails by exact Hpre.
    destruct (is_Exception e); eexists; eexists;
      (split; [rewrite <- app_assoc; reflexivity|]);
      (constructor; [simpl; tauto|]);
      (apply Forall_app; split; [apply extension_calls_no_teardown|]);
      repeat (constructor; [simpl; tauto|]); constructor.
Qed.

(** The [finally] block. *)
Lemma teardown_run (s : session) (w : world) :
  teardown s w =
    (after_teardown s (Normal tt), w ++ teardown_calls s ++ teardown_rest s).
Proof.
  unfold teardown, after_teardown, teardown_raises, teardown_rest, teardown_calls,
    bind, try_except, call, bind, emit, answer_of, ret, raise.
  destruct (cancelled_await s) as [e|];
    [destruct (is_Exception e)
    |destruct (gathered_exception s) as [e|]; [destruct (is_Exception e)|]];
    destruct (write s); rewrite <- ?app_assoc; reflexivity.
Qed.

(** The [try] statement of [run] with its [except] clauses. *)
Lemma session_body_run (s : session) (w : world) :
  try_except
    (call Login (login s) ;;; call Connect (connect s))%py
    (run_handler s) w =
    match body_raises s with
    | None => (Normal tt, w ++ connect_calls s)
    | Some KeyboardInterrupt =>
        (after_close s (Raised (SystemExit ErrorCodes.OK)),
         w ++ connect_calls s ++ interrupt_calls ++ closed_log s)
    | Some e =>
        if is_Exception e then
          (after_close s (Normal tt),
           w ++ connect_calls s ++ fault_calls ++ closed_log s)
        else (Raised e, w ++ connect_calls s)
    end.
Proof.
  unfold body_raises, connect_calls, after_close, closed_log.
  unfold try_except, call, bind, emit, answer_of, ret, raise.
  destruct (login s) as [e|]; [|destruct (connect s) as [e|]];
    try (destruct e; unfold run_handler, is_Exception, bind, call, bind, emit,
           answer_of, ret, raise, sys_exit, raise;
         destruct (close s));
    rewrite <- ?app_assoc; reflexivity.
Qed.

(** [run], for a session that gets as far as the [try] statement. *)
Lemma run_connected (s : session) (w : world) :
  reaches_connect s ->
  run s w =
    match body_raises s with
    | None =>
        (after_teardown s (Normal tt),
         w ++ startup_calls s ++ connect_calls s ++ teardown_calls s ++ teardown_rest s)
    | Some KeyboardInterrupt =>
        (after_teardown s (after_close s (Raised (SystemExit ErrorCodes.OK))),
         w ++ startup_calls s ++ connect_calls s ++ interrupt_calls ++ closed_log s
           ++ teardown_calls s ++ teardown_rest s)
    | Some e =>
        if is_Exception e then
          (after_teardown s (after_close s (Normal tt)),
           w ++ startup_calls s ++ connect_calls s ++ fault_calls ++ closed_log s
             ++ teardown_calls s ++ teardown_rest s)
        else
          (after_teardown s (Raised e),
           w ++ startup_calls s ++ connect_calls s
             ++ teardown_calls s ++ teardown_rest s)
    end.
Proof.
  intros Hreach. rewrite run_startup by exact Hreach.
  unfold try_finally. rewrite session_body_run.
  destruct (body_raises s) as [e|];
    [destruct e; cbn [is_Exception]|];
    unfold after_close; try destruct (close s);
    rewrite teardown_run; unfold after_teardown;
    destruct (teardown_raises s); rewrite <- ?app_assoc; reflexivity.
Qed.

(** C3, as the code has it. A session that gets as far as the [try]
    statement of [run] (the start-up code and every extension load
    succeeded) ends, on every way out of the connection phase and whatever
    the [except] clause does, with the teardown: it asks for all
    outstanding tasks, gathers exactly those, requests their cancellation
    and awaits them, and these are its last calls apart from
    [gathered.exception()] and the write of the state; it does not run on.
    When the await raises nothing but an [Exception], the error is
    swallowed and the state is written last. When the await is left by
    something else ([KeyboardInterrupt], [SystemExit]), that leaves [run]
    and the state is not written. A session that does not get as far as
    the [try] statement raises without any call of the teardown. *)
Theorem run_teardown (s : session) (w : world) :
  (reaches_connect s ->
     (exists pre : list event,
        (run s w).2 = w ++ pre ++ teardown_calls s ++ teardown_rest s
        /\ Forall (fun ev => ~ teardown_event ev) pre)
     /\ (run s w).1 <> Running
     /\ (cancellation_errors s ->
         exists post : list event,
           teardown_rest s = post ++ [StateWrite]
           /\ (post = [] \/ post = [GatheredException (pending s)]))
     /\ (forall e : exn,
           cancelled_await s = Some e
           \/ (cancelled_await s = None /\ gathered_exception s = Some e) ->
           is_Exception e = false ->
           (run s w).1 = Raised e
           /\ exists evs : list event, (run s w).2 = w ++ evs /\ StateWrite ∉ evs))
  /\ (~ reaches_connect s ->
      exists (e : exn) (evs : list event),
        run s w = (Raised e, w ++ evs)
        /\ Forall (fun ev => ~ teardown_event ev) evs).
Proof.
  split; [|apply run_not_connected].
  intros Hreach.
  assert (Hrun : exists (o : outcome unit) (pre : list event),
            run s w = (after_teardown s o,
                       w ++ pre ++ teardown_calls s ++ teardown_rest s)
            /\ o <> Running
            /\ Forall (fun ev => ~ teardown_event ev) pre).
  { rewrite run_connected by exact Hreach.
    pose proof (startup_calls_no_teardown s) as Hst.
    assert (Hco : Forall (fun ev => ~ teardown_event ev) (connect_calls s)).
    { unfold connect_calls. destruct (login s); repeat constructor; simpl; tauto. }
    assert (Hcl : Forall (fun ev => ~ teardown_event ev) (closed_log s)).
    { unfold closed_log. destruct (close s); repeat constructor; simpl; tauto. }
    assert (Hfa : Forall (fun ev => ~ teardown_event ev) fault_calls).
    { repeat constructor; simpl; tauto. }
    assert (Hin : Forall (fun ev => ~ teardown_event ev) interrupt_calls).
    { repeat constructor; simpl; tauto. }
    assert (Hac : forall o, o <> Running -> after_close s o <> Running).
    { intros o Ho. unfold after_close. destruct (close s); [discriminate | exact Ho]. }
    destruct (body_raises s) as [e|].
    - assert (Hfault :
        exists (o : outcome unit) (pre : list event),
          (after_teardown s (after_close s (Normal tt)),
           w ++ startup_calls s ++ connect_calls s ++ fault_calls ++ closed_log s
             ++ teardown_calls s ++ teardown_rest s) =
          (after_teardown s o, w ++ pre ++ teardown_calls s ++ teardown_rest s)
          /\ o <> Running /\ Forall (fun ev => ~ teardown_event ev) pre).
      { exists (after_close s (Normal tt)),
          (startup_calls s ++ connect_calls s ++ fault_calls ++ closed_log s).
        split; [by rewrite <- !app_assoc|]. split; [by apply Hac|].
        by rewrite !Forall_app. }
      assert (Hother :
        exists (o : outcome unit) (pre : list event),
          (after_teardown s (Raised e),
           w ++ startup_calls s ++ connect_calls s
             ++ teardown_calls s ++ teardown_rest s) =
          (after_teardown s o, w ++ pre ++ teardown_calls s ++ teardown_rest s)
          /\ o <> Running /\ Forall (fun ev => ~ teardown_event ev) pre).
      { exists (Raised e), (startup_calls s ++ connect_calls s).
        split; [by rewrite <- !app_assoc|]. split; [discriminate|].
        by rewrite !Forall_app. }
      destruct e; cbn [is_Exception]; try exact Hfault; try exact Hother.
      exists (after_close s (Raised (SystemExit ErrorCodes.OK))),
        (startup_calls s ++ connect_calls s ++ interrupt_calls ++ closed_log s).
      split; [by rewrite <- !app_assoc|]. split; [by apply Hac|].
      by rewrite !Forall_app.
    - exists (Normal tt), (startup_calls s ++ connect_calls s).
      split; [by rewrite <- !app_assoc|]. split; [discriminate|].
      by rewrite !Forall_app. }
  destruct Hrun as (o & pre & Hrun & Ho & Hpre).
  split; [|split; [|split]].
  - exists pre. rewrite Hrun. by split.
  - rewrite Hrun. unfold after_teardown. cbn [fst].
    destruct (teardown_raises s); [discriminate | exact Ho].
  - intros [Hc Hg]. unfold teardown_rest.
    destruct (cancelled_await s) as [e|] eqn:Ec.
    + rewrite (Hc e eq_refl). exists []. by split; [|left].
    + destruct (gathered_exception s) as [e|] eqn:Eg.
      * rewrite (Hg e eq_refl). exists [GatheredException (pending s)].
        by split; [|right].
      * exists [GatheredException (pending s)]. by split; [|right].
  - intros e He Hexc.
    assert (Hraise : teardown_raises s = Some e
                     /\ StateWrite ∉ teardown_rest s).
    { unfold teardown_raises, teardown_rest.
      destruct He as [-> | [-> ->]]; rewrite Hexc; split; try reflexivity.
      - apply not_elem_of_nil.
      - rewrite list_elem_of_singleton. discriminate. }
    destruct Hraise as [Hraise Hrest].
    rewrite Hrun. unfold after_teardown. rewrite Hraise. split; [reflexivity|].
    exists (pre ++ teardown_calls s ++ teardown_rest s). split; [reflexivity|].
    rewrite !elem_of_app. intros [Hin | [Hin | Hin]].
    + rewrite Forall_forall in Hpre. by apply (Hpre _ Hin).
    + unfold teardown_calls in Hin.
      repeat (apply elem_of_cons in Hin as [Hin | Hin]; [discriminate|]).
      by apply elem_of_nil in Hin.
    + by apply Hrest.
Qed.

Lemma run_teardown_witness :
  (exists pre : list event,
     (run (session_with (Some (OtherException "ConnectionClosed"))) []).2 =
       [] ++ pre ++
       teardown_calls (session_with (Some (OtherException "ConnectionClosed"))) ++
       teardown_rest (session_with (Some (OtherException "ConnectionClosed")))
     /\ Forall (fun ev => ~ teardown_event ev) pre)
  /\ exists post : list event,
       teardown_rest (session_with (Some (OtherException "ConnectionClosed")))
         = post ++ [StateWrite]
       /\ (post = [] \/
           post = [GatheredException
                     (pending (session_with (Some (OtherException "ConnectionClosed"))))]).
Proof.
  assert (H1 : reaches_connect (session_with (Some (OtherException "ConnectionClosed"))))
    by (split; [reflexivity | repeat constructor]).
  assert (H2 : cancellation_errors
                 (session_with (Some (OtherException "ConnectionClosed"))))
    by (split; intros e [= <-]; reflexivity).
  destruct (proj1 (run_teardown
                     (session_with (Some (OtherException "ConnectionClosed"))) []) H1)
    as (Hpre & _ & Hwrite & _).
  split; [exact Hpre | exact (Hwrite H2)].
Defined.

(** C3, as the spec states it, fails on two ways out of a session. An
    extension that fails to load ends [run] by [sys.exit] before the [try]
    statement: nothing is cancelled and the state is not written. And a
    user interrupt that arrives while the cancelled tasks are awaited
    leaves the [finally] block before the state is written. *)
Lemma run_without_teardown :
  run {| startup := None;
         extensions := [("badges", Some (OtherException "ImportError"))];
         login := None; connect := None; close := None;
         pending := [1%nat; 2%nat];
         cancelled_await := None; gathered_exception := None; write := None |} []
    = (Raised (SystemExit ErrorCodes.EXTENSION_LOAD),
       [StaticInit; Log DEBUG "Loading extension: {}";
        LoadExtension "kaztron.cog.badges";
        Log EXCEPTION "Failed to load extension {}"])
  /\ run {| startup := None; extensions := [];
            login := None; connect := None; close := None;
            pending := [1%nat; 2%nat];
            cancelled_await := Some KeyboardInterrupt;
            gathered_exception := None; write := None |} []
    = (Raised KeyboardInterrupt,
       [StaticInit; Login; Connect; Log DEBUG "Cancelling pending tasks...";
        AllTasks; Gather [1%nat; 2%nat]; Cancel [1%nat; 2%nat];
        RunUntilComplete [1%nat; 2%nat]]).
Proof. split; reflexivity. Qed.

(** ** run_reboot_loop *)

Section LoopFacts.
Context `{FloatPow}.

(** A session that raises leaves the loop before the back-off is asked:
    what the environment would do in later iterations plays no part. *)
Lemma while_true_session_raises (it : iteration) (rest : list iteration)
    (bo : Backoff) (wait_time : float) (w : world) (e : exn) :
  (forall w1, (run (sess it) w1).1 = Raised e) ->
  while_true (it :: rest) bo wait_time w = while_true [it] bo wait_time w
  /\ (while_true (it :: rest) bo wait_time w).1 = Raised e.
Proof.
  intros Hrun. cbn [while_true]. unfold bind. cbn [emit].
  specialize (Hrun (w ++ [CallLater wait_time (n bo)])).
  destruct (run (sess it) (w ++ [CallLater wait_time (n bo)])) as [[[]|e'|] w1];
    simpl in Hrun; try discriminate.
  injection Hrun as ->. split; reflexivity.
Qed.

Lemma while_true_emits (its : list iteration) :
  forall (bo : Backoff) (wait_time : float),
    emits (fun _ => True) (while_true its bo wait_time).
Proof.
  induction its as [|it rest IH]; intros bo wait_time; cbn [while_true].
  - apply emits_running.
  - apply emits_bind; [by apply emits_emit|]. intros _.
    apply emits_bind; [apply (emits_weaken session_event); [done | apply run_emits]|].
    intros _.
    apply emits_bind; [by apply emits_emit|]. intros _.
    apply emits_bind; [by apply emits_emit|]. intros _.
    apply emits_bind; [apply emits_on_object|]. intros [tn bo'].
    apply emits_bind; [by apply emits_emit|]. intros _.
    apply emits_bind; [by apply emits_call|]. intros _.
    apply emits_bind; [by apply emits_emit|]. intros _.
    apply IH.
Qed.

Lemma reboot_handler_emits (e : exn) (h : M world unit) :
  reboot_handler e = Some h -> emits (fun _ => True) h.
Proof.
  unfold reboot_handler.
  destruct e; cbn [is_Exception]; intros [= <-];
    first [ by apply emits_emit
          | apply emits_bind; [by apply emits_emit|]; intros _; apply emits_raise ].
Qed.

(** One iteration of the loop whose session returns: the calls made, and
    how the loop goes on. *)
Lemma while_true_step (it : iteration) (bo : Backoff) (wait_time : float) (w : world) :
  returns it ->
  exists evs : list event,
    Forall session_event evs /\
    forall rest : list iteration,
    while_true (it :: rest) bo wait_time w =
      match next (draw it) (after_session it bo) with
      | (Normal tn, bo') =>
          match sleep it with
          | None =>
              while_true rest bo' tn
                (w ++ [CallLater wait_time (n bo)] ++ evs ++ retry_calls tn
                   ++ [Log INFO "Restarting bot..."])
          | Some e =>
              (Raised e, w ++ [CallLater wait_time (n bo)] ++ evs ++ retry_calls tn)
          end
      | (Raised e, _) =>
          (Raised e,
           w ++ [CallLater wait_time (n bo)] ++ evs
             ++ [Log ERROR "Bot halted unexpectedly."; CancelTimer])
      | (Running, _) =>
          (Running,
           w ++ [CallLater wait_time (n bo)] ++ evs
             ++ [Log ERROR "Bot halted unexpectedly."; CancelTimer])
      end.
Proof.
  intros Hret.
  destruct (run_emits (sess it) (w ++ [CallLater wait_time (n bo)]))
    as (evs & Hw & Hevs).
  specialize (Hret (w ++ [CallLater wait_time (n bo)])).
  exists evs. split; [exact Hevs|]. intros rest.
  cbn [while_true]. unfold bind at 1. cbn [emit]. unfold bind at 1.
  destruct (run (sess it) (w ++ [CallLater wait_time (n bo)])) as [[[]|e|] w1];
    simpl in Hret, Hw; try discriminate. subst w1.
  unfold bind at 1. cbn [emit]. unfold bind at 1. cbn [emit].
  unfold bind at 1, on_object. fold (after_session it bo).
  destruct (next (draw it) (after_session it bo)) as [[tn|e|] bo'];
    [| rewrite <- !app_assoc; reflexivity | rewrite <- !app_assoc; reflexivity].
  unfold bind at 1. cbn [emit]. unfold bind at 1, call, bind at 1. cbn [emit].
  destruct (sleep it) as [e|]; cbn [answer_of raise ret].
  - unfold retry_calls. rewrite <- !app_assoc. reflexivity.
  - unfold bind at 1. cbn [emit]. unfold retry_calls.
    rewrite <- !app_assoc. reflexivity.
Qed.

(** How the loop ends when an exception leaves the [while] loop. *)
Lemma reboot_loop_exit (bo : Backoff) (its : list iteration) (w : world) (e : exn) :
  (while_true its bo 0%float
     (w ++ [Log INFO "Welcome to KazTron v{}, booting up..."])).1 = Raised e ->
  (run_reboot_loop_with bo its w).1 = loop_exit e.
Proof.
  intros Hw. unfold run_reboot_loop_with, bind, try_finally, try_except. cbn [emit].
  destruct (while_true its bo 0%float _) as [o w1]. simpl in Hw. subst o.
  destruct e; reflexivity.
Qed.

(** C4, as the code has it, for a session that gets as far as the [try]
    statement of [run] and whose connection phase raises [e]. When [e]
    derives from [Exception], the fault is logged and [client.close()] is
    called, then the teardown runs; [run] returns to the loop exactly when
    neither the close nor the teardown raises, and otherwise raises what
    they raise. A [KeyboardInterrupt] is logged and [client.close()] is
    called, then the teardown runs; when neither raises, [run] is left by
    [sys.exit(ErrorCodes.OK)], which ends the reboot loop with that status
    without another session. Any other exception ([SystemExit], ...) is
    not caught: nothing is logged for it and the client is not closed, the
    teardown runs and the exception leaves [run], unless the teardown
    raises. *)
Theorem run_exception_policy (s : session) (e : exn) :
  reaches_connect s ->
  body_raises s = Some e ->
  (is_Exception e = true ->
     forall w : world,
       run s w =
         (after_teardown s (after_close s (Normal tt)),
          w ++ startup_calls s ++ connect_calls s ++ fault_calls ++ closed_log s
            ++ teardown_calls s ++ teardown_rest s)
       /\ ((run s w).1 = Normal tt <-> close s = None /\ teardown_raises s = None))
  /\ (e = KeyboardInterrupt ->
       (forall w : world,
          run s w =
            (after_teardown s (after_close s (Raised (SystemExit ErrorCodes.OK))),
             w ++ startup_calls s ++ connect_calls s ++ interrupt_calls ++ closed_log s
               ++ teardown_calls s ++ teardown_rest s)
          /\ (close s = None -> teardown_raises s = None ->
              (run s w).1 = Raised (SystemExit ErrorCodes.OK)))
       /\ forall (it : iteration) (rest : list iteration) (bo : Backoff) (w : world),
            sess it = s -> close s = None -> teardown_raises s = None ->
            run_reboot_loop_with bo (it :: rest) w = run_reboot_loop_with bo [it] w /\
            (run_reboot_loop_with bo (it :: rest) w).1 = Raised (SystemExit ErrorCodes.OK))
  /\ (is_Exception e = false -> e <> KeyboardInterrupt ->
       forall w : world,
         run s w =
           (after_teardown s (Raised e),
            w ++ startup_calls s ++ connect_calls s
              ++ teardown_calls s ++ teardown_rest s)).
Proof.
  intros Hreach Hbody.
  assert (Hrun := fun w => run_connected s w Hreach). rewrite Hbody in Hrun.
  split; [|split].
  - intros He w. specialize (Hrun w).
    assert (Hw : run s w =
      (after_teardown s (after_close s (Normal tt)),
       w ++ startup_calls s ++ connect_calls s ++ fault_calls ++ closed_log s
         ++ teardown_calls s ++ teardown_rest s)).
    { rewrite Hrun. destruct e; try discriminate He; reflexivity. }
    split; [exact Hw|]. rewrite Hw. unfold after_teardown, after_close. cbn [fst].
    destruct (teardown_raises s), (close s); split;
      try discriminate; try (intros [? ?]; discriminate); auto.
  - intros ->.
    assert (Hout : close s = None -> teardown_raises s = None ->
              forall w, (run s w).1 = Raised (SystemExit ErrorCodes.OK)).
    { intros Hc Ht w. rewrite Hrun. unfold after_teardown, after_close.
      rewrite Hc, Ht. reflexivity. }
    split.
    + intros w. split; [apply Hrun | intros Hc Ht; by apply Hout].
    + intros it rest bo w <- Hc Ht.
      unfold run_reboot_loop_with, bind, try_finally, try_except. cbn [emit].
      destruct (while_true_session_raises it rest bo 0%float
                  (w ++ [Log INFO "Welcome to KazTron v{}, booting up..."])
                  (SystemExit ErrorCodes.OK) (Hout Hc Ht)) as [Heq Hr].
      rewrite Heq. split; [reflexivity|].
      rewrite <- Heq.
      destruct (while_true (it :: rest) bo 0%float _) as [o w1]. simpl in Hr. subst o.
      reflexivity.
  - intros He Hne w. rewrite Hrun.
    destruct e; try discriminate He; try reflexivity. congruence.
Qed.

(** When the back-off fails, [StopIteration] leaves the [while] loop. *)
Lemma while_true_backoff_fails (bo : Backoff) (its : list iteration) :
  backoff_fails bo its ->
  forall (wait_time : float) (w : world),
    (while_true its bo wait_time w).1 =
      Raised (StopIteration "Maximum attempts exceeded").
Proof.
  induction 1 as [bo it rest Hrun Hmax | bo it rest tn bo' Hrun Hnext Hsleep _ IH];
    intros wait_time w; cbn [while_true]; unfold bind; cbn [emit];
    specialize (Hrun (w ++ [CallLater wait_time (n bo)]));
    destruct (run (sess it) (w ++ [CallLater wait_time (n bo)])) as [[[]|e|] w1];
    simpl in Hrun; try discriminate; unfold on_object.
  - rewrite next_limit by exact Hmax. reflexivity.
  - rewrite Hnext. unfold call, bind, emit. rewrite Hsleep. cbn [answer_of ret].
    apply IH.
Qed.

(** While attempts are left, the loop goes on after every plain failure. *)
Lemma while_true_plain_failures (its : list iteration) :
  forall (bo : Backoff) (wait_time : float) (w : world),
    Forall plain_failure its ->
    0 <= n bo ->
    powers_in_range bo ->
    n bo + Z.of_nat (length its) <= max bo ->
    (while_true its bo wait_time w).1 = Running.
Proof.
  induction its as [|it rest IH]; intros bo wait_time w Hits Hn Hp Hlen.
  - reflexivity.
  - apply Forall_cons in Hits as [(Hret & Hfire & Hsleep) Hrest].
    cbn [length] in Hlen. rewrite Nat2Z.inj_succ in Hlen.
    destruct (while_true_step it bo wait_time w Hret) as (evs & _ & Hstep).
    rewrite Hstep. unfold after_session. rewrite Hfire, Hsleep.
    destruct (Hp (n bo)) as [p Hpow]; [lia|].
    rewrite (next_ok _ bo p) by (lia || exact Hpow).
    apply IH; [exact Hrest | cbn [n]; lia | exact Hp | cbn [n max]; lia].
Qed.

(** After more plain failures than attempts are left, the back-off has
    failed. *)
Lemma plain_failures_backoff_fails (its : list iteration) :
  forall bo : Backoff,
    Forall plain_failure its ->
    backoff_inv bo ->
    powers_in_range bo ->
    max bo < n bo + Z.of_nat (length its) ->
    backoff_fails bo its.
Proof.
  induction its as [|it rest IH]; intros bo Hits [Hn Hmax] Hp Hlen.
  - simpl in Hlen. lia.
  - apply Forall_cons in Hits as [(Hret & Hfire & Hsleep) Hrest].
    cbn [length] in Hlen. rewrite Nat2Z.inj_succ in Hlen.
    destruct (Z.eq_dec (n bo) (max bo)) as [Heq | Hne].
    + apply fails_now; [exact Hret|]. rewrite Hfire. lia.
    + destruct (Hp (n bo)) as [p Hpow]; [lia|].
      eapply fails_later; [exact Hret | | exact Hsleep |].
      * rewrite Hfire. apply (next_ok _ bo p); [lia | exact Hpow].
      * apply IH; [exact Hrest | split; cbn [n max]; lia | exact Hp | cbn [n max]; lia].
Qed.

(** C2, as the code has it: in every run of the reboot loop in which the
    back-off fails, the loop ends and [run_reboot_loop] leaves by
    [sys.exit(ErrorCodes.RETRY_MAX_ATTEMPTS)], a status different from
    [OK] (the user interrupt) and from [ERROR]. The back-off does not fail
    after [max] failed sessions in a row but at the one after them: with
    [n] attempts made, the loop is still going after up to [max - n]
    failures without a reset, and one failure more makes the back-off
    fail. *)
Theorem reboot_loop_retry_limit (bo : Backoff) (its : list iteration) (w : world) :
  (backoff_fails bo its ->
     (run_reboot_loop_with bo its w).1 =
       Raised (SystemExit ErrorCodes.RETRY_MAX_ATTEMPTS))
  /\ ErrorCodes.RETRY_MAX_ATTEMPTS <> ErrorCodes.OK
  /\ ErrorCodes.RETRY_MAX_ATTEMPTS <> ErrorCodes.ERROR
  /\ (Forall plain_failure its ->
      backoff_inv bo ->
      powers_in_range bo ->
      (n bo + Z.of_nat (length its) <= max bo ->
         (run_reboot_loop_with bo its w).1 = Running)
      /\ (max bo < n bo + Z.of_nat (length its) ->
          backoff_fails bo its
          /\ (run_reboot_loop_with bo its w).1 =
               Raised (SystemExit ErrorCodes.RETRY_MAX_ATTEMPTS))).
Proof.
  assert (Hexit : backoff_fails bo its ->
            (run_reboot_loop_with bo its w).1 =
              Raised (SystemExit ErrorCodes.RETRY_MAX_ATTEMPTS)).
  { intros Hfail.
    unfold run_reboot_loop_with, bind, try_finally, try_except. cbn [emit].
    pose proof (while_true_backoff_fails bo its Hfail 0%float
                  (w ++ [Log INFO "Welcome to KazTron v{}, booting up..."])) as Hw.
    destruct (while_true its bo 0%float _) as [o w1]. simpl in Hw. subst o.
    reflexivity. }
  split; [exact Hexit|]. split; [discriminate|]. split; [discriminate|].
  intros Hits Hinv Hp. split.
  - intros Hlen.
    unfold run_reboot_loop_with, bind, try_finally, try_except. cbn [emit].
    pose proof (while_true_plain_failures its bo 0%float
                  (w ++ [Log INFO "Welcome to KazTron v{}, booting up..."])
                  Hits (proj1 Hinv) Hp Hlen) as Hw.
    destruct (while_true its bo 0%float _) as [o w1]. simpl in Hw. subst o.
    reflexivity.
  - intros Hlen.
    assert (Hfail : backoff_fails bo its)
      by (by apply plain_failures_backoff_fails).
    split; [exact Hfail | by apply Hexit].
Qed.

(** In the loop the tag of the scheduled reset is the value of [n] when it
    is scheduled, and nothing changes [n] before it fires: a reset that
    fires is applied. *)
Lemma reset_in_loop_applies (bo : Backoff) :
  reset_backoff bo (n bo) = reset bo.
Proof. unfold reset_backoff. rewrite Z.eqb_refl. reflexivity. Qed.

End LoopFacts.

Section LoopSamples.
#[local] Existing Instance product_pow.

Lemma run_exception_policy_witness :
  (run (session_with (Some (OtherException "ConnectionClosed"))) []).1 = Normal tt /\
  (run (session_with (Some KeyboardInterrupt)) []).1 = Raised (SystemExit ErrorCodes.OK).
Proof.
  assert (Hreach : forall r, reaches_connect (session_with r))
    by (intros r; split; [reflexivity | repeat constructor]).
  split.
  - apply (proj2 (proj1 (run_exception_policy
                    (session_with (Some (OtherException "ConnectionClosed")))
                    (OtherException "ConnectionClosed")
                    (Hreach _) eq_refl) eq_refl [])).
    split; reflexivity.
  - apply (proj2 (proj1 (proj1 (proj2 (run_exception_policy
                    (session_with (Some KeyboardInterrupt)) KeyboardInterrupt
                    (Hreach _) eq_refl)) eq_refl) [])); reflexivity.
Defined.

(** C4, as the spec states it, fails: [SystemExit] raised inside the
    connection phase is not the user interrupt, yet [run] neither catches it
    nor returns; it leaves [run] (and then the reboot loop) as raised. *)
Lemma run_system_exit_not_caught :
  reaches_connect (session_with (Some (SystemExit 3))) /\
  body_raises (session_with (Some (SystemExit 3))) = Some (SystemExit 3) /\
  SystemExit 3 <> KeyboardInterrupt /\
  close (session_with (Some (SystemExit 3))) = None /\
  teardown_quiet (session_with (Some (SystemExit 3))) /\
  (run (session_with (Some (SystemExit 3))) []).1 = Raised (SystemExit 3) /\
  (run (session_with (Some (SystemExit 3))) []).1 <> Normal tt /\
  (run_reboot_loop [iteration_with (Some (SystemExit 3))] []).1 = Raised (SystemExit 3).
Proof.
  repeat split; try reflexivity; try discriminate.
  all: try (repeat constructor; fail).
  all: try (intros e [= <-]; reflexivity).
Qed.

Lemma reboot_loop_retry_limit_witness :
  (run_reboot_loop_with (init 3 1.58 3)
     [iteration_with None; iteration_with (Some (OtherException "ConnectionClosed"));
      iteration_with None; iteration_with None] []).1
    = Raised (SystemExit ErrorCodes.RETRY_MAX_ATTEMPTS).
Proof.
  apply (proj1 (reboot_loop_retry_limit (init 3 1.58 3) _ [])).
  do 3 (eapply fails_later;
        [intros w; reflexivity | reflexivity | reflexivity |]).
  apply fails_now; [intros w; reflexivity | simpl; lia].
Defined.

(** C2, as the spec states it, fails on the count. In the scenario of the
    specification, [max_attempts = 3]: after three failed sessions in a
    row the loop has slept three times and is still going; it is the
    fourth failure that ends it. *)
Lemma reboot_loop_three_failures :
  (run_reboot_loop_with (init 3 1.58 3)
     [iteration_with None; iteration_with None; iteration_with None] []).1 = Running
  /\ length (sleeps (run_reboot_loop_with (init 3 1.58 3)
       [iteration_with None; iteration_with None; iteration_with None] []).2) = 3%nat
  /\ (run_reboot_loop_with (init 3 1.58 3)
       [iteration_with None; iteration_with None; iteration_with None;
        iteration_with None] []).1
     = Raised (SystemExit ErrorCodes.RETRY_MAX_ATTEMPTS).
Proof. split; [|split]; vm_compute; reflexivity. Qed.

End LoopSamples.

End RunnerFacts.

(** * Properties of cog/projects/wizard.py *)

Module WizardFacts.
Import Wizard.

(** ** Lookups *)

Lemma has_open_wizard_eq (st : WizardManager) (u : string) :
  has_open_wizard st u =
    bool_decide (is_Some (new st !! u)) || bool_decide (is_Some (edit st !! u)).
Proof. unfold has_open_wizard. simpl. rewrite orb_false_r. reflexivity. Qed.

Lemma has_open_wizard_true (st : WizardManager) (u : string) :
  has_open_wizard st u = true <-> present st "new" u \/ present st "edit" u.
Proof.
  rewrite has_open_wizard_eq, orb_true_iff, !bool_decide_eq_true. reflexivity.
Qed.

Lemma has_open_wizard_false (st : WizardManager) (u : string) :
  has_open_wizard st u = false <-> new st !! u = None /\ edit st !! u = None.
Proof.
  rewrite has_open_wizard_eq, orb_false_iff, !bool_decide_eq_false.
  rewrite <- !eq_None_not_Some. reflexivity.
Qed.

Lemma get_wizard_for_eq (st : WizardManager) (u : string) :
  get_wizard_for st u =
    match new st !! u with
    | Some (Wiz w) => Normal ("new", w)
    | _ =>
        match edit st !! u with
        | Some (Wiz w) => Normal ("edit", w)
        | _ => Raised (KeyError "Member {} does not have an active wizard")
        end
    end.
Proof. reflexivity. Qed.

Lemma present_name (st : WizardManager) (name u : string) :
  present st name u -> name = "new" \/ name = "edit".
Proof.
  unfold present, wizards. repeat case_decide; auto.
  rewrite lookup_empty. intros [x Hx]. discriminate.
Qed.

(** Under the invariant, the wizard a map holds for a user is the one
    [get_wizard_for] finds. *)
Lemma get_wizard_for_found (st : WizardManager) (name u : string) (wz : ProjectWizard) :
  at_most_one st ->
  wizards st name !! u = Some (Wiz wz) ->
  get_wizard_for st u = Normal (name, wz).
Proof.
  intros Hinv Hlook. rewrite get_wizard_for_eq.
  assert (Hp : present st name u) by (by exists (Wiz wz)).
  destruct (present_name st name u Hp) as [-> | ->].
  - change (new st !! u = Some (Wiz wz)) in Hlook. by rewrite Hlook.
  - change (edit st !! u = Some (Wiz wz)) in Hlook.
    destruct (new st !! u) as [v|] eqn:Hn.
    + exfalso. apply (Hinv u). split; [by exists v | by exists (Wiz wz)].
    + by rewrite Hlook.
Qed.

(** What [get_wizard_for] finds is held by the map it names. *)
Lemma get_wizard_for_normal (st : WizardManager) (u name : string) (wz : ProjectWizard) :
  get_wizard_for st u = Normal (name, wz) ->
  wizards st name !! u = Some (Wiz wz).
Proof.
  rewrite get_wizard_for_eq.
  destruct (new st !! u) as [[|w1]|] eqn:Hn;
    destruct (edit st !! u) as [[|w2]|] eqn:He; intros [=]; subst; assumption.
Qed.

(** ** The invariant under the updates of the maps *)

Lemma shrinks_refl (st : WizardManager) : shrinks st st.
Proof. intros name u H. exact H. Qed.

Lemma shrinks_trans (st1 st2 st3 : WizardManager) :
  shrinks st1 st2 -> shrinks st2 st3 -> shrinks st1 st3.
Proof. intros H12 H23 name u H. apply H12, H23, H. Qed.

Lemma shrinks_at_most_one (st st' : WizardManager) :
  shrinks st st' -> at_most_one st -> at_most_one st'.
Proof.
  intros Hs Hinv u [Hn He]. apply (Hinv u). split; apply Hs; assumption.
Qed.

Lemma del_wizard_shrinks (name u : string) (st : WizardManager) :
  shrinks st (del_wizard name u st).
Proof.
  intros name' u'. unfold present, del_wizard, wizards.
  repeat case_decide; subst; simpl; try congruence; try done;
    intros [x Hx]; apply lookup_delete_Some in Hx as [_ Hx]; by exists x.
Qed.

(** [wizard.answer] changes a wizard in place: the keys stay. *)
Lemma set_wizard_present_shrinks (name u : string) (v : slot) (st : WizardManager) :
  present st name u -> shrinks st (set_wizard name u v st).
Proof.
  intros Hp name' u'. revert Hp. unfold present, set_wizard, wizards.
  repeat case_decide; subst; simpl; try congruence; try done;
    intros Hp [x Hx]; (destruct (decide (u = u')) as [->|Hne];
      [exact Hp | rewrite lookup_insert_ne in Hx by exact Hne; by exists x]).
Qed.

Lemma set_wizard_fresh (name u : string) (v : slot) (st : WizardManager) :
  has_open_wizard st u = false ->
  at_most_one st -> at_most_one (set_wizard name u v st).
Proof.
  intros Hno Hinv u'. apply has_open_wizard_false in Hno as [Hn He].
  specialize (Hinv u'). revert Hinv.
  unfold present, set_wizard, wizards.
  repeat case_decide; subst; simpl; try congruence; try done;
    intros Hinv [[x Hx] [y Hy]];
    (destruct (decide (u = u')) as [->|Hne];
     [rewrite ?He, ?Hn in *; discriminate
     | rewrite lookup_insert_ne in * by exact Hne; apply Hinv; split; eauto]).
Qed.

(** ** How the operations change the manager object *)

Section SelfRel.
Variable R : WizardManager -> WizardManager -> Prop.
Hypothesis R_refl : forall st, R st st.
Hypothesis R_trans : forall st1 st2 st3, R st1 st2 -> R st2 st3 -> R st1 st3.

Lemma self_rel_ret {A} (a : A) : self_rel R (ret a).
Proof using R_refl. intros w. apply R_refl. Qed.

Lemma self_rel_raise {A} (e : exn) : self_rel R (@raise world A e).
Proof using R_refl. intros w. apply R_refl. Qed.

Lemma self_rel_eval {A} (f : world -> outcome A) : self_rel R (eval f).
Proof using R_refl. intros w. apply R_refl. Qed.

Lemma self_rel_expr_stmt {A} (c : coroutine A) : self_rel R (expr_stmt c).
Proof using R_refl. intros w. apply R_refl. Qed.

Lemma self_rel_send_message (target content : string) :
  self_rel R (await (send_message target content)).
Proof using R_refl.
  intros w. simpl. destruct (faults w) as [|[e|] fs]; apply R_refl.
Qed.

Lemma self_rel_modify (f : WizardManager -> WizardManager) :
  (forall st, R st (f st)) -> self_rel R (modify_self f).
Proof. intros Hf w. apply Hf. Qed.

Lemma self_rel_bind {A B} (c : M world A) (k : A -> M world B) :
  self_rel R c -> (forall a, self_rel R (k a)) -> self_rel R (bind c k).
Proof using R_trans.
  intros Hc Hk w. unfold bind. specialize (Hc w).
  destruct (c w) as [[a|e|] w1]; simpl in Hc; try exact Hc.
  eapply R_trans; [exact Hc | apply Hk].
Qed.

Lemma self_rel_try_except {A} (body : M world A) (handler : exn -> option (M world A)) :
  self_rel R body ->
  (forall e h, handler e = Some h -> self_rel R h) ->
  self_rel R (try_except body handler).
Proof using R_trans.
  intros Hb Hh w. unfold try_except. specialize (Hb w).
  destruct (body w) as [[a|e|] w1]; simpl in Hb; try exact Hb.
  destruct (handler e) as [h|] eqn:He; [|exact Hb].
  eapply R_trans; [exact Hb | apply (Hh e h He)].
Qed.

Lemma self_rel_send_question (member : string) :
  self_rel R (await (send_question member)).
Proof using R_refl R_trans.
  simpl. apply self_rel_bind; [apply self_rel_eval|]. intros r.
  apply self_rel_bind; [apply self_rel_eval|]. intros q.
  apply self_rel_send_message.
Qed.

(** What follows the insertion in [create_new_wizard] and
    [create_edit_wizard]: the sends, and the [except] clause. *)
Lemma self_rel_announce (member msg : string) :
  self_rel R
    (try_except
       (await (send_message member msg) ;;; await (send_question member))%py
       (fun e =>
          if is_Exception e then
            Some (expr_stmt (cancel_wizards member) ;;; raise e)%py
          else None)).
Proof using R_refl R_trans.
  apply self_rel_try_except.
  - apply self_rel_bind; [apply self_rel_send_message|].
    intros _. apply self_rel_send_question.
  - intros e h. destruct (is_Exception e); intros [= <-].
    apply self_rel_bind; [apply self_rel_expr_stmt|].
    intros _. apply self_rel_raise.
Qed.
End SelfRel.

Lemma cancel_wizards_shrinks (names : list string) (member : string) :
  self_rel shrinks (cancel_wizards_loop names member).
Proof.
  induction names as [|name names IH]; cbn [cancel_wizards_loop].
  - apply self_rel_ret, shrinks_refl.
  - apply self_rel_bind; [apply shrinks_trans | | intros _; exact IH].
    intros w. destruct (wizards (self w) name !! member).
    + apply (self_rel_bind shrinks shrinks_trans).
      * apply self_rel_modify. intros st. apply del_wizard_shrinks.
      * intros _. apply self_rel_send_message, shrinks_refl.
    + apply shrinks_refl.
Qed.

Lemma close_wizard_shrinks (member : string) :
  self_rel shrinks (await (close_wizard member)).
Proof.
  simpl. apply self_rel_bind; [apply shrinks_trans | apply self_rel_eval, shrinks_refl |].
  intros [wiz_name wizard]. destruct (is_done wizard).
  - apply self_rel_bind; [apply shrinks_trans | |].
    + apply self_rel_modify. intros st. apply del_wizard_shrinks.
    + intros _. apply self_rel_bind; [apply shrinks_trans | |].
      * apply self_rel_send_message, shrinks_refl.
      * intros _. apply self_rel_ret, shrinks_refl.
  - apply self_rel_raise, shrinks_refl.
Qed.

Lemma process_answer_shrinks (author content : string) :
  self_rel shrinks (process_answer author content).
Proof.
  intros w. unfold process_answer, bind, eval.
  destruct (get_wizard_for (self w) author) as [[wiz_name wizard]|e|] eqn:Hget;
    try apply shrinks_refl.
  destruct (answer (env w) content wizard) as [wizard'|e|]; try apply shrinks_refl.
  simpl. apply set_wizard_present_shrinks.
  apply get_wizard_for_normal in Hget. by exists (Wiz wizard).
Qed.

(** The manager object after [create_new_wizard]: as before when the user
    has an open wizard, and with the fresh wizard in the map ['new']
    otherwise, whether or not the sends succeed. *)
Lemma create_new_wizard_self (member : string) (timestamp : Z) (w : world) :
  self (await (create_new_wizard member timestamp) w).2 =
    if has_open_wizard (self w) member then self w
    else set_wizard "new" member (Wiz (new_wizard member timestamp)) (self w).
Proof.
  unfold create_new_wizard. cbn [await].
  destruct (has_open_wizard (self w) member); [reflexivity|].
  unfold bind at 1. cbn [modify_self].
  match goal with
  | |- self (_ ?w1).2 = _ =>
      exact (eq_sym (self_rel_announce eq (fun st => eq_refl)
                       (fun a b c => @eq_trans _ a b c) member start_msg w1))
  end.
Qed.

Lemma create_edit_wizard_self (member : string) (timestamp : Z) (proj_title : string)
    (w : world) :
  exists wz : ProjectWizard,
    self (await (create_edit_wizard member timestamp proj_title) w).2 =
      if has_open_wizard (self w) member then self w
      else set_wizard "edit" member (Wiz wz) (self w).
Proof.
  eexists. unfold create_edit_wizard. cbn [await].
  destruct (has_open_wizard (self w) member); [reflexivity|].
  unfold bind at 1. cbn [modify_self].
  match goal with
  | |- self (_ ?w1).2 = _ =>
      exact (eq_sym (self_rel_announce eq (fun st => eq_refl)
                       (fun a b c => @eq_trans _ a b c) member
                       (start_edit_msg_fmt proj_title) w1))
  end.
Qed.

Lemma init_at_most_one : at_most_one init.
Proof.
  intros u [[x Hx] _]. change (init.(new) !! u = Some x) in Hx.
  simpl in Hx. rewrite lookup_empty in Hx. discriminate.
Qed.

(** C6: every operation of the manager keeps each user id in at most one
    of the maps ['new'] and ['edit'], whether the operation returns or
    raises; and [has_open_wizard] is true exactly when the user id is a key
    of one of the two maps. *)
Theorem manager_invariant (w : world) (member : string) :
  at_most_one (self w) ->
  (forall timestamp : Z,
     at_most_one (self (await (create_new_wizard member timestamp) w).2))
  /\ (forall (timestamp : Z) (proj_title : string),
       at_most_one (self (await (create_edit_wizard member timestamp proj_title) w).2))
  /\ (forall content : string,
       at_most_one (self (process_answer member content w).2))
  /\ at_most_one (self (await (close_wizard member) w).2)
  /\ at_most_one (self (await (cancel_wizards member) w).2)
  /\ (forall (st : WizardManager) (u : string),
       has_open_wizard st u = true <-> present st "new" u \/ present st "edit" u).
Proof.
  intros Hinv. repeat split.
  - intros timestamp. rewrite create_new_wizard_self.
    destruct (has_open_wizard (self w) member) eqn:Hopen; [exact Hinv|].
    by apply set_wizard_fresh.
  - intros timestamp proj_title.
    destruct (create_edit_wizard_self member timestamp proj_title w) as (wz & ->).
    destruct (has_open_wizard (self w) member) eqn:Hopen; [exact Hinv|].
    by apply set_wizard_fresh.
  - intros content.
    apply (shrinks_at_most_one (self w)); [apply process_answer_shrinks | exact Hinv].
  - apply (shrinks_at_most_one (self w)); [apply close_wizard_shrinks | exact Hinv].
  - apply (shrinks_at_most_one (self w)); [apply cancel_wizards_shrinks | exact Hinv].
  - apply has_open_wizard_true.
  - apply has_open_wizard_true.
Qed.

Lemma manager_invariant_witness :
  at_most_one
    (self (world_of {| new := {["u" := Wiz (done_wizard "u")]}; edit := ∅ |} []))
  /\ at_most_one
       (self (await (close_wizard "u")
                (world_of {| new := {["u" := Wiz (done_wizard "u")]}; edit := ∅ |} [])).2)
  /\ at_most_one
       (self (await (cancel_wizards "u")
                (world_of {| new := {["u" := Wiz (done_wizard "u")]}; edit := ∅ |} [])).2).
Proof.
  assert (H : at_most_one
    (self (world_of {| new := {["u" := Wiz (done_wizard "u")]}; edit := ∅ |} []))).
  { intros u [_ [y Hy]]. change ((∅ : gmap string slot) !! u = Some y) in Hy.
    rewrite lookup_empty in Hy. discriminate. }
  split; [exact H|].
  pose proof (manager_invariant _ "u" H) as (_ & _ & _ & Hclose & Hcancel & _).
  exact (conj Hclose Hcancel).
Defined.

(** ** create_new_wizard *)

Lemma create_new_wizard_already_open (member : string) (timestamp : Z) (w : world) :
  has_open_wizard (self w) member = true ->
  await (create_new_wizard member timestamp) w =
    (Raised (CommandError "You already have an ongoing wizard!"), w).
Proof.
  intros Hopen. unfold create_new_wizard. cbn [await]. rewrite Hopen. reflexivity.
Qed.

Lemma delivers_cons (k : nat) (w : world) (r : option exn) (fs : list (option exn)) :
  faults w = r :: fs -> delivers (S k) w -> r = None /\ Forall (fun r => r = None) (take k fs).
Proof.
  unfold delivers. intros ->. cbn [take]. intros H. by inversion H.
Qed.

Lemma question_new_wizard (b : backend) (member : string) (timestamp : Z) :
  question b (new_wizard member timestamp) = Normal "What is your project's title?".
Proof. reflexivity. Qed.

Lemma get_wizard_for_fresh (st : WizardManager) (member : string) (wz : ProjectWizard) :
  get_wizard_for (set_wizard "new" member (Wiz wz) st) member = Normal ("new", wz).
Proof.
  rewrite get_wizard_for_eq.
  change (new (set_wizard "new" member (Wiz wz) st)) with (<[member := Wiz wz]> (new st)).
  by rewrite lookup_insert_eq.
Qed.

(** When both sends succeed the wizard is in the map ['new'] and the start
    prompt, then the first question, have been sent. *)
Lemma create_new_wizard_ok (member : string) (timestamp : Z) (w : world) :
  has_open_wizard (self w) member = false ->
  delivers 2 w ->
  (await (create_new_wizard member timestamp) w).1 = Normal tt
  /\ self (await (create_new_wizard member timestamp) w).2 =
       set_wizard "new" member (Wiz (new_wizard member timestamp)) (self w)
  /\ sent (await (create_new_wizard member timestamp) w).2 =
       sent w ++ [(member, start_msg); (member, "What is your project's title?")].
Proof.
  intros Hopen Hdel.
  split; [|split; [rewrite create_new_wizard_self, Hopen; reflexivity|]].
  all: unfold create_new_wizard; cbn [await]; rewrite Hopen;
    unfold bind at 1; cbn [modify_self];
    unfold try_except, bind, send_question, await, send_message, bind, eval;
    cbn [self sent faults env];
    destruct (faults w) as [|r1 fs] eqn:Hf; [|
      destruct (delivers_cons 1 w r1 fs Hf Hdel) as [-> Hfs];
      destruct fs as [|r2 fs]; [|inversion Hfs; subst]];
    cbn [self sent faults env];
    rewrite get_wizard_for_fresh; cbn [snd]; rewrite question_new_wizard;
    cbn [self sent faults env fst snd]; rewrite <- ?app_assoc; reflexivity.
Qed.

(** C7, the code against the claim: when a send of [create_new_wizard]
    fails (the start prompt, or the first question after it), the exception
    reaches the caller but the wizard inserted before the sends is still in
    the map ['new']: [self.cancel_wizards(member)] in the [except] clause is
    not awaited, so the body of that coroutine never runs, and the user is
    left with an open wizard. *)
Theorem create_new_wizard_failed_send (w : world) (member : string) (timestamp : Z)
    (e : exn) (fs : list (option exn)) :
  has_open_wizard (self w) member = false ->
  faults w = Some e :: fs \/ faults w = None :: Some e :: fs ->
  (await (create_new_wizard member timestamp) w).1 = Raised e
  /\ new (self (await (create_new_wizard member timestamp) w).2) !! member =
       Some (Wiz (new_wizard member timestamp))
  /\ has_open_wizard (self (await (create_new_wizard member timestamp) w).2) member = true.
Proof.
  intros Hopen Hf.
  assert (Hnew : new (self (await (create_new_wizard member timestamp) w).2) !! member =
                   Some (Wiz (new_wizard member timestamp))).
  { rewrite create_new_wizard_self, Hopen.
    change (new (set_wizard "new" member (Wiz (new_wizard member timestamp)) (self w)))
      with (<[member := Wiz (new_wizard member timestamp)]> (new (self w))).
    by rewrite lookup_insert_eq. }
  split; [|split; [exact Hnew|]].
  - unfold create_new_wizard; cbn [await]; rewrite Hopen;
      unfold bind at 1; cbn [modify_self];
      unfold try_except, bind, send_question, await, send_message, bind, eval;
      cbn [self sent faults env].
    destruct Hf as [-> | ->]; cbn [self sent faults env].
    + destruct (is_Exception e); reflexivity.
    + rewrite get_wizard_for_fresh; cbn [snd]; rewrite question_new_wizard.
      cbn [self sent faults env fst snd].
      destruct (is_Exception e); reflexivity.
  - apply has_open_wizard_true. left. unfold present.
    change (wizards ?st "new") with (new st). rewrite Hnew. by eexists.
Qed.

Lemma create_new_wizard_failed_send_witness :
  (await (create_new_wizard "u" 7)
     (world_of init [Some (OtherException "Forbidden")])).1
    = Raised (OtherException "Forbidden")
  /\ has_open_wizard
       (self (await (create_new_wizard "u" 7)
                (world_of init [Some (OtherException "Forbidden")])).2) "u" = true.
Proof.
  pose proof (create_new_wizard_failed_send
                (world_of init [Some (OtherException "Forbidden")]) "u" 7
                (OtherException "Forbidden") [] eq_refl (or_introl eq_refl))
    as (Hout & _ & Hopen).
  exact (conj Hout Hopen).
Defined.

(** [create_edit_wizard] has the same [except] clause: after a failed send
    the wizard stays in the map ['edit']. *)
Example create_edit_wizard_failed_send :
  (await (create_edit_wizard "u" 7 "My Book")
     (world_of init [Some (OtherException "Forbidden")])).1
    = Raised (OtherException "Forbidden")
  /\ has_open_wizard
       (self (await (create_edit_wizard "u" 7 "My Book")
                (world_of init [Some (OtherException "Forbidden")])).2) "u" = true.
Proof. split; reflexivity. Qed.

(** ** close_wizard *)

Lemma del_wizard_gone (st : WizardManager) (name u : string) :
  at_most_one st ->
  present st name u ->
  wizards (del_wizard name u st) name !! u = None
  /\ has_open_wizard (del_wizard name u st) u = false.
Proof.
  intros Hinv Hp. specialize (Hinv u).
  destruct (present_name st name u Hp) as [-> | ->].
  - change (wizards (del_wizard "new" u st) "new") with (delete u (new st)).
    split; [apply lookup_delete_eq|].
    apply has_open_wizard_false.
    change (delete u (new st) !! u = None /\ edit st !! u = None).
    split; [apply lookup_delete_eq|].
    apply eq_None_not_Some. intros He. apply Hinv. by split.
  - change (wizards (del_wizard "edit" u st) "edit") with (delete u (edit st)).
    split; [apply lookup_delete_eq|].
    apply has_open_wizard_false.
    change (new st !! u = None /\ delete u (edit st) !! u = None).
    split; [|apply lookup_delete_eq].
    apply eq_None_not_Some. intros Hn. apply Hinv. by split.
Qed.

(** The run of [close_wizard] for a user whose wizard is found. *)
Lemma close_wizard_run (w : world) (member name : string) (wizard : ProjectWizard) :
  get_wizard_for (self w) member = Normal (name, wizard) ->
  await (close_wizard member) w =
    if is_done wizard then
      match faults w with
      | Some e :: fs =>
          (Raised e,
           {| self := del_wizard name member (self w); sent := sent w;
              faults := fs; env := env w |})
      | None :: fs =>
          (Normal (name, wizard),
           {| self := del_wizard name member (self w);
              sent := sent w ++ [(member, end_msg)]; faults := fs; env := env w |})
      | [] =>
          (Normal (name, wizard),
           {| self := del_wizard name member (self w);
              sent := sent w ++ [(member, end_msg)]; faults := []; env := env w |})
      end
    else (Raised (KeyError "Wizard for user {} not completed yet"), w).
Proof.
  intros Hget. unfold close_wizard. cbn [await]. unfold bind at 1, eval.
  rewrite Hget. destruct (is_done wizard); [|reflexivity].
  unfold bind, modify_self, await, send_message, ret. cbn [self sent faults env].
  destruct (faults w) as [|[e|] fs]; reflexivity.
Qed.

(** C8: for a user whose wizard [wizard] is held by the map of kind
    [name], [close_wizard] raises the "not completed yet" [KeyError] and
    changes nothing when the wizard is not done; when it is done, the
    wizard is deleted from its map, after which the user has no open
    wizard, and, the completion message being delivered, the call returns
    [(name, wizard)]. *)
Theorem close_wizard_spec (w : world) (member name : string) (wizard : ProjectWizard) :
  at_most_one (self w) ->
  wizards (self w) name !! member = Some (Wiz wizard) ->
  (is_done wizard = false ->
     await (close_wizard member) w =
       (Raised (KeyError "Wizard for user {} not completed yet"), w))
  /\ (is_done wizard = true ->
       self (await (close_wizard member) w).2 = del_wizard name member (self w)
       /\ wizards (self (await (close_wizard member) w).2) name !! member = None
       /\ has_open_wizard (self (await (close_wizard member) w).2) member = false
       /\ (delivers 1 w ->
           (await (close_wizard member) w).1 = Normal (name, wizard)
           /\ sent (await (close_wizard member) w).2 = sent w ++ [(member, end_msg)])).
Proof.
  intros Hinv Hlook.
  pose proof (get_wizard_for_found _ _ _ _ Hinv Hlook) as Hget.
  assert (Hp : present (self w) name member) by (by exists (Wiz wizard)).
  rewrite (close_wizard_run w member name wizard Hget).
  split; intros Hdone; rewrite Hdone.
  - reflexivity.
  - destruct (del_wizard_gone _ _ _ Hinv Hp) as [Hgone Hclosed].
    destruct (faults w) as [|[e|] fs] eqn:Hf; cbn [fst snd self sent];
      (split; [reflexivity|split; [exact Hgone|split; [exact Hclosed|]]]);
      intros Hdel; try (split; reflexivity).
    destruct (delivers_cons 0 w _ _ Hf Hdel) as [[=] _].
Qed.

Lemma close_wizard_spec_witness :
  await (close_wizard "u")
    (world_of {| new := ∅; edit := {["u" := Wiz (new_wizard "u" 7)]} |} []) =
    (Raised (KeyError "Wizard for user {} not completed yet"),
     world_of {| new := ∅; edit := {["u" := Wiz (new_wizard "u" 7)]} |} [])
  /\ (await (close_wizard "u")
        (world_of {| new := {["u" := Wiz (done_wizard "u")]}; edit := ∅ |} [])).1 =
       Normal ("new", done_wizard "u").
Proof.
  split.
  - apply (proj1 (close_wizard_spec
      (world_of {| new := ∅; edit := {["u" := Wiz (new_wizard "u" 7)]} |} [])
      "u" "edit" (new_wizard "u" 7)
      ltac:(intros u [[x Hx] _]; change ((∅ : gmap string slot) !! u = Some x) in Hx;
            rewrite lookup_empty in Hx; discriminate)
      eq_refl)).
    reflexivity.
  - apply (proj2 (close_wizard_spec
      (world_of {| new := {["u" := Wiz (done_wizard "u")]}; edit := ∅ |} [])
      "u" "new" (done_wizard "u")
      ltac:(intros u [_ [x Hx]]; change ((∅ : gmap string slot) !! u = Some x) in Hx;
            rewrite lookup_empty in Hx; discriminate)
      eq_refl)).
    + reflexivity.
    + constructor.
Defined.

(** ** cancel_wizards *)


(** The run of [cancel_wizards] when the notices are delivered. *)
Lemma cancel_wizards_run (w : world) (member : string) :
  delivers 2 w ->
  (await (cancel_wizards member) w).1 = Normal tt
  /\ new (self (await (cancel_wizards member) w).2) = delete member (new (self w))
  /\ edit (self (await (cancel_wizards member) w).2) = delete member (edit (self w))
  /\ sent (await (cancel_wizards member) w).2 =
       sent w ++ cancel_notices (self w) member.
Proof.
  intros Hdel. unfold cancel_notices.
  unfold cancel_wizards. cbn [await cancel_wizards_loop wizards_keys].
  unfold bind, ret, modify_self, await, send_message. cbn [self sent faults env].
  change (wizards (self w) "new") with (new (self w)).
  destruct (new (self w) !! member) as [v|] eqn:Hn.
  - destruct (faults w) as [|r1 fs] eqn:Hf;
      [| destruct (delivers_cons 1 w r1 fs Hf Hdel) as [-> Hfs] ];
      cbn [self sent faults env];
      change (wizards (del_wizard "new" member (self w)) "edit") with (edit (self w));
      (destruct (edit (self w) !! member) as [v'|] eqn:He;
       [ try (destruct fs as [|r2 fs]; [|inversion Hfs; subst])
       | rewrite (delete_id (edit (self w))) by exact He ]);
      cbn [self sent faults env new edit fst snd del_wizard];
      rewrite <- ?app_assoc, ?app_nil_r; repeat split; reflexivity.
  - rewrite (delete_id (new (self w))) by exact Hn.
    change (wizards (self w) "edit") with (edit (self w)).
    destruct (edit (self w) !! member) as [v'|] eqn:He.
    + destruct (faults w) as [|r1 fs] eqn:Hf;
        [| destruct (delivers_cons 1 w r1 fs Hf Hdel) as [-> Hfs] ];
        cbn [self sent faults env new edit fst snd del_wizard];
        repeat split; reflexivity.
    + rewrite (delete_id (edit (self w))) by exact He.
      cbn [fst snd]. rewrite app_nil_r. repeat split; reflexivity.
Qed.



(** Had the [except] clause of [create_new_wizard] awaited the coroutine,
    the half-open wizard would be gone: awaiting [cancel_wizards] after a
    failed send leaves the user without an open wizard. *)
Lemma cancel_after_failed_send (w : world) (member : string) (timestamp : Z) :
  delivers 2 (await (create_new_wizard member timestamp) w).2 ->
  has_open_wizard
    (self (await (cancel_wizards member)
             (await (create_new_wizard member timestamp) w).2).2) member = false.
Proof.
  intros Hdel.
  destruct (cancel_wizards_run _ member Hdel) as (_ & Hnew & Hedit & _).
  apply has_open_wizard_false. rewrite Hnew, Hedit. split; apply lookup_delete_eq.
Qed.

(** ** A map that holds None *)

(** C10, as the code has it: in a state of the manager in which a map
    holds [None] for the user, [has_open_wizard] is true. [get_wizard_for]
    raises the "does not have an active wizard" [KeyError] exactly when no
    map holds a wizard for the user, as in every state in which the user is
    in at most one map; [process_answer] then raises it too and changes
    nothing. When the other map holds a wizard, [get_wizard_for] passes
    over the [None] and returns that wizard. *)
Theorem none_entry_open_but_absent (w : world) (member content : string) :
  new (self w) !! member = Some PyNone \/ edit (self w) !! member = Some PyNone ->
  has_open_wizard (self w) member = true
  /\ (get_wizard_for (self w) member =
        Raised (KeyError "Member {} does not have an active wizard")
      <-> (forall wz, new (self w) !! member <> Some (Wiz wz))
          /\ (forall wz, edit (self w) !! member <> Some (Wiz wz)))
  /\ (at_most_one (self w) ->
      get_wizard_for (self w) member =
        Raised (KeyError "Member {} does not have an active wizard"))
  /\ (get_wizard_for (self w) member =
        Raised (KeyError "Member {} does not have an active wizard") ->
      process_answer member content w =
        (Raised (KeyError "Member {} does not have an active wizard"), w))
  /\ (forall wz : ProjectWizard,
        (new (self w) !! member = Some PyNone ->
         edit (self w) !! member = Some (Wiz wz) ->
         get_wizard_for (self w) member = Normal ("edit", wz))
        /\ (new (self w) !! member = Some (Wiz wz) ->
            get_wizard_for (self w) member = Normal ("new", wz))).
Proof.
  intros Hnone.
  split; [|split; [|split; [|split]]].
  - apply has_open_wizard_true.
    destruct Hnone as [Hn | He]; [left | right]; by exists PyNone.
  - rewrite get_wizard_for_eq. split.
    + intros Hget. split; intros wz Hwz; rewrite Hwz in Hget; [discriminate|].
      destruct (new (self w) !! member) as [[|wz']|]; discriminate.
    + intros [Hn He].
      destruct (new (self w) !! member) as [[|wz]|] eqn:En;
        [|by destruct (Hn wz)|];
        (destruct (edit (self w) !! member) as [[|wz]|] eqn:Ee;
           [|by destruct (He wz)|]); reflexivity.
  - intros Hinv. rewrite get_wizard_for_eq. specialize (Hinv member).
    destruct Hnone as [Hn | He].
    + rewrite Hn. destruct (edit (self w) !! member) as [v|] eqn:He; [|reflexivity].
      exfalso. apply Hinv. split; [by exists PyNone | by exists v].
    + rewrite He. destruct (new (self w) !! member) as [v|] eqn:Hn; [|reflexivity].
      exfalso. apply Hinv. split; [by exists v | by exists PyNone].
  - intros Hget. unfold process_answer, bind, eval. rewrite Hget. reflexivity.
  - intros wz. rewrite get_wizard_for_eq. split.
    + by intros -> ->.
    + by intros ->.
Qed.

Lemma none_entry_open_but_absent_witness :
  has_open_wizard (self (world_of {| new := {["u" := PyNone]}; edit := ∅ |} [])) "u" = true
  /\ get_wizard_for (self (world_of {| new := {["u" := PyNone]}; edit := ∅ |} [])) "u" =
       Raised (KeyError "Member {} does not have an active wizard")
  /\ process_answer "u" "My Book" (world_of {| new := {["u" := PyNone]}; edit := ∅ |} []) =
       (Raised (KeyError "Member {} does not have an active wizard"),
        world_of {| new := {["u" := PyNone]}; edit := ∅ |} []).
Proof.
  destruct (none_entry_open_but_absent
              (world_of {| new := {["u" := PyNone]}; edit := ∅ |} []) "u" "My Book")
    as (Hopen & _ & Hinv & Hproc & _).
  - left. reflexivity.
  - assert (Hget : get_wizard_for
                     (self (world_of {| new := {["u" := PyNone]}; edit := ∅ |} [])) "u" =
                   Raised (KeyError "Member {} does not have an active wizard")).
    { apply Hinv. intros u [_ [x Hx]].
      change ((∅ : gmap string slot) !! u = Some x) in Hx.
      rewrite lookup_empty in Hx. discriminate. }
    split; [exact Hopen|]. split; [exact Hget | exact (Hproc Hget)].
Defined.

(** C10, as the spec states it, fails outside the invariant: with [None]
    in ['new'] and a wizard in ['edit'], a map holds [None] for the user,
    yet [get_wizard_for] finds the wizard and [process_answer] goes
    through. *)
Lemma none_entry_then_wizard :
  new (self (world_of {| new := {["u" := PyNone]};
                         edit := {["u" := Wiz (new_wizard "u" 7)]} |} [])) !! "u"
    = Some PyNone
  /\ get_wizard_for
       {| new := {["u" := PyNone]}; edit := {["u" := Wiz (new_wizard "u" 7)]} |} "u"
     = Normal ("edit", new_wizard "u" 7)
  /\ (process_answer "u" "My Book"
        (world_of {| new := {["u" := PyNone]};
                     edit := {["u" := Wiz (new_wizard "u" 7)]} |} [])).1 = Normal tt.
Proof. repeat split; reflexivity. Qed.

End WizardFacts.

(** * Further properties of runner.py *)

Module RunnerMore.
Import Runner.
Import RunnerFacts.

(** ** Backoff *)

Section BackoffMore.
Context `{FloatPow}.

Lemma do_call_fields (c : backoff_call) (b : Backoff) :
  t0 (do_call c b) = t0 b /\ max (do_call c b) = max b /\ base (do_call c b) = base b.
Proof.
  destruct c as [r|]; simpl; [|auto].
  unfold next. destruct (n b <? max b); [destruct (float_pow (base b) (n b))|];
    simpl; auto.
Qed.

Lemma do_call_inv (c : backoff_call) (b : Backoff) :
  0 <= max b -> backoff_inv b -> backoff_inv (do_call c b).
Proof.
  unfold backoff_inv. intros Hmax Hinv. destruct c as [r|]; simpl; [|lia].
  unfold next. destruct (n b <? max b) eqn:Hlt; [|exact Hinv].
  apply Z.ltb_lt in Hlt. destruct (float_pow (base b) (n b)); simpl; lia.
Qed.

(** Whatever calls of [next] and [reset] are made on a back-off, in any
    order and whether or not a [next] raises, the number of attempts stays
    between 0 and the maximum, and the three parameters stay as they
    were. *)
Theorem backoff_invariant (cs : list backoff_call) (b : Backoff) :
  backoff_inv b ->
  backoff_inv (do_calls cs b)
  /\ t0 (do_calls cs b) = t0 b
  /\ max (do_calls cs b) = max b
  /\ base (do_calls cs b) = base b.
Proof.
  revert b. induction cs as [|c cs IH]; intros b Hinv; simpl.
  - auto.
  - assert (Hmax : 0 <= max b) by (unfold backoff_inv in Hinv; lia).
    destruct (do_call_fields c b) as (Ht & Hm & Hb).
    destruct (IH (do_call c b) (do_call_inv c b Hmax Hinv)) as (H1 & H2 & H3 & H4).
    unfold do_calls in *. simpl. repeat split; try apply H1; congruence.
Qed.

End BackoffMore.

Section BackoffMoreSamples.
#[local] Existing Instance product_pow.

Lemma backoff_invariant_witness :
  backoff_inv
    (do_calls [CallNext 0; CallNext 1000; CallNext 5; CallReset; CallNext 7]
       (init 3 1.58 2)).
Proof.
  apply (backoff_invariant
           [CallNext 0; CallNext 1000; CallNext 5; CallReset; CallNext 7]
           (init 3 1.58 2)).
  unfold backoff_inv. simpl. lia.
Defined.

End BackoffMoreSamples.

(** ** run_reboot_loop *)

Section LoopMore.
Context `{FloatPow}.

(** However [run_reboot_loop] ends (by [sys.exit], by an exception it
    re-raises or lets through, or by returning after an interrupt), the
    log has only grown, and its last entries are the "Exiting." message and
    the closing of the event loop. *)
Theorem reboot_loop_closes_event_loop (bo : Backoff) (its : list iteration) (w : world) :
  (run_reboot_loop_with bo its w).1 <> Running ->
  exists pre : list event,
    (run_reboot_loop_with bo its w).2 = w ++ pre ++ [Log INFO "Exiting."; LoopClose].
Proof.
  unfold run_reboot_loop_with, bind. cbn [emit]. unfold try_finally.
  pose proof (emits_try_except (fun _ => True) _ _
                (while_true_emits its bo 0%float) reboot_handler_emits
                (w ++ [Log INFO "Welcome to KazTron v{}, booting up..."]))
    as (evs & Hw & _).
  destruct (try_except (while_true its bo 0%float) reboot_handler _) as [[[]|e|] w1];
    simpl in Hw; subst w1; cbn [fst snd emit]; intros Hrun; try congruence;
    exists ([Log INFO "Welcome to KazTron v{}, booting up..."] ++ evs);
    rewrite <- !app_assoc; reflexivity.
Qed.

Lemma sleeps_app (w1 w2 : world) : sleeps (w1 ++ w2) = sleeps w1 ++ sleeps w2.
Proof. unfold sleeps. apply flat_map_app. Qed.

Lemma sleeps_session_events (evs : list event) :
  Forall session_event evs -> sleeps evs = [].
Proof.
  induction 1 as [|ev evs Hev _ IH]; [reflexivity|].
  unfold sleeps in *. simpl. rewrite IH. destruct ev; simpl in Hev; done.
Qed.

Lemma sleeps_step (w evs : world) (wait_time tn : float) (k : Z) :
  Forall session_event evs ->
  sleeps (w ++ [CallLater wait_time k] ++ evs ++ retry_calls tn
            ++ [Log INFO "Restarting bot..."]) = sleeps w ++ [tn].
Proof.
  intros Hevs. rewrite !sleeps_app, (sleeps_session_events evs Hevs). reflexivity.
Qed.

(** While attempts are left, the powers are in range and nothing resets
    the back-off, the loop sleeps after each failed session exactly the
    delay [next] computes: the sleeps added to the log are
    [t0 * base ** i + jitter_i] for the attempts [i = n, n+1, ...], and the
    loop is still going. *)
Theorem reboot_loop_sleeps_backoff (its : list iteration) :
  forall (bo : Backoff) (wait_time : float) (w : world) (ds : list float),
    Forall (fun it => returns it /\ timer_fires it = false /\ sleep it = None) its ->
    n bo + Z.of_nat (length its) <= max bo ->
    delays_from bo (n bo) (draw <$> its) = Some ds ->
    (while_true its bo wait_time w).1 = Running
    /\ sleeps (while_true its bo wait_time w).2 = sleeps w ++ ds.
Proof.
  induction its as [|it rest IH]; intros bo wait_time w ds Hits Hlen Hds.
  - injection Hds as <-. simpl. rewrite app_nil_r. auto.
  - apply Forall_cons in Hits as [(Hret & Hfire & Hsleep) Hrest].
    cbn [length] in Hlen. rewrite Nat2Z.inj_succ in Hlen.
    change (draw <$> it :: rest) with (draw it :: (draw <$> rest)) in Hds.
    cbn [delays_from] in Hds.
    destruct (float_pow (base bo) (n bo)) as [p|cls] eqn:Hp; [|discriminate].
    destruct (delays_from bo (n bo + 1) (draw <$> rest)) as [ds'|] eqn:Hds';
      [|discriminate].
    injection Hds as <-.
    destruct (while_true_step it bo wait_time w Hret) as (evs & Hevs & Hstep).
    rewrite Hstep.
    unfold after_session. rewrite Hfire, Hsleep.
    rewrite (next_ok _ bo p) by (lia || exact Hp).
    match goal with
    | |- context [while_true rest ?b ?t ?w1] =>
        destruct (IH b t w1 ds' Hrest) as [Hout Hlog];
          [cbn [n max]; lia
          |cbn [n]; rewrite (delays_from_ext bo) by reflexivity; exact Hds'|]
    end.
    split; [exact Hout|].
    rewrite Hlog, sleeps_step by exact Hevs.
    rewrite <- app_assoc. reflexivity.
Qed.

(** When every session stays up until the scheduled reset fires, the
    back-off never runs out, however many sessions fail: with at least one
    attempt allowed the loop is still going after any number of
    iterations, and every sleep is the first delay, [t0 * base ** 0] plus
    jitter, where [base ** 0] is [1.0]. *)
Theorem reboot_loop_stable_sessions (its : list iteration) :
  forall (bo : Backoff) (wait_time : float) (w : world),
    Forall (fun it => returns it /\ timer_fires it = true /\ sleep it = None) its ->
    1 <= max bo ->
    (while_true its bo wait_time w).1 = Running
    /\ sleeps (while_true its bo wait_time w).2 =
         sleeps w ++ ((fun it => (t0 bo * 1 + jitter (draw it))%float) <$> its).
Proof.
  induction its as [|it rest IH]; intros bo wait_time w Hits Hmax.
  - simpl. rewrite app_nil_r. auto.
  - apply Forall_cons in Hits as [(Hret & Hfire & Hsleep) Hrest].
    destruct (while_true_step it bo wait_time w Hret) as (evs & Hevs & Hstep).
    rewrite Hstep.
    unfold after_session. rewrite Hfire, Hsleep, reset_in_loop_applies.
    rewrite (next_ok _ (reset bo) 1%float) by (simpl; lia || apply float_pow_0).
    match goal with
    | |- context [while_true rest ?b ?t ?w1] =>
        destruct (IH b t w1 Hrest) as [Hout Hlog]; [simpl; lia|]
    end.
    split; [exact Hout|].
    rewrite Hlog, sleeps_step by exact Hevs.
    cbn [fmap list_fmap n t0 base reset].
    rewrite <- app_assoc. reflexivity.
Qed.

(** ** Faults before the connection phase *)

(** An extension that fails to load with an [Exception] ends [run] by
    [sys.exit(ErrorCodes.EXTENSION_LOAD)] right there: the extensions after
    it are not loaded, there is no login, no teardown and no write of the
    state, and the reboot loop does not retry but ends with that status. *)
Theorem run_extension_failure (s : session) (pre post : list (string * option exn))
    (name : string) (e : exn) :
  startup s = None ->
  extensions s = pre ++ (name, Some e) :: post ->
  Forall (fun x => x.2 = None) pre ->
  is_Exception e = true ->
  (forall w : world,
     run s w =
       (Raised (SystemExit ErrorCodes.EXTENSION_LOAD),
        w ++ [StaticInit] ++ extension_calls pre ++
          [Log DEBUG "Loading extension: {}"; LoadExtension ("kaztron.cog." ++ name);
           Log EXCEPTION "Failed to load extension {}"]))
  /\ (forall (it : iteration) (rest : list iteration) (bo : Backoff) (w : world),
       sess it = s ->
       (run_reboot_loop_with bo (it :: rest) w).1 =
         Raised (SystemExit ErrorCodes.EXTENSION_LOAD)).
Proof.
  intros Hs Hext Hpre He.
  assert (Hrun : forall w : world,
     run s w =
       (Raised (SystemExit ErrorCodes.EXTENSION_LOAD),
        w ++ [StaticInit] ++ extension_calls pre ++
          [Log DEBUG "Loading extension: {}"; LoadExtension ("kaztron.cog." ++ name);
           Log EXCEPTION "Failed to load extension {}"])).
  { intros w. unfold run.
    unfold bind at 1, call at 1, bind at 1, emit at 1. rewrite Hs. cbn [answer_of ret].
    unfold bind at 1. rewrite Hext, load_extensions_fails by exact Hpre.
    rewrite He, <- app_assoc. reflexivity. }
  split; [exact Hrun|].
  intros it rest bo w <-.
  apply (reboot_loop_exit bo (it :: rest) w (SystemExit ErrorCodes.EXTENSION_LOAD)).
  apply while_true_session_raises.
  intros w1. rewrite Hrun. reflexivity.
Qed.

(** An exception of the start-up code of [run] (configuration, creation of
    the bot, core extension) leaves [run] at once, with no teardown and no
    write of the state; the reboot loop does not retry. It re-raises an
    [Exception], lets a [SystemExit] through, and, since its [except]
    clauses do not tell where an exception comes from, reports a
    [StopIteration] as the retry limit and returns on a
    [KeyboardInterrupt]. *)
Theorem run_startup_fault (it : iteration) (rest : list iteration) (e : exn) :
  startup (sess it) = Some e ->
  (forall w : world, run (sess it) w = (Raised e, w ++ [StaticInit]))
  /\ (forall (bo : Backoff) (w : world),
       (run_reboot_loop_with bo (it :: rest) w).1 = loop_exit e).
Proof.
  intros Hs.
  assert (Hrun : forall w : world, run (sess it) w = (Raised e, w ++ [StaticInit])).
  { intros w. unfold run. unfold bind at 1, call at 1, bind at 1, emit at 1.
    rewrite Hs. reflexivity. }
  split; [exact Hrun|].
  intros bo w. apply reboot_loop_exit.
  apply while_true_session_raises.
  intros w1. rewrite Hrun. reflexivity.
Qed.

(** An interrupt that arrives while the loop sleeps between two sessions
    is caught by the loop itself: [run_reboot_loop] logs it and returns to
    its caller, with no [sys.exit] (unlike an interrupt inside a session,
    which exits with [OK]), and no further session is started. The sleep
    is reached when an attempt is left and the power is in range. *)
Theorem reboot_loop_sleep_interrupt (it : iteration) (rest : list iteration)
    (bo : Backoff) (w : world) (p : float) :
  returns it ->
  n (after_session it bo) < max (after_session it bo) ->
  float_pow (base (after_session it bo)) (n (after_session it bo)) = Pow p ->
  sleep it = Some KeyboardInterrupt ->
  (run_reboot_loop_with bo (it :: rest) w).1 = Normal tt
  /\ run_reboot_loop_with bo (it :: rest) w = run_reboot_loop_with bo [it] w.
Proof.
  intros Hret Hn Hp Hsleep.
  destruct (while_true_step it bo 0%float
              (w ++ [Log INFO "Welcome to KazTron v{}, booting up..."]) Hret)
    as (evs & _ & Hstep).
  assert (Hall : forall rest',
    while_true (it :: rest') bo 0%float
      (w ++ [Log INFO "Welcome to KazTron v{}, booting up..."]) =
    (Raised KeyboardInterrupt,
     (w ++ [Log INFO "Welcome to KazTron v{}, booting up..."])
       ++ [CallLater 0%float (n bo)] ++ evs
       ++ retry_calls (t0 (after_session it bo) * p + jitter (draw it))%float)).
  { intros rest'. rewrite Hstep, (next_ok _ _ p) by (exact Hn || exact Hp).
    rewrite Hsleep. reflexivity. }
  split.
  - apply (reboot_loop_exit bo (it :: rest) w KeyboardInterrupt).
    rewrite Hall. reflexivity.
  - unfold run_reboot_loop_with, bind, try_finally, try_except. cbn [emit].
    rewrite (Hall rest), (Hall []). reflexivity.
Qed.

End LoopMore.

Section LoopMoreSamples.
#[local] Existing Instance product_pow.

Lemma reboot_loop_closes_event_loop_witness :
  exists pre : list event,
    (run_reboot_loop_with (init 3 1.58 1)
       [iteration_with None; iteration_with None] []).2
      = [] ++ pre ++ [Log INFO "Exiting."; LoopClose].
Proof.
  apply (reboot_loop_closes_event_loop (init 3 1.58 1)
           [iteration_with None; iteration_with None] []).
  discriminate.
Defined.

Lemma reboot_loop_sleeps_backoff_witness :
  sleeps (while_true [iteration_with None; iteration_with None]
            (init 3 1.58 12) 0%float []).2 =
    sleeps [] ++ [(3 * 1 + jitter 500)%float; (3 * (1.58 * 1) + jitter 500)%float].
Proof.
  apply (reboot_loop_sleeps_backoff [iteration_with None; iteration_with None]
           (init 3 1.58 12) 0%float []).
  - repeat constructor.
  - simpl. lia.
  - reflexivity.
Defined.

Lemma reboot_loop_stable_sessions_witness :
  (while_true
     [{| sess := session_with None; timer_fires := true; draw := 1; sleep := None |};
      {| sess := session_with None; timer_fires := true; draw := 2; sleep := None |};
      {| sess := session_with None; timer_fires := true; draw := 3; sleep := None |}]
     (init 3 1.58 1) 0%float []).1 = Running.
Proof.
  apply (reboot_loop_stable_sessions _ (init 3 1.58 1) 0%float []).
  - repeat constructor.
  - simpl. lia.
Defined.

Lemma run_extension_failure_witness :
  (run {| startup := None;
          extensions := [("projects", None); ("badges", Some (OtherException "ImportError"));
                         ("wordwar", None)];
          login := None; connect := None; close := None; pending := [];
          cancelled_await := None; gathered_exception := None; write := None |} []).1
    = Raised (SystemExit ErrorCodes.EXTENSION_LOAD).
Proof.
  rewrite (proj1 (run_extension_failure
      {| startup := None;
         extensions := [("projects", None); ("badges", Some (OtherException "ImportError"));
                        ("wordwar", None)];
         login := None; connect := None; close := None; pending := [];
         cancelled_await := None; gathered_exception := None; write := None |}
      [("projects", None)] [("wordwar", None)]
      "badges" (OtherException "ImportError")
      eq_refl eq_refl ltac:(repeat constructor) eq_refl) []).
  reflexivity.
Defined.

Lemma run_startup_fault_witness :
  (run_reboot_loop_with (init 3 1.58 12)
     [{| sess := {| startup := Some (OtherException "FileNotFoundError");
                    extensions := []; login := None; connect := None; close := None;
                    pending := []; cancelled_await := None;
                    gathered_exception := None; write := None |};
         timer_fires := false; draw := 0; sleep := None |}] []).1
    = Raised (OtherException "FileNotFoundError").
Proof.
  apply (proj2 (run_startup_fault
    {| sess := {| startup := Some (OtherException "FileNotFoundError");
                  extensions := []; login := None; connect := None; close := None;
                  pending := []; cancelled_await := None;
                  gathered_exception := None; write := None |};
       timer_fires := false; draw := 0; sleep := None |}
    [] (OtherException "FileNotFoundError") eq_refl)).
Defined.

Lemma reboot_loop_sleep_interrupt_witness :
  (run_reboot_loop_with (init 3 1.58 12)
     [{| sess := session_with None; timer_fires := false; draw := 0;
         sleep := Some KeyboardInterrupt |}; iteration_with None] []).1 = Normal tt.
Proof.
  apply (proj1 (reboot_loop_sleep_interrupt
                  {| sess := session_with None; timer_fires := false; draw := 0;
                     sleep := Some KeyboardInterrupt |}
                  [iteration_with None] (init 3 1.58 12) [] 1%float
                  ltac:(intros w; reflexivity) ltac:(simpl; lia) eq_refl eq_refl)).
Defined.

End LoopMoreSamples.

(** ** When the client is closed *)

Lemma closes_app (w1 w2 : world) : closes (w1 ++ w2) = (closes w1 + closes w2)%nat.
Proof. unfold closes. rewrite List.filter_app. apply length_app. Qed.

Lemma closes_none (evs : list event) :
  Forall (fun ev => ev <> Close) evs -> closes evs = 0%nat.
Proof.
  induction 1 as [|ev evs Hev _ IH]; [reflexivity|].
  unfold closes in *. simpl. destruct ev; try exact IH. congruence.
Qed.

Lemma closes_startup_calls (s : session) : closes (startup_calls s) = 0%nat.
Proof.
  apply closes_none. unfold startup_calls. constructor; [discriminate|].
  unfold extension_calls.
  induction (extensions s) as [|x exts IH]; simpl; repeat constructor;
    try discriminate; exact IH.
Qed.

Lemma teardown_no_close (s : session) : emits (fun ev => ev <> Close) (teardown s).
Proof.
  unfold teardown.
  repeat (apply emits_bind; [by apply emits_emit|]; intros _).
  apply emits_bind; [|intros _; by apply emits_call].
  apply emits_try_except.
  - apply emits_bind; [by apply emits_emit|]. intros _.
    apply emits_bind; [by apply emits_call|]. intros _. by apply emits_call.
  - intros e h. destruct (is_Exception e); intros [= <-]. apply emits_ret.
Qed.

Lemma session_body_closes (s : session) (w : world) :
  exists (o : outcome unit) (pre : list event),
    o <> Running /\
    try_except
      (call Login (login s) ;;; call Connect (connect s))%py
      (run_handler s) w = (o, w ++ pre) /\
    closes pre =
      match body_raises s with
      | Some e => if caught_by_run e then 1%nat else 0%nat
      | None => 0%nat
      end.
Proof.
  unfold try_except, call, bind, emit, answer_of, ret, raise, body_raises.
  assert (Hh : forall e w1 pre1, w1 = w ++ pre1 -> closes pre1 = 0%nat ->
            exists (o : outcome unit) (pre : list event),
              o <> Running /\
              match run_handler s e with
              | Some h => h w1
              | None => (Raised e, w1)
              end = (o, w ++ pre) /\
              closes pre = if caught_by_run e then 1%nat else 0%nat).
  { intros e w1 pre1 -> Hpre.
    destruct e; unfold run_handler, caught_by_run, is_Exception, bind, call, bind,
      emit, answer_of, ret, raise, sys_exit, raise;
      destruct (close s); rewrite <- ?app_assoc;
      eexists; eexists; (split; [|split; [reflexivity|]]); try discriminate;
      rewrite ?closes_app, ?Hpre; reflexivity. }
  destruct (login s) as [e|].
  - apply (Hh e _ [Login]); reflexivity.
  - destruct (connect s) as [e|].
    + apply (Hh e _ [Login; Connect]); [rewrite <- app_assoc|]; reflexivity.
    + exists (Normal tt), [Login; Connect]. split; [discriminate|].
      rewrite <- app_assoc. split; reflexivity.
Qed.

(** In a session that gets as far as its [try] statement, [client.close]
    is called once when the connection phase raises a [KeyboardInterrupt]
    or an [Exception], and not at all otherwise: not when [connect]
    returns (the connection simply ended), and not when something else
    ([SystemExit]) is raised. *)
Theorem run_closes_client (s : session) (w : world) :
  reaches_connect s ->
  closes (run s w).2 =
    (closes w +
     match body_raises s with
     | Some e => if caught_by_run e then 1 else 0
     | None => 0
     end)%nat.
Proof.
  intros Hreach. rewrite run_startup by exact Hreach.
  destruct (session_body_closes s (w ++ startup_calls s))
    as (o & pre & Ho & Hbody & Hcl).
  destruct (teardown_no_close s ((w ++ startup_calls s) ++ pre)) as (evs & Hw & Hevs).
  assert (Hlog : (try_finally
            (try_except (call Login (login s) ;;; call Connect (connect s))%py
               (run_handler s)) (teardown s) (w ++ startup_calls s)).2
          = ((w ++ startup_calls s) ++ pre) ++ evs).
  { unfold try_finally. rewrite Hbody.
    destruct o as [[]|e|]; [| |congruence];
      destruct (teardown s ((w ++ startup_calls s) ++ pre)) as [[[]|e'|] w2];
      exact Hw. }
  rewrite Hlog, !closes_app, closes_startup_calls, (closes_none evs Hevs), Hcl.
  lia.
Qed.

Lemma run_closes_client_witness :
  closes (run (session_with None) []).2 = 0%nat
  /\ closes (run (session_with (Some (OtherException "ConnectionClosed"))) []).2 = 1%nat.
Proof.
  split.
  - rewrite (run_closes_client (session_with None) []); [reflexivity|].
    split; [reflexivity | repeat constructor].
  - rewrite (run_closes_client
               (session_with (Some (OtherException "ConnectionClosed"))) []);
      [reflexivity|].
    split; [reflexivity | repeat constructor].
Defined.

End RunnerMore.

(** * Further properties of cog/projects/wizard.py *)

Module WizardMore.
Import Wizard.

Lemma manager_eq (st st' : WizardManager) :
  new st = new st' -> edit st = edit st' -> st = st'.
Proof. destruct st, st'. simpl. by intros -> ->. Qed.

Lemma create_edit_wizard_already_open (member : string) (timestamp : Z)
    (proj_title : string) (w : world) :
  has_open_wizard (self w) member = true ->
  await (create_edit_wizard member timestamp proj_title) w =
    (Raised (CommandError "You already have an ongoing wizard!"), w).
Proof.
  intros Hopen. unfold create_edit_wizard. cbn [await]. rewrite Hopen. reflexivity.
Qed.

(** ** Creating twice, creating and cancelling *)

(** After [create_new_wizard] for a user without a wizard, whether its
    sends succeeded or not, the user has an open wizard, and a second
    [create_new_wizard] or a [create_edit_wizard] for that user raises the
    "already have an ongoing wizard" [CommandError] and changes nothing. *)
Theorem create_wizard_twice (w : world) (member : string) (timestamp timestamp' : Z)
    (proj_title : string) :
  has_open_wizard (self w) member = false ->
  has_open_wizard (self (await (create_new_wizard member timestamp) w).2) member = true
  /\ await (create_new_wizard member timestamp')
       (await (create_new_wizard member timestamp) w).2 =
     (Raised (CommandError "You already have an ongoing wizard!"),
      (await (create_new_wizard member timestamp) w).2)
  /\ await (create_edit_wizard member timestamp' proj_title)
       (await (create_new_wizard member timestamp) w).2 =
     (Raised (CommandError "You already have an ongoing wizard!"),
      (await (create_new_wizard member timestamp) w).2).
Proof.
  intros Hno.
  assert (Hopen :
    has_open_wizard (self (await (create_new_wizard member timestamp) w).2) member = true).
  { rewrite WizardFacts.create_new_wizard_self, Hno.
    apply WizardFacts.has_open_wizard_true. left. unfold present.
    change (wizards ?st "new") with (new st).
    change (new (set_wizard "new" member ?v ?st)) with (<[member := v]> (new st)).
    rewrite lookup_insert_eq. by eexists. }
  split; [exact Hopen|]. split.
  - by apply WizardFacts.create_new_wizard_already_open.
  - by apply create_edit_wizard_already_open.
Qed.

Lemma create_wizard_twice_witness :
  await (create_new_wizard "u" 8)
    (await (create_new_wizard "u" 7) (world_of init [])).2 =
  (Raised (CommandError "You already have an ongoing wizard!"),
   (await (create_new_wizard "u" 7) (world_of init [])).2).
Proof.
  apply (proj1 (proj2 (create_wizard_twice (world_of init []) "u" 7 8 "My Book" eq_refl))).
Defined.

(** Creating a wizard for a user without one and then cancelling (the
    coroutine awaited, its notice delivered) gives back the maps the
    manager had before. *)
Theorem create_then_cancel (w : world) (member : string) (timestamp : Z) :
  has_open_wizard (self w) member = false ->
  delivers 2 (await (create_new_wizard member timestamp) w).2 ->
  self (await (cancel_wizards member)
          (await (create_new_wizard member timestamp) w).2).2 = self w.
Proof.
  intros Hno Hdel.
  destruct (WizardFacts.cancel_wizards_run _ member Hdel) as (_ & Hnew & Hedit & _).
  apply WizardFacts.has_open_wizard_false in Hno as Hno'. destruct Hno' as [Hn He].
  apply manager_eq.
  - rewrite Hnew, WizardFacts.create_new_wizard_self, Hno.
    change (new (set_wizard "new" member ?v ?st)) with (<[member := v]> (new st)).
    by apply delete_insert_id.
  - rewrite Hedit, WizardFacts.create_new_wizard_self, Hno.
    change (edit (set_wizard "new" member ?v ?st)) with (edit st).
    by apply delete_id.
Qed.

Lemma create_then_cancel_witness :
  self (await (cancel_wizards "u")
          (await (create_new_wizard "u" 7) (world_of init [])).2).2
    = self (world_of init []).
Proof.
  apply (create_then_cancel (world_of init []) "u" 7 eq_refl).
  constructor.
Defined.

(** ** get_wizard_for *)

Lemma get_wizard_for_kind (st : WizardManager) (u name : string) (wz : ProjectWizard) :
  get_wizard_for st u = Normal (name, wz) ->
  name = "new" \/
  (name = "edit" /\ forall wz' : ProjectWizard, new st !! u <> Some (Wiz wz')).
Proof.
  intros Hget. rewrite WizardFacts.get_wizard_for_eq in Hget.
  destruct (new st !! u) as [[|w1]|] eqn:Hn.
  - right. destruct (edit st !! u) as [[|w2]|]; try discriminate.
    injection Hget as <- <-. split; [reflexivity | congruence].
  - left. congruence.
  - right. destruct (edit st !! u) as [[|w2]|]; try discriminate.
    injection Hget as <- <-. split; [reflexivity | congruence].
Qed.

(** [get_wizard_for] returns only what the maps hold: the wizard it
    returns is the entry of the user in the map it names, the user then
    has an open wizard, and the map ['edit'] is named only when ['new']
    holds no wizard for the user. *)
Theorem get_wizard_for_sound (st : WizardManager) (u name : string) (wz : ProjectWizard) :
  get_wizard_for st u = Normal (name, wz) ->
  wizards st name !! u = Some (Wiz wz)
  /\ has_open_wizard st u = true
  /\ (name = "new" \/
      (name = "edit" /\ forall wz' : ProjectWizard, new st !! u <> Some (Wiz wz'))).
Proof.
  intros Hget.
  pose proof (WizardFacts.get_wizard_for_normal _ _ _ _ Hget) as Hlook.
  split; [exact Hlook|]. split.
  - apply WizardFacts.has_open_wizard_true.
    assert (Hp : present st name u) by (by exists (Wiz wz)).
    destruct (WizardFacts.present_name _ _ _ Hp) as [-> | ->]; auto.
  - by apply (get_wizard_for_kind st u name wz).
Qed.

Lemma get_wizard_for_sound_witness :
  wizards {| new := {["v" := Wiz (new_wizard "v" 1)]};
             edit := {["u" := Wiz (done_wizard "u")]} |} "edit" !! "u"
    = Some (Wiz (done_wizard "u")).
Proof.
  apply (get_wizard_for_sound
           {| new := {["v" := Wiz (new_wizard "v" 1)]};
              edit := {["u" := Wiz (done_wizard "u")]} |} "u" "edit" (done_wizard "u")).
  reflexivity.
Defined.

(** ** create_edit_wizard *)

(** For a user without an open wizard, [create_edit_wizard] with its two
    sends delivered stores in the map ['edit'] a fresh wizard in which
    every key may be skipped, leaves the map ['new'] alone, and sends the
    edit prompt naming the project and then the first question; the
    wizard is then the one [get_wizard_for] finds, under the kind
    ['edit']. *)
Theorem create_edit_wizard_ok (w : world) (member : string) (timestamp : Z)
    (proj_title : string) :
  has_open_wizard (self w) member = false ->
  delivers 2 w ->
  (await (create_edit_wizard member timestamp proj_title) w).1 = Normal tt
  /\ self (await (create_edit_wizard member timestamp proj_title) w).2 =
       {| new := new (self w);
          edit := <[member := Wiz (edit_wizard member timestamp)]> (edit (self w)) |}
  /\ sent (await (create_edit_wizard member timestamp proj_title) w).2 =
       sent w ++ [(member, start_edit_msg_fmt proj_title);
                  (member, "What is your project's title?")]
  /\ get_wizard_for (self (await (create_edit_wizard member timestamp proj_title) w).2)
       member = Normal ("edit", edit_wizard member timestamp).
Proof.
  intros Hopen Hdel.
  apply WizardFacts.has_open_wizard_false in Hopen as Hno. destruct Hno as [Hn He].
  assert (Hget : get_wizard_for
            (set_wizard "edit" member (Wiz (edit_wizard member timestamp)) (self w))
            member = Normal ("edit", edit_wizard member timestamp)).
  { rewrite WizardFacts.get_wizard_for_eq.
    change (new (set_wizard "edit" member ?v ?st)) with (new st).
    change (edit (set_wizard "edit" member ?v ?st)) with (<[member := v]> (edit st)).
    by rewrite Hn, lookup_insert_eq. }
  assert (Hrun : exists fs,
    await (create_edit_wizard member timestamp proj_title) w =
      (Normal tt,
       {| self := set_wizard "edit" member (Wiz (edit_wizard member timestamp)) (self w);
          sent := sent w ++ [(member, start_edit_msg_fmt proj_title);
                             (member, "What is your project's title?")];
          faults := fs; env := env w |})).
  { unfold create_edit_wizard; cbn [await]; rewrite Hopen;
      unfold bind at 1; cbn [modify_self];
      unfold try_except, bind, send_question, await, send_message, bind, eval;
      cbn [self sent faults env].
    change {| owner_id := owner_id (new_wizard member timestamp);
              created_at := created_at (new_wizard member timestamp);
              opts := question_keys;
              current_index := current_index (new_wizard member timestamp);
              answers := answers (new_wizard member timestamp);
              raw_answers := raw_answers (new_wizard member timestamp) |}
      with (edit_wizard member timestamp).
    destruct (faults w) as [|r1 fs] eqn:Hf; [|
      destruct (WizardFacts.delivers_cons 1 w r1 fs Hf Hdel) as [-> Hfs];
      destruct fs as [|r2 fs]; [|inversion Hfs; subst]];
      cbn [self sent faults env]; rewrite Hget; cbn [snd];
      change (question (env w) (edit_wizard member timestamp))
        with (@Normal string "What is your project's title?");
      cbn [self sent faults env fst snd];
      rewrite <- ?app_assoc; eexists; reflexivity. }
  destruct Hrun as (fs & ->). cbn [fst snd self sent].
  repeat split; try reflexivity. exact Hget.
Qed.

Lemma create_edit_wizard_ok_witness :
  (await (create_edit_wizard "u" 7 "My Book") (world_of init [])).1 = Normal tt
  /\ get_wizard_for
       (self (await (create_edit_wizard "u" 7 "My Book") (world_of init [])).2) "u"
     = Normal ("edit", edit_wizard "u" 7).
Proof.
  pose proof (create_edit_wizard_ok (world_of init []) "u" 7 "My Book" eq_refl
                ltac:(constructor)) as (H1 & _ & _ & H4).
  exact (conj H1 H4).
Defined.

(** ** close_wizard and cancel_wizards when a send fails *)

(** [close_wizard] deletes the finished wizard before it sends the
    completion message: when that send raises, the exception reaches the
    caller, who gets no wizard back, and the wizard is gone from the
    manager all the same. *)
Theorem close_wizard_failed_send (w : world) (member name : string)
    (wizard : ProjectWizard) (e : exn) (fs : list (option exn)) :
  at_most_one (self w) ->
  wizards (self w) name !! member = Some (Wiz wizard) ->
  is_done wizard = true ->
  faults w = Some e :: fs ->
  await (close_wizard member) w =
    (Raised e,
     {| self := del_wizard name member (self w); sent := sent w;
        faults := fs; env := env w |})
  /\ has_open_wizard (del_wizard name member (self w)) member = false.
Proof.
  intros Hinv Hlook Hdone Hf.
  pose proof (WizardFacts.get_wizard_for_found _ _ _ _ Hinv Hlook) as Hget.
  rewrite (WizardFacts.close_wizard_run w member name wizard Hget), Hdone, Hf.
  split; [reflexivity|].
  apply WizardFacts.del_wizard_gone; [exact Hinv | by exists (Wiz wizard)].
Qed.

Lemma close_wizard_failed_send_witness :
  (await (close_wizard "u")
     (world_of {| new := {["u" := Wiz (done_wizard "u")]}; edit := ∅ |}
        [Some (OtherException "Forbidden")])).1 = Raised (OtherException "Forbidden").
Proof.
  rewrite (proj1 (close_wizard_failed_send
    (world_of {| new := {["u" := Wiz (done_wizard "u")]}; edit := ∅ |}
       [Some (OtherException "Forbidden")])
    "u" "new" (done_wizard "u") (OtherException "Forbidden") []
    ltac:(intros u [_ [x Hx]]; change ((∅ : gmap string slot) !! u = Some x) in Hx;
          rewrite lookup_empty in Hx; discriminate)
    eq_refl eq_refl eq_refl)).
  reflexivity.
Defined.

(** [cancel_wizards] stops at the first notice that cannot be sent: for a
    user held by both maps, a failing first notice leaves the entry in
    ['edit'] in place, so that the user still has an open wizard. *)
Theorem cancel_wizards_failed_send (w : world) (member : string) (v v' : slot)
    (e : exn) (fs : list (option exn)) :
  new (self w) !! member = Some v ->
  edit (self w) !! member = Some v' ->
  faults w = Some e :: fs ->
  await (cancel_wizards member) w =
    (Raised e,
     {| self := {| new := delete member (new (self w)); edit := edit (self w) |};
        sent := sent w; faults := fs; env := env w |})
  /\ has_open_wizard
       {| new := delete member (new (self w)); edit := edit (self w) |} member = true.
Proof.
  intros Hn He Hf. split.
  - unfold cancel_wizards. cbn [await cancel_wizards_loop wizards_keys].
    unfold bind at 1.
    change (wizards (self w) "new") with (new (self w)). rewrite Hn.
    unfold bind, modify_self, await, send_message. cbn [self sent faults env].
    rewrite Hf. reflexivity.
  - apply WizardFacts.has_open_wizard_true. right. unfold present.
    change (wizards ?st "edit") with (edit st). cbn [edit]. rewrite He. by eexists.
Qed.

Lemma cancel_wizards_failed_send_witness :
  (await (cancel_wizards "u")
     (world_of {| new := {["u" := PyNone]}; edit := {["u" := Wiz (done_wizard "u")]} |}
        [Some (OtherException "Forbidden")])).1 = Raised (OtherException "Forbidden").
Proof.
  destruct (cancel_wizards_failed_send
      (world_of {| new := {["u" := PyNone]}; edit := {["u" := Wiz (done_wizard "u")]} |}
         [Some (OtherException "Forbidden")])
      "u" PyNone (Wiz (done_wizard "u")) (OtherException "Forbidden") []) as [H _];
    [reflexivity | reflexivity | reflexivity |].
  rewrite H. reflexivity.
Defined.

(** ** process_answer *)

(** [process_answer] for a user whose wizard is found: when [answer]
    raises (a rejected answer), the exception reaches the caller and
    nothing at all has changed; when it returns, the entry of the user in
    the map of that kind holds the wizard as answered, which is what
    [get_wizard_for] then returns; every other entry, the messages sent
    and the pending sends are as before. *)
Theorem process_answer_spec (w : world) (author content name : string)
    (wizard : ProjectWizard) :
  get_wizard_for (self w) author = Normal (name, wizard) ->
  (forall e : exn,
     answer (env w) content wizard = Raised e ->
     process_answer author content w = (Raised e, w))
  /\ (forall wizard' : ProjectWizard,
       answer (env w) content wizard = Normal wizard' ->
       process_answer author content w =
         (Normal tt,
          {| self := set_wizard name author (Wiz wizard') (self w);
             sent := sent w; faults := faults w; env := env w |})
       /\ get_wizard_for (set_wizard name author (Wiz wizard') (self w)) author
          = Normal (name, wizard')
       /\ forall kind u : string,
            u <> author ->
            wizards (set_wizard name author (Wiz wizard') (self w)) kind !! u
              = wizards (self w) kind !! u).
Proof.
  intros Hget. split.
  - intros e Hans. unfold process_answer, bind, eval. rewrite Hget, Hans. reflexivity.
  - intros wizard' Hans. split; [|split].
    + unfold process_answer, bind, eval. rewrite Hget, Hans. reflexivity.
    + destruct (get_wizard_for_kind _ _ _ _ Hget) as [-> | [-> Hnew]];
        rewrite WizardFacts.get_wizard_for_eq.
      * change (new (set_wizard "new" author ?v ?st)) with (<[author := v]> (new st)).
        by rewrite lookup_insert_eq.
      * change (new (set_wizard "edit" author ?v ?st)) with (new st).
        change (edit (set_wizard "edit" author ?v ?st)) with (<[author := v]> (edit st)).
        rewrite lookup_insert_eq.
        destruct (new (self w) !! author) as [[|w1]|] eqn:Hn; try reflexivity.
        exfalso. by apply (Hnew w1).
    + intros kind u Hne. unfold set_wizard, wizards.
      repeat case_decide; subst; simpl; try congruence; try done;
        by rewrite lookup_insert_ne.
Qed.

Lemma process_answer_spec_witness :
  process_answer "u" ""
    (world_of {| new := {["u" := Wiz (new_wizard "u" 7)]}; edit := ∅ |} []) =
  (Raised (ValueError "empty"),
   world_of {| new := {["u" := Wiz (new_wizard "u" 7)]}; edit := ∅ |} []).
Proof.
  destruct (process_answer_spec
    (world_of {| new := {["u" := Wiz (new_wizard "u" 7)]}; edit := ∅ |} [])
    "u" "" "new" (new_wizard "u" 7)) as [H _]; [reflexivity|].
  apply H. reflexivity.
Defined.

End WizardMore.

(** * Properties of saving and loading the wizard manager *)

Module WizardStoreFacts.
Import Wizard WizardStore.

Section StoreFacts.
Context {D : Type}.
Variable to_d : ProjectWizard -> D.
Variable from_d : D -> outcome ProjectWizard.

Lemma restore_cons_ne (post : ProjectWizard -> ProjectWizard) (k uid : string) (d : D)
    (its : list (string * D)) :
  k <> uid -> restore from_d post ((k, d) :: its) uid = restore from_d post its uid.
Proof. intros Hne. unfold restore. simpl. by rewrite lookup_insert_ne. Qed.

Lemma restore_cons_eq (post : ProjectWizard -> ProjectWizard) (k : string) (d : D)
    (its : list (string * D)) :
  restore from_d post ((k, d) :: its) k =
    match from_d d with
    | Normal wz => Some (Wiz (post wz))
    | _ => None
    end.
Proof. unfold restore. simpl. by rewrite lookup_insert_eq. Qed.

Lemma restore_not_key (post : ProjectWizard -> ProjectWizard) (uid : string)
    (its : list (string * D)) :
  uid ∉ its.*1 -> restore from_d post its uid = None.
Proof.
  intros Hnot. unfold restore.
  by rewrite (not_elem_of_list_to_map_1 (M := gmap string) its uid Hnot).
Qed.

(** One loop of [from_dict] over items with distinct user ids, each of
    which restores or raises [ValueError]. *)
Lemma load_items_spec (post : ProjectWizard -> ProjectWizard) (its : list (string * D)) :
  NoDup its.*1 ->
  restorable from_d its ->
  forall m0 : gmap string slot,
    exists m : gmap string slot,
      load_items from_d post its m0 = Normal m /\
      forall uid : string,
        m !! uid = match restore from_d post its uid with
                   | Some v => Some v
                   | None => m0 !! uid
                   end.
Proof.
  induction its as [|[k d] its IH]; intros Hnd Hres m0.
  - exists m0. split; [reflexivity|]. intros uid. reflexivity.
  - apply NoDup_cons in Hnd as [Hk Hnd]. apply Forall_cons in Hres as [Hd Hres].
    simpl in Hd. cbn [load_items].
    destruct (from_d d) as [wz|e|] eqn:Hfrom; [| |done].
    + destruct (IH Hnd Hres (<[k := Wiz (post wz)]> m0)) as (m & Hm & Hlook).
      exists m. split; [exact Hm|]. intros uid. rewrite Hlook.
      destruct (decide (k = uid)) as [<-|Hne].
      * rewrite restore_cons_eq, Hfrom, (restore_not_key post k its Hk).
        by rewrite lookup_insert_eq.
      * rewrite restore_cons_ne by exact Hne.
        by rewrite lookup_insert_ne.
    + destruct e; try done.
      destruct (IH Hnd Hres m0) as (m & Hm & Hlook).
      exists m. split; [exact Hm|]. intros uid. rewrite Hlook.
      destruct (decide (k = uid)) as [<-|Hne].
      * by rewrite restore_cons_eq, Hfrom, (restore_not_key post k its Hk).
      * by rewrite restore_cons_ne by exact Hne.
Qed.

Lemma from_dict_keeps_restorable_aux (data : saved) :
  NoDup (default [] (saved_new data)).*1 ->
  NoDup (default [] (saved_edit data)).*1 ->
  restorable from_d (default [] (saved_new data)) ->
  restorable from_d (default [] (saved_edit data)) ->
  exists st : WizardManager,
    from_dict from_d data = Normal st /\
    forall uid : string,
      new st !! uid = restore from_d (fun wz => wz) (default [] (saved_new data)) uid /\
      edit st !! uid = restore from_d set_opts (default [] (saved_edit data)) uid.
Proof.
  intros Hn1 Hn2 Hr1 Hr2. unfold from_dict.
  destruct (load_items_spec (fun wz => wz) _ Hn1 Hr1 ∅) as (nw & -> & Hnw).
  destruct (load_items_spec set_opts _ Hn2 Hr2 ∅) as (ed & -> & Hed).
  eexists. split; [reflexivity|]. intros uid. cbn [new edit].
  rewrite Hnw, Hed, !lookup_empty.
  split; [destruct (restore from_d (fun wz => wz) _ uid)
         | destruct (restore from_d set_opts _ uid)]; reflexivity.
Qed.

(** Loading keeps exactly the entries that restore: for saved items with
    distinct user ids, each of which restores or is refused with a
    [ValueError], [from_dict] returns a manager in which a user id is a
    key of ['new'] (of ['edit']) exactly when its saved wizard restores,
    and then holds that wizard (for ['edit'], with all keys optional); the
    refused entries are dropped. *)
Theorem from_dict_keeps_restorable (data : saved) :
  NoDup (default [] (saved_new data)).*1 ->
  NoDup (default [] (saved_edit data)).*1 ->
  restorable from_d (default [] (saved_new data)) ->
  restorable from_d (default [] (saved_edit data)) ->
  exists st : WizardManager,
    from_dict from_d data = Normal st /\
    forall uid : string,
      new st !! uid = restore from_d (fun wz => wz) (default [] (saved_new data)) uid /\
      edit st !! uid = restore from_d set_opts (default [] (saved_edit data)) uid.
Proof.
  apply from_dict_keeps_restorable_aux.
Qed.

Lemma load_items_aborts (post : ProjectWizard -> ProjectWizard)
    (pre rest : list (string * D)) (uid : string) (d : D) (e : exn) :
  restorable from_d pre ->
  from_d d = Raised e ->
  (forall msg, e <> ValueError msg) ->
  forall m0 : gmap string slot,
    load_items from_d post (pre ++ (uid, d) :: rest) m0 = Raised e.
Proof.
  intros Hpre Hd He. induction Hpre as [|[k d'] pre Hk _ IH]; intros m0.
  - cbn [app load_items]. rewrite Hd. destruct e; try reflexivity.
    by destruct (He msg).
  - cbn [app load_items]. simpl in Hk.
    destruct (from_d d') as [wz|e'|]; [apply IH | | done].
    destruct e'; done.
Qed.

(** Other exceptions are not swallowed: when the saved wizards before an
    item restore or are refused with [ValueError], and that item makes
    [ProjectWizard.from_dict] raise anything but a [ValueError], the whole
    load raises it, for the map ['new'] and, once ['new'] has loaded, for
    the map ['edit']. *)
Theorem from_dict_aborts (data : saved) (pre rest : list (string * D)) (uid : string)
    (d : D) (e : exn) :
  restorable from_d pre ->
  from_d d = Raised e ->
  (forall msg, e <> ValueError msg) ->
  (saved_new data = Some (pre ++ (uid, d) :: rest) ->
     from_dict from_d data = Raised e)
  /\ (NoDup (default [] (saved_new data)).*1 ->
      restorable from_d (default [] (saved_new data)) ->
      saved_edit data = Some (pre ++ (uid, d) :: rest) ->
      from_dict from_d data = Raised e).
Proof.
  intros Hpre Hd He. split.
  - intros Hnew. unfold from_dict. rewrite Hnew. cbn [default].
    by rewrite (load_items_aborts _ pre rest uid d e Hpre Hd He).
  - intros Hnd Hres Hedit. unfold from_dict.
    destruct (load_items_spec (fun wz => wz) _ Hnd Hres ∅) as (nw & -> & _).
    rewrite Hedit. cbn [default].
    by rewrite (load_items_aborts _ pre rest uid d e Hpre Hd He).
Qed.

(** [from_dict] does not look at whether a user id occurs under both
    keys. With the hypotheses of [from_dict_keeps_restorable]: when no user
    id is under both, the manager loaded keeps each id in at most one map;
    when some id has a wizard that restores under both, the manager
    loaded holds it in both maps. *)
Theorem from_dict_invariant (data : saved) (st : WizardManager) :
  NoDup (default [] (saved_new data)).*1 ->
  NoDup (default [] (saved_edit data)).*1 ->
  restorable from_d (default [] (saved_new data)) ->
  restorable from_d (default [] (saved_edit data)) ->
  from_dict from_d data = Normal st ->
  ((forall uid, uid ∈ (default [] (saved_new data)).*1 ->
                uid ∉ (default [] (saved_edit data)).*1) ->
   at_most_one st)
  /\ (forall uid v v',
        restore from_d (fun wz => wz) (default [] (saved_new data)) uid = Some v ->
        restore from_d set_opts (default [] (saved_edit data)) uid = Some v' ->
        ~ at_most_one st).
Proof.
  intros Hn1 Hn2 Hr1 Hr2 Hload.
  destruct (from_dict_keeps_restorable_aux data Hn1 Hn2 Hr1 Hr2) as (st' & Hst' & Hlook).
  rewrite Hload in Hst'. injection Hst' as <-. split.
  - intros Hdisj uid [[x Hx] [y Hy]].
    change (new st !! uid = Some x) in Hx. change (edit st !! uid = Some y) in Hy.
    destruct (Hlook uid) as [H1 H2]. rewrite H1 in Hx. rewrite H2 in Hy.
    apply (Hdisj uid).
    + destruct (decide (uid ∈ (default [] (saved_new data)).*1)) as [|Hnot]; [done|].
      by rewrite restore_not_key in Hx.
    + destruct (decide (uid ∈ (default [] (saved_edit data)).*1)) as [|Hnot]; [done|].
      by rewrite restore_not_key in Hy.
  - intros uid v v' Hv Hv' Hinv. apply (Hinv uid).
    destruct (Hlook uid) as [H1 H2]. split.
    + exists v. change (new st !! uid = Some v). by rewrite H1.
    + exists v'. change (edit st !! uid = Some v'). by rewrite H2.
Qed.

(** ** Saving, and loading what was saved *)

Lemma dump_items_none (its : list (string * slot)) (uid : string) :
  (uid, PyNone) ∈ its ->
  dump_items to_d its = Raised (OtherException "AttributeError").
Proof.
  induction its as [|[k v] its IH]; intros Hin.
  - by apply elem_of_nil in Hin.
  - apply elem_of_cons in Hin as [[= <- <-]|Hin]; [reflexivity|].
    cbn [dump_items]. destruct v as [|wz]; [reflexivity|]. by rewrite IH.
Qed.

Lemma dump_items_outcome (its : list (string * slot)) :
  (exists l, dump_items to_d its = Normal l) \/
  dump_items to_d its = Raised (OtherException "AttributeError").
Proof.
  induction its as [|[k [|wz]] its IH]; cbn [dump_items]; eauto.
  destruct IH as [[l ->] | ->]; eauto.
Qed.

(** A manager that holds [None] for some user cannot be saved: [to_dict]
    raises [AttributeError], whichever map has the entry. *)
Theorem to_dict_none_entry (st : WizardManager) (uid : string) :
  new st !! uid = Some PyNone \/ edit st !! uid = Some PyNone ->
  to_dict to_d st = Raised (OtherException "AttributeError").
Proof.
  unfold to_dict. intros [Hn | He].
  - apply elem_of_map_to_list in Hn. by rewrite (dump_items_none _ uid Hn).
  - apply elem_of_map_to_list in He.
    rewrite (dump_items_none _ uid He).
    destruct (dump_items_outcome (map_to_list (new st))) as [[l ->] | ->]; reflexivity.
Qed.

Lemma reload_items (post : ProjectWizard -> ProjectWizard) (its : list (string * slot)) :
  NoDup its.*1 ->
  Forall (fun x => exists wz, x.2 = Wiz wz /\ from_d (to_d wz) = Normal wz
                              /\ post wz = wz) its ->
  dump_items to_d its = Normal (dumped_of to_d its)
  /\ (dumped_of to_d its).*1 = its.*1
  /\ restorable from_d (dumped_of to_d its)
  /\ forall uid : string,
       restore from_d post (dumped_of to_d its) uid
         = (list_to_map its : gmap string slot) !! uid.
Proof.
  induction its as [|[k v] its IH]; intros Hnd Hgood.
  - split; [reflexivity|]. split; [reflexivity|]. split; [constructor|].
    intros uid. unfold restore. simpl. by rewrite !lookup_empty.
  - apply NoDup_cons in Hnd as [Hk Hnd].
    apply Forall_cons in Hgood as [(wz & Hv & Hrt & Hpost) Hgood].
    simpl in Hv. subst v.
    destruct (IH Hnd Hgood) as (Hdump & Hkeys & Hres & Hlook).
    assert (Hd : dumped_of to_d ((k, Wiz wz) :: its)
                 = (k, to_d wz) :: dumped_of to_d its) by reflexivity.
    rewrite Hd. split; [|split; [|split]].
    + cbn [dump_items]. by rewrite Hdump.
    + rewrite !fmap_cons. cbn [fst]. by rewrite Hkeys.
    + constructor; [simpl; by rewrite Hrt | exact Hres].
    + intros uid. cbn [list_to_map foldr]. destruct (decide (k = uid)) as [<-|Hne].
      * rewrite restore_cons_eq, Hrt, Hpost. simpl. by rewrite lookup_insert_eq.
      * rewrite restore_cons_ne by exact Hne. simpl.
        rewrite lookup_insert_ne by exact Hne. apply Hlook.
Qed.

Lemma reload_map (post : ProjectWizard -> ProjectWizard) (m : gmap string slot) :
  (forall uid v, m !! uid = Some v ->
     exists wz, v = Wiz wz /\ from_d (to_d wz) = Normal wz /\ post wz = wz) ->
  exists l : list (string * D),
    dump_items to_d (map_to_list m) = Normal l /\
    load_items from_d post l ∅ = Normal m.
Proof.
  intros Hm.
  destruct (reload_items post (map_to_list m)) as (Hdump & Hkeys & Hres & Hlook).
  { apply NoDup_fst_map_to_list. }
  { apply Forall_forall. intros [uid v] Hin. apply elem_of_map_to_list in Hin.
    simpl. by apply (Hm uid). }
  exists (dumped_of to_d (map_to_list m)). split; [exact Hdump|].
  destruct (load_items_spec post (dumped_of to_d (map_to_list m))) with (m0 := (∅ : gmap string slot))
    as (m' & Hload & Hm').
  { rewrite Hkeys. apply NoDup_fst_map_to_list. }
  { exact Hres. }
  rewrite Hload. f_equal. apply map_eq. intros uid.
  rewrite Hm', Hlook, list_to_map_to_list, lookup_empty.
  by destruct (m !! uid).
Qed.

Lemma set_opts_id (wz : ProjectWizard) : opts wz = question_keys -> set_opts wz = wz.
Proof. destruct wz. simpl. by intros ->. Qed.

(** Saving and loading again gives the manager back: when no entry is
    [None], every wizard held restores from its own saved form, and the
    wizards of the map ['edit'] have all keys optional, [to_dict] returns
    a dict from which [from_dict] rebuilds the same two maps. *)
Theorem to_dict_from_dict (st : WizardManager) :
  (forall uid v, new st !! uid = Some v ->
     exists wz, v = Wiz wz /\ from_d (to_d wz) = Normal wz) ->
  (forall uid v, edit st !! uid = Some v ->
     exists wz, v = Wiz wz /\ from_d (to_d wz) = Normal wz /\ opts wz = question_keys) ->
  exists data : saved,
    to_dict to_d st = Normal data /\ from_dict from_d data = Normal st.
Proof.
  intros Hnew Hedit.
  destruct (reload_map (fun wz => wz) (new st)) as (ln & Hdn & Hln).
  { intros uid v Hv. destruct (Hnew uid v Hv) as (wz & -> & Hrt). eauto. }
  destruct (reload_map set_opts (edit st)) as (le & Hde & Hle).
  { intros uid v Hv. destruct (Hedit uid v Hv) as (wz & -> & Hrt & Hopts).
    exists wz. repeat split; try done. by apply set_opts_id. }
  exists {| saved_new := Some ln; saved_edit := Some le |}.
  unfold to_dict, from_dict. rewrite Hdn, Hde. split; [reflexivity|].
  cbn [saved_new saved_edit default from_option id]. rewrite Hln, Hle. by destruct st.
Qed.

End StoreFacts.

Lemma from_dict_keeps_restorable_witness :
  exists st : WizardManager,
    from_dict sample_from_dict
      {| saved_new := Some [("u", new_wizard "u" 7);
                            ("v", {| owner_id := "v"; created_at := 1; opts := [];
                                     current_index := 9; answers := ∅;
                                     raw_answers := ∅ |})];
         saved_edit := None |} = Normal st.
Proof.
  destruct (from_dict_keeps_restorable sample_from_dict
    {| saved_new := Some [("u", new_wizard "u" 7);
                          ("v", {| owner_id := "v"; created_at := 1; opts := [];
                                   current_index := 9; answers := ∅;
                                   raw_answers := ∅ |})];
       saved_edit := None |}) as (st & Hst & _).
  - cbn. by apply (bool_decide_unpack _).
  - cbn. constructor.
  - repeat constructor.
  - constructor.
  - exists st. exact Hst.
Defined.

Lemma from_dict_aborts_witness :
  from_dict (fun d : nat => if d is O then Raised (KeyError "owner_id")
                            else Normal (new_wizard "u" 7))
    {| saved_new := Some [("u", 1%nat); ("v", 0%nat)]; saved_edit := None |}
    = Raised (KeyError "owner_id").
Proof.
  apply (proj1 (from_dict_aborts
           (fun d : nat => if d is O then Raised (KeyError "owner_id")
                           else Normal (new_wizard "u" 7))
           {| saved_new := Some [("u", 1%nat); ("v", 0%nat)]; saved_edit := None |}
           [("u", 1%nat)] [] "v" 0%nat (KeyError "owner_id")
           ltac:(repeat constructor) eq_refl ltac:(discriminate))).
  reflexivity.
Defined.

Lemma from_dict_invariant_witness :
  ~ at_most_one {| new := {["u" := Wiz (new_wizard "u" 7)]};
                   edit := {["u" := Wiz (set_opts (new_wizard "u" 7))]} |}.
Proof.
  apply (proj2 (from_dict_invariant sample_from_dict
    {| saved_new := Some [("u", new_wizard "u" 7)];
       saved_edit := Some [("u", new_wizard "u" 7)] |}
    {| new := {["u" := Wiz (new_wizard "u" 7)]};
       edit := {["u" := Wiz (set_opts (new_wizard "u" 7))]} |}
    ltac:(cbn; by apply (bool_decide_unpack _))
    ltac:(cbn; by apply (bool_decide_unpack _))
    ltac:(repeat constructor) ltac:(repeat constructor) eq_refl)
    "u" (Wiz (new_wizard "u" 7)) (Wiz (set_opts (new_wizard "u" 7)))); reflexivity.
Defined.

Lemma to_dict_none_entry_witness :
  to_dict (fun wz => wz) {| new := {["u" := PyNone]}; edit := ∅ |}
    = Raised (OtherException "AttributeError").
Proof.
  apply (to_dict_none_entry (fun wz => wz)
           {| new := {["u" := PyNone]}; edit := ∅ |} "u").
  left. reflexivity.
Defined.

Lemma to_dict_from_dict_witness :
  exists data : saved,
    to_dict (fun wz => wz)
      {| new := {["u" := Wiz (new_wizard "u" 7)]};
         edit := {["v" := Wiz (edit_wizard "v" 8)]} |} = Normal data
    /\ from_dict sample_from_dict data =
       Normal {| new := {["u" := Wiz (new_wizard "u" 7)]};
                 edit := {["v" := Wiz (edit_wizard "v" 8)]} |}.
Proof.
  apply (to_dict_from_dict (fun wz => wz) sample_from_dict
           {| new := {["u" := Wiz (new_wizard "u" 7)]};
              edit := {["v" := Wiz (edit_wizard "v" 8)]} |}).
  - intros uid v Hv. change (({["u" := Wiz (new_wizard "u" 7)]} : gmap string slot)
                             !! uid = Some v) in Hv.
    apply lookup_singleton_Some in Hv as [_ <-]. eexists. split; reflexivity.
  - intros uid v Hv. change (({["v" := Wiz (edit_wizard "v" 8)]} : gmap string slot)
                             !! uid = Some v) in Hv.
    apply lookup_singleton_Some in Hv as [_ <-]. eexists. repeat split; reflexivity.
Defined.

End WizardStoreFacts.

(** * Properties of get_daemon_context *)

Module DaemonFacts.
Import Daemon.






End DaemonFacts.

(** * Properties of cog/blots/badges.py *)

Module BadgesFacts.
Import Badges.

(** ** add_badge *)

Lemma reply_error_run (c : cog) (suppress_errors : bool) (fmt : string)
    (args : list arg) (w : world) :
  reply_error c suppress_errors fmt args w =
    if suppress_errors then (Normal None, w)
    else (after_call w None, called (SendMessage (self_channel c) fmt args) w).
Proof.
  unfold reply_error, bind, ret, call, after_call.
  destruct suppress_errors; [reflexivity|]. by destruct (next_answer w).
Qed.

Lemma save_run (c : cog) (a : badge_args) (w : world) :
  (call (SaveBadge a) ;;; ret (save_badge c a))%py w =
    (after_call w (save_badge c a), called (SaveBadge a) w).
Proof. unfold bind, ret, call, after_call. by destruct (next_answer w). Qed.

(** The three ways [add_badge] goes: for a well-formed badge the
    controller is called, and nothing is sent; a message that looks like a
    command is passed over; for anything else the controller is not
    called, and one error reply is sent unless errors are suppressed. *)
Lemma add_badge_cases (c : cog) (m : message) (suppress_errors : bool) (w : world) :
  (exists a : badge_args,
     well_formed c m a /\
     add_badge c m suppress_errors w =
       (after_call w (save_badge c a), called (SaveBadge a) w))
  \/ ((forall a, ~ well_formed c m a) /\
      ((looks_like_command (get_command_prefix c m) (content m) = true /\
        add_badge c m suppress_errors w = (Normal None, w))
       \/
       (looks_like_command (get_command_prefix c m) (content m) = false /\
        exists fmt args,
          add_badge c m suppress_errors w =
            if suppress_errors then (Normal None, w)
            else (after_call w None,
                  called (SendMessage (self_channel c) fmt args) w)))).
Proof.
  unfold add_badge.
  destruct (looks_like_command (get_command_prefix c m) (content m)) eqn:Hcmd.
  { right. split.
    - intros a (Hc & _). congruence.
    - left. split; reflexivity. }
  assert (Herr : forall fmt args,
    (forall a, ~ well_formed c m a) ->
    (forall a, ~ well_formed c m a) /\
    ((false = true /\ reply_error c suppress_errors fmt args w = (Normal None, w))
     \/
     (false = false /\
      exists fmt0 args0,
        reply_error c suppress_errors fmt args w =
          if suppress_errors then (Normal None, w)
          else (after_call w None,
                called (SendMessage (self_channel c) fmt0 args0) w)))).
  { intros fmt args Hnot. split; [exact Hnot|]. right. split; [reflexivity|].
    exists fmt, args. apply reply_error_run. }
  destruct (mentions m) as [|to [|to' tos]] eqn:Hm.
  - right. apply Herr. intros a (_ & to1 & b1 & r1 & Hto & _). congruence.
  - destruct (same_member to (author m)) eqn:Hself.
    { right. apply Herr. intros a (_ & to1 & b1 & r1 & Hto & Hne & _).
      rewrite Hm in Hto. injection Hto as <-.
      unfold same_member in Hself. by apply bool_decide_eq_true in Hself. }
    destruct (List.filter (fun b => pattern_search c b (content m)) (badge_types c))
      as [|b [|b' bs]] eqn:Hb.
    + right. apply Herr. intros a (_ & to1 & b1 & r1 & _ & _ & Hb1 & _). congruence.
    + destruct (bool_decide (Guild ∈ [b]) && negb (check_mod c m)) eqn:Hguild.
      { right. apply Herr. intros a (_ & to1 & b1 & r1 & _ & _ & Hb1 & Hg & _).
        rewrite Hb in Hb1. injection Hb1 as <-.
        apply andb_true_iff in Hguild as [Hin Hmod].
        apply bool_decide_eq_true, list_elem_of_singleton in Hin.
        rewrite Hg in Hmod by done. discriminate. }
      destruct (_parse_badge_reason c (content m)) as [r|] eqn:Hr.
      * left. eexists. split; [|apply save_run].
        split; [exact Hcmd|]. exists to, b, r.
        split; [exact Hm|]. split.
        { unfold same_member in Hself. by apply bool_decide_eq_false in Hself. }
        split; [exact Hb|]. split; [|split; [exact Hr | reflexivity]].
        intros ->. apply andb_false_iff in Hguild as [Hin | Hmod].
        -- apply bool_decide_eq_false in Hin. exfalso. apply Hin.
           by apply list_elem_of_singleton.
        -- by destruct (check_mod c m).
      * right. apply Herr. intros a (_ & to1 & b1 & r1 & _ & _ & _ & _ & Hr1 & _).
        congruence.
    + right. apply Herr. intros a (_ & to1 & b1 & r1 & _ & _ & Hb1 & _). congruence.
  - right. apply Herr. intros a (_ & to1 & b1 & r1 & Hto & _). congruence.
Qed.

Lemma well_formed_unique (c : cog) (m : message) (a a' : badge_args) :
  well_formed c m a -> well_formed c m a' -> a = a'.
Proof.
  intros (_ & to & b & r & Hm & _ & Hb & _ & Hr & ->)
         (_ & to' & b' & r' & Hm' & _ & Hb' & _ & Hr' & ->).
  congruence.
Qed.

Lemma log_called (ev : bevent) (w : world) : log (called ev w) = log w ++ [ev].
Proof. reflexivity. Qed.

(** [add_badge] calls the controller exactly for the well-formed badges: a
    message that is not a command, mentions one member other than its
    author, shows one badge type (the Guild badge only from a moderator)
    and has a reason is saved with these data, by the only call made, and
    the row of the controller is returned, unless the controller raises;
    for any other message the controller is not called and no row is
    returned. *)
Theorem add_badge_saves_well_formed (c : cog) (m : message) (suppress_errors : bool)
    (w : world) :
  (forall a : badge_args,
     well_formed c m a ->
     add_badge c m suppress_errors w =
       (after_call w (save_badge c a), called (SaveBadge a) w))
  /\ ((forall a, ~ well_formed c m a) ->
      (forall row, (add_badge c m suppress_errors w).1 <> Normal (Some row)) /\
      exists evs : list bevent,
        log (add_badge c m suppress_errors w).2 = log w ++ evs /\
        Forall (fun ev => ~ is_save ev) evs).
Proof.
  destruct (add_badge_cases c m suppress_errors w)
    as [(a & Hwf & Hrun) | (Hnot & [(_ & Hrun) | (_ & fmt & args & Hrun)])].
  - split.
    + intros a' Hwf'. by rewrite (well_formed_unique c m a' a Hwf' Hwf).
    + intros Hnot. by destruct (Hnot a).
  - split.
    + intros a Hwf. by destruct (Hnot a).
    + intros _. rewrite Hrun. split; [discriminate|]. exists [].
      rewrite app_nil_r. split; [reflexivity | constructor].
  - split.
    + intros a Hwf. by destruct (Hnot a).
    + intros _. rewrite Hrun. destruct suppress_errors.
      * split; [discriminate|]. exists []. rewrite app_nil_r.
        split; [reflexivity | constructor].
      * split; [unfold after_call; destruct (next_answer w); discriminate|].
        eexists. split; [apply log_called|]. repeat constructor. auto.
Qed.

Lemma sample_well_formed :
  well_formed sample_cog sample_message
    {| message_id := "100"; to_member := "2"; from_member := "1"; badge := "Writing";
       reason := py "W helping out"; badge_timestamp := 5 |}.
Proof.
  split; [reflexivity|]. exists bob, "Writing", (py "W helping out").
  repeat split; try reflexivity; discriminate.
Qed.

Lemma add_badge_saves_well_formed_witness :
  add_badge sample_cog sample_message false (world_of []) =
    (after_call (world_of [])
       (save_badge sample_cog
          {| message_id := "100"; to_member := "2"; from_member := "1";
             badge := "Writing"; reason := py "W helping out";
             badge_timestamp := 5 |}),
     called (SaveBadge {| message_id := "100"; to_member := "2"; from_member := "1";
                          badge := "Writing"; reason := py "W helping out";
                          badge_timestamp := 5 |}) (world_of [])).
Proof.
  apply (proj1 (add_badge_saves_well_formed sample_cog sample_message false
                  (world_of []))).
  exact sample_well_formed.
Defined.



(** ** load *)






(** ** on_message *)

Lemma notify_run (c : cog) (fmt : string) (m : message) (row : badge_args) (w : world) :
  notify c fmt m row w =
    match get_member c (to_member row) with
    | Some mem =>
        (after_call w tt,
         called (SendMessage (self_channel c) fmt (notice_args c m mem row)) w)
    | None => (Raised (OtherException "AttributeError"), w)
    end.
Proof. unfold notify. by destruct (get_member c (to_member row)). Qed.

(** What [on_message] does with a message. Before the cog is ready the
    handler is not run: nothing is called. A message from another channel
    or from the bot itself, and a message that looks like a command, leave
    no trace. For a well-formed badge the controller is called; when it
    answers with a row, the congratulation is sent to the badge channel,
    if the server has the member of the row, and else formatting the text
    raises; when the controller raises, nothing is sent. Any other message
    draws exactly one error reply and is not saved. The handler raises
    only what the last call it made raises, or that [AttributeError]. *)
Theorem on_message_spec (c : cog) (m : message) (w : world) :
  (is_ready c = false ->
     on_message c m w =
       (match when_not_ready c with Some e => Raised e | None => Normal tt end, w))
  /\ (is_ready c = true ->
      (ignored c m = true \/
       looks_like_command (get_command_prefix c m) (content m) = true ->
       on_message c m w = (Normal tt, w))
      /\ (ignored c m = false ->
          forall a : badge_args,
            well_formed c m a ->
            on_message c m w =
              match next_answer w with
              | Some e => (Raised e, called (SaveBadge a) w)
              | None =>
                  match save_badge c a with
                  | Some row =>
                      match get_member c (to_member row) with
                      | Some mem =>
                          (after_call (called (SaveBadge a) w) tt,
                           called
                             (SendMessage (self_channel c)
                                "Congratulations, {1.mention}! {0.mention} just gave you the {2} badge!"
                                (notice_args c m mem row))
                             (called (SaveBadge a) w))
                      | None =>
                          (Raised (OtherException "AttributeError"),
                           called (SaveBadge a) w)
                      end
                  | None => (Normal tt, called (SaveBadge a) w)
                  end
              end)
      /\ (ignored c m = false ->
          looks_like_command (get_command_prefix c m) (content m) = false ->
          (forall a, ~ well_formed c m a) ->
          exists fmt args,
            on_message c m w =
              (after_call w tt, called (SendMessage (self_channel c) fmt args) w))).
Proof.
  unfold on_message, ready_only. split.
  - intros ->. unfold answer_of. by destruct (when_not_ready c).
  - intros ->.
    destruct (add_badge_cases c m false w)
      as [(a & Hwf & Hrun) | (Hnot & [(Hcmd & Hrun) | (Hcmd & fmt & args & Hrun)])].
    + split; [|split].
      * intros [-> | Hcmd]; [reflexivity|].
        destruct Hwf as (Hc & _). congruence.
      * intros -> a' Hwf'. rewrite <- (well_formed_unique c m a a' Hwf Hwf').
        unfold bind. rewrite Hrun. unfold after_call.
        destruct (next_answer w); [reflexivity|].
        destruct (save_badge c a) as [row|]; [|reflexivity].
        apply notify_run.
      * intros _ _ Hnot. by destruct (Hnot a).
    + split; [|split].
      * intros _. destruct (ignored c m); [reflexivity|].
        unfold bind. by rewrite Hrun.
      * intros _ a Hwf. by destruct (Hnot a).
      * intros _ Hc. congruence.
    + split; [|split].
      * intros [-> | Hc]; [reflexivity | congruence].
      * intros _ a Hwf. by destruct (Hnot a).
      * intros -> _ _. unfold bind. rewrite Hrun. exists fmt, args.
        unfold after_call. by destruct (next_answer w).
Qed.

Lemma on_message_spec_witness :
  on_message sample_cog sample_message (world_of []) =
    (Normal tt,
     {| log :=
          [SaveBadge {| message_id := "100"; to_member := "2"; from_member := "1";
                        badge := "Writing"; reason := py "W helping out";
                        badge_timestamp := 5 |};
           SendMessage "badges"
             "Congratulations, {1.mention}! {0.mention} just gave you the {2} badge!"
             [AStr "<@1>"; AStr "<@2>"; AStr ":Writing:"]];
        answers := [] |}).
Proof.
  rewrite (proj1 (proj2 (proj2 (on_message_spec sample_cog sample_message (world_of []))
                          eq_refl)) eq_refl _ sample_well_formed).
  reflexivity.
Defined.

(** ** on_message_edit *)

(** An edit never removes a badge: [on_message_edit] never calls
    [delete_badge], and when the message after the edit is not a
    well-formed badge the controller is not called at all, so that
    whatever row it holds for the message is left as it is. *)
Theorem on_message_edit_keeps_row (c : cog) (before after : message) (w : world) :
  exists evs : list bevent,
    log (on_message_edit c before after w).2 = log w ++ evs
    /\ Forall (fun ev => forall mid, ev <> DeleteBadge mid) evs
    /\ ((forall a, ~ well_formed c after a) -> Forall (fun ev => ~ is_save ev) evs).
Proof.
  assert (Hnone : exists evs : list bevent,
            log w = log w ++ evs
            /\ Forall (fun ev => forall mid, ev <> DeleteBadge mid) evs
            /\ ((forall a, ~ well_formed c after a) ->
                Forall (fun ev => ~ is_save ev) evs)).
  { exists []. rewrite app_nil_r. repeat split; constructor. }
  unfold on_message_edit, ready_only.
  destruct (is_ready c).
  2: { unfold answer_of. by destruct (when_not_ready c). }
  destruct (ignored c before); [exact Hnone|].
  destruct (add_badge_cases c after false w)
    as [(a & Hwf & Hrun) | (Hnot & [(Hcmd & Hrun) | (Hcmd & fmt & args & Hrun)])];
    unfold bind; rewrite Hrun.
  - unfold after_call. destruct (next_answer w).
    { exists [SaveBadge a]. split; [reflexivity|].
      split; [repeat constructor; discriminate | intros Hnot; by destruct (Hnot a)]. }
    destruct (save_badge c a) as [row|].
    + rewrite notify_run. destruct (get_member c (to_member row)) as [mem|].
      * eexists [SaveBadge a; _]. cbn [snd]. rewrite !log_called, <- app_assoc.
        split; [reflexivity|].
        split; [repeat constructor; discriminate | intros Hnot; by destruct (Hnot a)].
      * exists [SaveBadge a]. split; [reflexivity|].
        split; [repeat constructor; discriminate | intros Hnot; by destruct (Hnot a)].
    + exists [SaveBadge a]. split; [reflexivity|].
      split; [repeat constructor; discriminate | intros Hnot; by destruct (Hnot a)].
  - exact Hnone.
  - exists [SendMessage (self_channel c) fmt args].
    split; [unfold after_call; by destruct (next_answer w)|].
    split; [repeat constructor; discriminate | intros _; repeat constructor; auto].
Qed.

Lemma on_message_edit_keeps_row_witness :
  exists evs : list bevent,
    log (on_message_edit sample_cog sample_message
           {| msg_id := "100"; content := py "oops"; mentions := [bob]; author := alice;
              channel := "badges"; timestamp := 6 |} (world_of [])).2
      = log (world_of []) ++ evs
    /\ Forall (fun ev => ~ is_save ev) evs.
Proof.
  destruct (on_message_edit_keeps_row sample_cog sample_message
              {| msg_id := "100"; content := py "oops"; mentions := [bob];
                 author := alice; channel := "badges"; timestamp := 6 |} (world_of []))
    as (evs & Hrun & _ & Hquiet).
  exists evs. split; [exact Hrun|]. apply Hquiet.
  intros a (_ & to & b & r & _ & _ & Hf & _). vm_compute in Hf. discriminate Hf.
Defined.

(** ** _parse_badge_reason *)

Local Open Scope N_scope.

Lemma split_on_no_sep (sep : N) (l : pystr) : sep ∉ l -> split_on sep l = [l].
Proof.
  induction l as [|ch l IH]; intros Hnot; [reflexivity|].
  apply not_elem_of_cons in Hnot as [Hne Hnot]. cbn [split_on].
  destruct (N.eqb_spec ch sep) as [->|_]; [done|]. by rewrite IH.
Qed.

Lemma split_on_app (sep : N) (l rest : pystr) :
  sep ∉ l -> split_on sep (l ++ sep :: rest) = l :: split_on sep rest.
Proof.
  induction l as [|ch l IH]; intros Hnot.
  - cbn [app split_on]. by rewrite N.eqb_refl.
  - apply not_elem_of_cons in Hnot as [Hne Hnot]. cbn [app split_on].
    destruct (N.eqb_spec ch sep) as [->|_]; [done|]. by rewrite IH.
Qed.

(** Splitting what was joined gives the lines back. *)
Lemma split_on_join (sep : N) (lines : list pystr) :
  lines <> [] ->
  Forall (fun l => sep ∉ l) lines ->
  split_on sep (join sep lines) = lines.
Proof.
  induction lines as [|l lines IH]; intros Hne Hall; [done|].
  apply Forall_cons in Hall as [Hl Hall].
  destruct lines as [|l' lines].
  - cbn [join]. by apply split_on_no_sep.
  - change (join sep (l :: l' :: lines)) with (l ++ sep :: join sep (l' :: lines)).
    rewrite split_on_app by exact Hl. by rewrite IH.
Qed.

Lemma parse_lines_none (c : cog) (lines : list pystr) :
  parse_lines c lines = None <-> Forall (fun l => for_line l = false) lines.
Proof.
  induction lines as [|line lines IH]; cbn [parse_lines].
  - split; [constructor | reflexivity].
  - rewrite Forall_cons, <- IH. unfold for_line.
    destruct (split_once 58 line) as [[field value]|]; [|tauto].
    destruct (for_field field); [|tauto].
    split; [discriminate | intros [? _]; discriminate].
Qed.

Lemma parse_lines_first (c : cog) (pre post : list pystr) (line field value : pystr) :
  Forall (fun l => for_line l = false) pre ->
  split_once 58 line = Some (field, value) ->
  for_field field = true ->
  parse_lines c (pre ++ line :: post) = Some (clean_reason c value).
Proof.
  intros Hpre Hsplit Hfor. induction Hpre as [|l pre Hl _ IH]; cbn [app parse_lines].
  - by rewrite Hsplit, Hfor.
  - unfold for_line in Hl. destruct (split_once 58 l) as [[f v]|]; [|exact IH].
    by rewrite Hl.
Qed.

(** The reason of a badge comes from the first [For:] line of the text:
    [_parse_badge_reason] returns [None] exactly when no line is a [For:]
    line; and for a text whose lines up to a [For:] line are not [For:]
    lines, the reason is made from what follows the first colon of that
    line, whatever comes after it (a later [For:] line is not read). *)
Theorem parse_badge_reason_first_line (c : cog) :
  (forall text : pystr,
     _parse_badge_reason c text = None <->
     Forall (fun l => for_line l = false) (split_on 10 text))
  /\ (forall (pre post : list pystr) (line field value : pystr),
       Forall (fun l => 10 ∉ l) (pre ++ line :: post) ->
       Forall (fun l => for_line l = false) pre ->
       split_once 58 line = Some (field, value) ->
       for_field field = true ->
       _parse_badge_reason c (join 10 (pre ++ line :: post))
         = Some (clean_reason c value)).
Proof.
  split.
  - intros text. apply parse_lines_none.
  - intros pre post line field value Hnl Hpre Hsplit Hfor.
    unfold _parse_badge_reason.
    rewrite split_on_join; [|by destruct pre|exact Hnl].
    exact (parse_lines_first c pre post line field value Hpre Hsplit Hfor).
Qed.

Lemma parse_badge_reason_first_line_witness :
  _parse_badge_reason sample_cog
    (join 10 ([py "To: @bob"] ++ py "__for__: first" :: [py "For: second"]))
    = Some (clean_reason sample_cog (py " first")).
Proof.
  apply (proj2 (parse_badge_reason_first_line sample_cog)
           [py "To: @bob"] [py "For: second"] (py "__for__: first")
           (py "__for__") (py " first")).
  - repeat constructor; by apply (bool_decide_unpack _).
  - repeat constructor.
  - reflexivity.
  - reflexivity.
Defined.

(** ** The field of a For: line *)

Lemma lstrip_app (p : N -> bool) (pre s : pystr) :
  Forall (fun ch => p ch = true) pre ->
  lstrip p (pre ++ s) = lstrip p s.
Proof.
  induction 1 as [|ch pre Hch _ IH]; [reflexivity|].
  cbn [app lstrip]. by rewrite Hch.
Qed.

Lemma lstrip_keep (p : N -> bool) (ch : N) (s : pystr) :
  p ch = false -> lstrip p (ch :: s) = ch :: s.
Proof. intros Hch. cbn [lstrip]. by rewrite Hch. Qed.

Lemma lower_cp_letter (ch k : N) :
  lower_cp ch = k -> 97 <= k <= 122 -> k <> 107 -> ch = k \/ ch = k - 32.
Proof.
  unfold lower_cp.
  destruct (N.leb_spec 65 ch), (N.leb_spec ch 90); simpl;
    try destruct (N.eqb_spec ch 8490); lia.
Qed.

(** The field before the colon may be wrapped in blanks and emphasis
    marks, and its letters may be of either case: any of
    [For], [FOR], [**For**], [__for__], ... makes a [For:] line. *)
Theorem for_field_decorated (pre post : pystr) (c1 c2 c3 : N) :
  Forall (fun ch => ch ∈ [32; 10; 13; 9; 42; 95]) pre ->
  Forall (fun ch => ch ∈ [32; 10; 13; 9; 42; 95]) post ->
  lower [c1; c2; c3] = py "for" ->
  for_field (pre ++ [c1; c2; c3] ++ post) = true.
Proof.
  intros Hpre Hpost Hlow.
  assert (Hl : [lower_cp c1; lower_cp c2; lower_cp c3] = [102; 111; 114])
    by exact Hlow.
  injection Hl as H1 H2 H3.
  assert (Hkeep : forall ch k, lower_cp ch = k -> 97 <= k <= 122 -> k <> 107 ->
            k <> 95 + 32 ->
            in_chars [32; 10; 13; 9; 42; 95] ch = false).
  { intros ch k Hk Hr Hne Hne'. apply lower_cp_letter in Hk as [-> | ->]; try done;
      apply bool_decide_eq_false; rewrite !elem_of_cons, elem_of_nil; lia. }
  assert (Hp : forall l, Forall (fun ch => ch ∈ [32; 10; 13; 9; 42; 95]) l ->
            Forall (fun ch => in_chars [32; 10; 13; 9; 42; 95] ch = true) l).
  { intros l Hall. eapply Forall_impl; [exact Hall|].
    intros ch Hch. by apply bool_decide_eq_true. }
  unfold for_field. apply bool_decide_eq_true.
  assert (Hstrip : strip (in_chars [32; 10; 13; 9; 42; 95])
                     (pre ++ [c1; c2; c3] ++ post) = [c1; c2; c3]).
  { unfold strip, rstrip. rewrite lstrip_app by (by apply Hp).
    cbn [app]. rewrite lstrip_keep by (by apply (Hkeep c1 102)).
    change (c1 :: c2 :: c3 :: post) with ([c1; c2; c3] ++ post).
    rewrite reverse_app, lstrip_app by (apply Hp; by apply Forall_reverse).
    change (reverse [c1; c2; c3]) with [c3; c2; c1].
    rewrite lstrip_keep by (by apply (Hkeep c3 114)). reflexivity. }
  rewrite Hstrip. unfold lower. cbn [fmap list_fmap]. by rewrite H1, H2, H3.
Qed.

Lemma for_field_decorated_witness :
  for_field (py " **" ++ py "FoR" ++ py "**") = true.
Proof.
  apply (for_field_decorated (py " **") (py "**") 70 111 82).
  - repeat constructor; by apply (bool_decide_unpack _).
  - repeat constructor; by apply (bool_decide_unpack _).
  - reflexivity.
Defined.

End BadgesFacts.
